(** * Estimation tools: burndown and workload charts

    A shallow embedding of [estimationtools/burndownchart.py] and of the
    summation loop of [estimationtools/workloadchart.py], with the
    properties of the historical reconstruction engine proved about it.
    The time frame, the weekends and the weekend bands of the burndown
    chart, the working days of the workload chart and the sums of
    [hoursspent.py] and [hoursestimated.py] follow, with their properties.

    Conventions.
    - A [datetime.date] is its proleptic Gregorian ordinal
      ([date.toordinal()]), a [Z]; [timedelta(days=1)] is [+ 1].  The
      calendar's upper limit (9999-12-31, ordinal 3652059, where [+ 1]
      raises OverflowError) is not modelled: a property that needs the day
      after a date assumes that the date is before that limit.
    - A Python [dict] is a [gmap]; a missing key read with [d[k]] raises
      [KeyError].
    - Python exceptions are the [Raise] results of the [result] monad.
    - [decimal.Decimal] is modelled in [Module Dec], with the default
      context of Python 2.7 (28 digits, ROUND_HALF_EVEN, InvalidOperation
      and DivisionByZero trapped).  The exponent limits of the context
      (Emax, Emin = +-999999999) are not modelled: no Overflow, no
      subnormal values.  The properties are therefore stated of the values
      that the functions return, or for exponents far from these limits.
    - Text is a [string] of bytes; digits are the ASCII digits. *)

From Stdlib Require Import ZArith NArith Lia List Ascii String.
From stdpp Require Import base option list gmap strings sorting.

Local Open Scope Z_scope.

(** ** Exceptions *)

Inductive exn :=
| KeyError
| TypeError
| ValueError
| InvalidOperation
| DivisionByZero.

Inductive result (A : Type) :=
| Ok (a : A)
| Raise (e : exn).
Arguments Ok {A} a.
Arguments Raise {A} e.

#[global] Instance result_ret : MRet result := fun A a => Ok a.
#[global] Instance result_bind : MBind result := fun A B f m =>
  match m with
  | Ok a => f a
  | Raise e => Raise e
  end.
#[global] Instance result_fmap : FMap result := fun A B f m =>
  match m with
  | Ok a => Ok (f a)
  | Raise e => Raise e
  end.

#[global] Instance exn_eq_dec : EqDecision exn.
Proof. solve_decision. Defined.

(** [d[k]] on a dictionary. *)
Definition getitem {V} (d : gmap Z V) (k : Z) : result V :=
  match d !! k with
  | Some v => Ok v
  | None => Raise KeyError
  end.

(** ** decimal.Decimal *)

Module Dec.

Inductive Decimal :=
| Finite (sign : bool) (coeff : N) (exp : Z)
| Infinity (sign : bool)
| NaN (sign : bool) (signaling : bool) (payload : N).

#[global] Instance Decimal_eq_dec : EqDecision Decimal.
Proof. solve_decision. Defined.

Inductive rounding := ROUND_HALF_EVEN | ROUND_HALF_UP.

(** The default context. *)
Definition prec : Z := 28.
Definition Etiny : Z := -1000000026.

(** [Decimal(z)] for an [int]. *)
Definition of_int (z : Z) : Decimal := Finite (z <? 0) (Z.to_N (Z.abs z)) 0.

Definition pow10 (k : Z) : N := Z.to_N (10 ^ k).

(** [len(str(n))]: the number of decimal digits, 1 for 0.  A number has no
    more decimal digits than bits, which bounds the recursion. *)
Fixpoint ndigits_aux (fuel : nat) (n : N) : Z :=
  match fuel with
  | O => 1
  | S fuel' => if (n <? 10)%N then 1 else 1 + ndigits_aux fuel' (n / 10)%N
  end.

Definition ndigits (n : N) : Z := ndigits_aux (N.to_nat (N.size n)) n.

(** [not d]: a finite zero; NaNs and infinities are true. *)
Definition is_zero (d : Decimal) : bool :=
  match d with
  | Finite _ c _ => (c =? 0)%N
  | _ => false
  end.

(** The rounding functions, on a coefficient [c] that loses its last [k]
    digits: whether the kept part is incremented. *)
Definition round_half_up (c : N) (k : Z) : bool :=
  (pow10 k <=? 2 * (c mod pow10 k))%N.

Definition round_half_even (c : N) (k : Z) : bool :=
  if ((2 * (c mod pow10 k) =? pow10 k) && N.even (c / pow10 k))%N
  then false
  else round_half_up c k.

Definition round_incr (r : rounding) : N → Z → bool :=
  match r with
  | ROUND_HALF_EVEN => round_half_even
  | ROUND_HALF_UP => round_half_up
  end.

(** [_fix_nan]: the payload keeps its last [prec] digits. *)
Definition fix_nan (d : Decimal) : Decimal :=
  match d with
  | NaN s sg p => NaN s sg (p mod pow10 prec)
  | _ => d
  end.

(** [_fix]: round to the precision of the context. *)
Definition _fix (d : Decimal) : Decimal :=
  match d with
  | NaN _ _ _ => fix_nan d
  | Infinity _ => d
  | Finite s c e =>
      if (c =? 0)%N then d
      else
        let exp_min := ndigits c + e - prec in
        if e <? exp_min then
          let k := exp_min - e in
          let q := (c / pow10 k)%N in
          let coeff := if round_half_even c k then (q + 1)%N else q in
          if prec <? ndigits coeff
          then Finite s (coeff / 10)%N (exp_min + 1)
          else Finite s coeff exp_min
        else d
  end.

(** [_rescale]: set the exponent, padding with zeros or rounding. *)
Definition rescale (d : Decimal) (exp : Z) (r : rounding) : Decimal :=
  match d with
  | Finite s c e =>
      if (c =? 0)%N then Finite s 0 exp
      else if exp <=? e then Finite s (c * pow10 (e - exp))%N exp
      else
        let digits := ndigits c + e - exp in
        let '(c', k) :=
          if digits <? 0 then (1%N, 1) else (c, ndigits c - digits) in
        let q := (c' / pow10 k)%N in
        Finite s (if round_incr r c' k then (q + 1)%N else q) exp
  | _ => d
  end.

(** [_check_nans]: a signaling NaN raises, a quiet NaN is the answer. *)
Definition check_nans (a b : Decimal) : result (option Decimal) :=
  match a, b with
  | NaN _ true _, _ => Raise InvalidOperation
  | _, NaN _ true _ => Raise InvalidOperation
  | NaN _ false _, _ => Ok (Some (fix_nan a))
  | _, NaN _ false _ => Ok (Some (fix_nan b))
  | _, _ => Ok None
  end.

(** [_normalize]: the two operands of an addition at one exponent. *)
Definition normalize (c1 : N) (e1 : Z) (c2 : N) (e2 : Z) : N * N * Z :=
  if e1 <? e2 then
    (* tmp = op2, other = op1 *)
    let exp := e2 + Z.min (-1) (ndigits c2 - prec - 2) in
    let '(o, oe) := if ndigits c1 + e1 - 1 <? exp then (1%N, exp) else (c1, e1) in
    (o, (c2 * pow10 (e2 - oe))%N, oe)
  else
    (* tmp = op1, other = op2 *)
    let exp := e1 + Z.min (-1) (ndigits c1 - prec - 2) in
    let '(o, oe) := if ndigits c2 + e2 - 1 <? exp then (1%N, exp) else (c2, e2) in
    ((c1 * pow10 (e1 - oe))%N, o, oe).

(** [a + b]. *)
Definition add (a b : Decimal) : result Decimal :=
  n ← check_nans a b;
  match n with
  | Some ans => Ok ans
  | None =>
      match a, b with
      | Infinity s1, Infinity s2 =>
          if Bool.eqb s1 s2 then Ok a else Raise InvalidOperation
      | Infinity _, _ => Ok a
      | _, Infinity _ => Ok b
      | Finite s1 c1 e1, Finite s2 c2 e2 =>
          let exp := Z.min e1 e2 in
          if ((c1 =? 0) && (c2 =? 0))%N then
            Ok (_fix (Finite (s1 && s2) 0 exp))
          else if (c1 =? 0)%N then
            Ok (_fix (rescale b (Z.max exp (e2 - prec - 1)) ROUND_HALF_EVEN))
          else if (c2 =? 0)%N then
            Ok (_fix (rescale a (Z.max exp (e1 - prec - 1)) ROUND_HALF_EVEN))
          else
            let '(i1, i2, e) := normalize c1 e1 c2 e2 in
            if Bool.eqb s1 s2 then Ok (_fix (Finite s1 (i1 + i2) e))
            else if (i1 =? i2)%N then Ok (_fix (Finite false 0 exp))
            else if (i1 <? i2)%N then Ok (_fix (Finite s2 (i2 - i1) e))
            else Ok (_fix (Finite s1 (i1 - i2) e))
      | _, _ => Ok a
      end
  end.

(** [a * b]. *)
Definition mul (a b : Decimal) : result Decimal :=
  n ← check_nans a b;
  match n with
  | Some ans => Ok ans
  | None =>
      match a, b with
      | Infinity s1, Infinity s2 => Ok (Infinity (xorb s1 s2))
      | Infinity s1, Finite s2 c2 _ =>
          if (c2 =? 0)%N then Raise InvalidOperation
          else Ok (Infinity (xorb s1 s2))
      | Finite s1 c1 _, Infinity s2 =>
          if (c1 =? 0)%N then Raise InvalidOperation
          else Ok (Infinity (xorb s1 s2))
      | Finite s1 c1 e1, Finite s2 c2 e2 =>
          let sign := xorb s1 s2 in
          let exp := e1 + e2 in
          if ((c1 =? 0) || (c2 =? 0))%N then Ok (_fix (Finite sign 0 exp))
          else if (c1 =? 1)%N then Ok (_fix (Finite sign c2 exp))
          else if (c2 =? 1)%N then Ok (_fix (Finite sign c1 exp))
          else Ok (_fix (Finite sign (c1 * c2) exp))
      | _, _ => Ok a
      end
  end.

(** The loop of an exact division: drop trailing zeros while the exponent
    is below the ideal one. *)
Fixpoint strip_zeros (n : nat) (coeff : N) (exp : Z) : N * Z :=
  match n with
  | O => (coeff, exp)
  | S n' =>
      if (coeff mod 10 =? 0)%N then strip_zeros n' (coeff / 10)%N (exp + 1)
      else (coeff, exp)
  end.

(** [a / b]. *)
Definition div (a b : Decimal) : result Decimal :=
  n ← check_nans a b;
  match n with
  | Some ans => Ok ans
  | None =>
      match a, b with
      | Infinity _, Infinity _ => Raise InvalidOperation
      | Infinity s1, Finite s2 _ _ => Ok (Infinity (xorb s1 s2))
      | Finite s1 _ _, Infinity s2 => Ok (Finite (xorb s1 s2) 0 Etiny)
      | Finite s1 c1 e1, Finite s2 c2 e2 =>
          let sign := xorb s1 s2 in
          if (c2 =? 0)%N then
            if (c1 =? 0)%N then Raise InvalidOperation
            else Raise DivisionByZero
          else if (c1 =? 0)%N then Ok (_fix (Finite sign 0 (e1 - e2)))
          else
            let shift := ndigits c2 - ndigits c1 + prec + 1 in
            let exp := e1 - e2 - shift in
            let '(coeff, remainder) :=
              if 0 <=? shift
              then N.div_eucl (c1 * pow10 shift) c2
              else N.div_eucl c1 (c2 * pow10 (- shift)) in
            let '(coeff, exp) :=
              if (remainder =? 0)%N
              then strip_zeros (Z.to_nat (e1 - e2 - exp)) coeff exp
              else (if (coeff mod 5 =? 0)%N then (coeff + 1)%N else coeff, exp) in
            Ok (_fix (Finite sign coeff exp))
      | _, _ => Ok a
      end
  end.

(** [self.quantize(exp, rounding)]. *)
Definition quantize (self exp : Decimal) (r : rounding) : result Decimal :=
  n ← check_nans self exp;
  match n with
  | Some ans => Ok ans
  | None =>
      match self, exp with
      | Infinity _, Infinity _ => Ok self
      | Infinity _, _ => Raise InvalidOperation
      | _, Infinity _ => Raise InvalidOperation
      | Finite s c e, Finite _ _ qe =>
          if (c =? 0)%N then Ok (_fix (Finite s 0 qe))
          else if prec <? (ndigits c + e - 1) - qe + 1 then Raise InvalidOperation
          else
            match rescale self qe r with
            | Finite s' c' e' =>
                if prec <? ndigits c' then Raise InvalidOperation
                else Ok (_fix (Finite s' c' e'))
            | ans => Ok ans
            end
      | _, _ => Ok self
      end
  end.

(** The value of a finite decimal at exponent [m], as a signed integer. *)
Definition scaled (s : bool) (c : N) (e m : Z) : Z :=
  let v := Z.of_N c * 10 ^ (e - m) in
  if s then - v else v.

(** [_cmp]: the comparison of two decimals that are no NaN. *)
Definition cmp (a b : Decimal) : comparison :=
  match a, b with
  | Finite s1 c1 e1, Finite s2 c2 e2 =>
      let m := Z.min e1 e2 in
      scaled s1 c1 e1 m ?= scaled s2 c2 e2 m
  | Infinity s1, Infinity s2 =>
      match s1, s2 with
      | true, false => Lt
      | false, true => Gt
      | _, _ => Eq
      end
  | Infinity s1, _ => if s1 then Lt else Gt
  | _, Infinity s2 => if s2 then Gt else Lt
  | _, _ => Eq
  end.

Definition is_nan (d : Decimal) : bool :=
  match d with
  | NaN _ _ _ => true
  | _ => false
  end.

(** The ordering comparisons signal InvalidOperation on a NaN. *)
Definition compare_check_nans (a b : Decimal) : result unit :=
  if is_nan a || is_nan b then Raise InvalidOperation else Ok tt.

Definition gt (a b : Decimal) : result bool :=
  _ ← compare_check_nans a b;
  Ok (match cmp a b with Gt => true | _ => false end).

Definition le (a b : Decimal) : result bool :=
  _ ← compare_check_nans a b;
  Ok (match cmp a b with Gt => false | _ => true end).

(** *** Text *)

Definition digit_char (n : N) : ascii := ascii_of_N (48 + n).

Fixpoint str_of_N_aux (fuel : nat) (n : N) (acc : string) : string :=
  match fuel with
  | O => acc
  | S fuel' =>
      let acc' := String (digit_char (n mod 10)) acc in
      if (n <? 10)%N then acc' else str_of_N_aux fuel' (n / 10)%N acc'
  end.

(** [str(n)] for a natural number. *)
Definition str_of_N (n : N) : string :=
  str_of_N_aux (S (N.to_nat (N.size n))) n EmptyString.

Fixpoint zeros (n : nat) : string :=
  match n with
  | O => EmptyString
  | S n' => String "0" (zeros n')
  end.

(** ["%+d" % z]. *)
Definition str_signed (z : Z) : string :=
  (if z <? 0 then "-" else "+") +:+ str_of_N (Z.to_N (Z.abs z)).

(** [str(d)], scientific notation, capitals. *)
Definition str (d : Decimal) : string :=
  match d with
  | Infinity s => (if s then "-" else "") +:+ "Infinity"
  | NaN s sg p =>
      (if s then "-" else "") +:+ (if sg then "sNaN" else "NaN")
        +:+ (if (p =? 0)%N then "" else str_of_N p)
  | Finite s c e =>
      let int := str_of_N c in
      let len := Z.of_nat (String.length int) in
      let leftdigits := e + len in
      let dotplace := if (e <=? 0) && (-6 <? leftdigits) then leftdigits else 1 in
      let intpart :=
        if dotplace <=? 0 then "0"
        else if len <=? dotplace then int +:+ zeros (Z.to_nat (dotplace - len))
        else substring 0 (Z.to_nat dotplace) int in
      let fracpart :=
        if dotplace <=? 0 then "." +:+ zeros (Z.to_nat (- dotplace)) +:+ int
        else if len <=? dotplace then ""
        else "." +:+ substring (Z.to_nat dotplace) (Z.to_nat (len - dotplace)) int in
      let exp :=
        if leftdigits =? dotplace then ""
        else "E" +:+ str_signed (leftdigits - dotplace) in
      (if s then "-" else "") +:+ intpart +:+ fracpart +:+ exp
  end.

(** *** [Decimal(text)] *)

Definition is_digit (a : ascii) : bool :=
  let n := N_of_ascii a in ((48 <=? n) && (n <=? 57))%N.

(** The characters that [str.strip()] removes. *)
Definition is_space (a : ascii) : bool :=
  let n := N_of_ascii a in ((n =? 32) || ((9 <=? n) && (n <=? 13)))%N.

Definition lower (a : ascii) : ascii :=
  let n := N_of_ascii a in
  if ((65 <=? n) && (n <=? 90))%N then ascii_of_N (n + 32) else a.

Fixpoint lstrip (cs : list ascii) : list ascii :=
  match cs with
  | c :: cs' => if is_space c then lstrip cs' else cs
  | [] => []
  end.

Definition strip (cs : list ascii) : list ascii :=
  rev (lstrip (rev (lstrip cs))).

(** The longest prefix of digits, and what follows it. *)
Fixpoint span_digits (cs : list ascii) : list ascii * list ascii :=
  match cs with
  | c :: cs' =>
      if is_digit c
      then let '(ds, rest) := span_digits cs' in (c :: ds, rest)
      else ([], cs)
  | [] => ([], [])
  end.

(** [int(ds)] for a text of digits; the empty text counts as 0. *)
Definition N_of_digits (ds : list ascii) : N :=
  fold_left (fun acc c => (10 * acc + (N_of_ascii c - 48))%N) ds 0%N.

(** The optional exponent [(E[-+]?\d+)?] and the end of the text. *)
Definition parse_exp (cs : list ascii) : option Z :=
  match cs with
  | [] => Some 0
  | c :: cs' =>
      if Ascii.eqb (lower c) "e" then
        let '(neg, ds) :=
          match cs' with
          | "-"%char :: r => (true, r)
          | "+"%char :: r => (false, r)
          | _ => (false, cs')
          end in
        match span_digits ds with
        | ((_ :: _) as es, []) =>
            let v := Z.of_N (N_of_digits es) in
            Some (if neg then - v else v)
        | _ => None
        end
      else None
  end.

(** A number: digits with an optional fraction and exponent, at least one
    digit. *)
Definition parse_number (cs : list ascii) : option (N * Z) :=
  let '(ip, r1) := span_digits cs in
  match r1 with
  | "."%char :: r2 =>
      let '(fp, r3) := span_digits r2 in
      match ip, fp with
      | [], [] => None
      | _, _ =>
          e ← parse_exp r3;
          Some (N_of_digits (ip ++ fp), e - Z.of_nat (length fp))
      end
  | _ =>
      match ip with
      | [] => None
      | _ => e ← parse_exp r1; Some (N_of_digits ip, e)
      end
  end.

(** [Inf], [Infinity], [NaN] and [sNaN] with a payload, in any case. *)
Definition parse_special (sign : bool) (cs : list ascii) : option Decimal :=
  let s := string_of_list_ascii (map lower cs) in
  if String.eqb s "inf" || String.eqb s "infinity" then Some (Infinity sign)
  else
    match map lower cs with
    | "n"%char :: "a"%char :: "n"%char :: r =>
        match span_digits r with
        | (ds, []) => Some (NaN sign false (N_of_digits ds))
        | _ => None
        end
    | "s"%char :: "n"%char :: "a"%char :: "n"%char :: r =>
        match span_digits r with
        | (ds, []) => Some (NaN sign true (N_of_digits ds))
        | _ => None
        end
    | _ => None
    end.

(** [Decimal(text)]; [None] stands for the InvalidOperation that an
    invalid literal raises. *)
Definition of_string (text : string) : option Decimal :=
  let cs := strip (list_ascii_of_string text) in
  let '(sign, body) :=
    match cs with
    | "-"%char :: r => (true, r)
    | "+"%char :: r => (false, r)
    | _ => (false, cs)
    end in
  match parse_number body with
  | Some (c, e) => Some (Finite sign c e)
  | None => parse_special sign body
  end.

End Dec.

Import Dec.

(** ** Values, tickets and the change log *)

(** The values a ticket field or a change column holds: [None], text, or a
    number. *)
Inductive pyval :=
| PNone
| PStr (s : string)
| PInt (z : Z).

#[global] Instance pyval_eq_dec : EqDecision pyval.
Proof. solve_decision. Defined.

(** Truth value: [None], the empty text and 0 are false. *)
Definition truth (v : pyval) : bool :=
  match v with
  | PNone => false
  | PStr s => negb (String.eqb s "")
  | PInt z => negb (z =? 0)
  end.

(** [Decimal(v)]. *)
Definition Decimal_new (v : pyval) : result Decimal :=
  match v with
  | PNone => Raise TypeError
  | PStr s =>
      match of_string s with
      | Some d => Ok d
      | None => Raise InvalidOperation
      end
  | PInt z => Ok (of_int z)
  end.

(** A day, as [date.toordinal()]. *)
Abbreviation date := Z (only parsing).

(** [from_utimestamp(t).date()]: the UTC day of a timestamp in microseconds
    since 1970-01-01 (ordinal 719163). *)
Definition from_utimestamp_date (t : Z) : date := 719163 + t / 86400000000.

(** A row of [ticket_change]: field, time, oldvalue, newvalue. *)
Record ticket_change := {
  c_field : string;
  c_time : Z;
  c_oldvalue : pyval;
  c_newvalue : pyval;
}.

#[global] Instance ticket_change_eq_dec : EqDecision ticket_change.
Proof. solve_decision. Defined.

(** A ticket of the query result: [t['id']], [t['time'].date()],
    [t['status']] and the value of the tracked field. *)
Record ticket := {
  t_id : Z;
  t_time : date;
  t_status : pyval;
  t_value : pyval;
}.

(** The macro object: the configured field names and closed states, and
    the change log, [db_query self id field] being the rows that the query
    of the source returns for ticket [id] and the tracked [field], in the
    order of the query (ascending time). *)
Record BurndownChart := {
  remaining_field : string;
  spent_field : string;
  closed_states : list string;
  db_query : Z → string → list ticket_change;
}.

(** The options read here: the window, today, and the value of
    [int(options.get('expected', 0))] for an option that [int] accepts; the
    ValueError that [int] raises for any other text is not modelled, and
    the properties of [_scale_data] are stated of what it returns. *)
Record options := {
  startdate : date;
  enddate : date;
  today : date;
  expected : Z;
}.

(** [status in self.closed_states]. *)
Definition in_closed_states (self : BurndownChart) (status : pyval) : bool :=
  match status with
  | PStr s => bool_decide (s ∈ closed_states self)
  | _ => false
  end.

(** ** BurndownChart *)

(** [_cast_estimate]: 0, the empty text and [None] are 0; a value that
    [Decimal] refuses is [None].  (The TypeError and the InvalidOperation
    that the source catches are all that [Decimal_new] raises.) *)
Definition _cast_estimate (estimate : pyval) : option Decimal :=
  if negb (truth estimate) then Some (of_int 0)
  else
    match Decimal_new estimate with
    | Ok d => Some d
    | Raise _ => None
    end.

(** [_round]: two places, half up. *)
Definition _round (decimal_ : Decimal) : result Decimal :=
  quantize decimal_ (Finite false 1 (-2)) ROUND_HALF_UP.

(** The four variables of the loop over the change rows. *)
Record history := {
  estimate_history : gmap Z Decimal;
  status_history : gmap Z pyval;
  earliest_estimate : option Decimal;
  earliest_status : pyval;
}.

Definition empty_history : history :=
  {| estimate_history := ∅; status_history := ∅;
     earliest_estimate := None; earliest_status := PNone |}.

(** The body of [for row in self.env.db_query(...)]. *)
Definition record_change (field : string) (h : history) (row : ticket_change)
  : history :=
  let event_date := from_utimestamp_date (c_time row) in
  if String.eqb (c_field row) field then
    let new_value := _cast_estimate (c_newvalue row) in
    {| estimate_history :=
         match new_value with
         | Some v => <[event_date := v]> (estimate_history h)
         | None => estimate_history h
         end;
       status_history := status_history h;
       earliest_estimate :=
         match earliest_estimate h with
         | None => _cast_estimate (c_oldvalue row)
         | Some e => Some e
         end;
       earliest_status := earliest_status h |}
  else if String.eqb (c_field row) "status" then
    {| estimate_history := estimate_history h;
       status_history := <[event_date := c_newvalue row]> (status_history h);
       earliest_estimate := earliest_estimate h;
       earliest_status :=
         match earliest_status h with
         | PNone => c_oldvalue row
         | s => s
         end |}
  else h.

Definition change_history (field : string) (rows : list ticket_change)
  : history :=
  fold_left (record_change field) rows empty_history.

(** The values on the creation date, when no change of that day set them. *)
Definition seed_estimate (creation_date : date) (latest_estimate : Decimal)
    (h : history) : gmap Z Decimal :=
  match estimate_history h !! creation_date with
  | Some _ => estimate_history h
  | None =>
      match earliest_estimate h with
      | Some e => <[creation_date := e]> (estimate_history h)
      | None => <[creation_date := latest_estimate]> (estimate_history h)
      end
  end.

Definition seed_status (creation_date : date) (latest_status : pyval)
    (h : history) : gmap Z pyval :=
  match status_history h !! creation_date with
  | Some _ => status_history h
  | None =>
      match earliest_status h with
      | PNone => <[creation_date := latest_status]> (status_history h)
      | s => <[creation_date := s]> (status_history h)
      end
  end.

(** [latest_estimate]: the current value, 0 when it does not parse. *)
Definition latest_estimate (t : ticket) : Decimal :=
  match _cast_estimate (t_value t) with
  | Some d => d
  | None => of_int 0
  end.

(** The per-day maps of a ticket, as the two timetable functions build
    them for the tracked [field]. *)
Definition ticket_estimates (self : BurndownChart) (field : string) (t : ticket)
  : gmap Z Decimal :=
  seed_estimate (t_time t) (latest_estimate t)
    (change_history field (db_query self (t_id t) field)).

Definition ticket_statuses (self : BurndownChart) (field : string) (t : ticket)
  : gmap Z pyval :=
  seed_status (t_time t) (t_status t)
    (change_history field (db_query self (t_id t) field)).

(** [timetable[current_date] += current_estimate]. *)
Definition iadd (timetable : gmap Z Decimal) (current_date : date)
    (current_estimate : option Decimal) : result (gmap Z Decimal) :=
  v ← getitem timetable current_date;
  match current_estimate with
  | None => Raise TypeError
  | Some e => v' ← add v e; Ok (<[current_date := v']> timetable)
  end.

(** [timetable = {}; while current_date <= enddate: ...]: [n] days are
    left to seed, from [current_date] on. *)
Fixpoint seed_timetable (n : nat) (current_date : date)
    (timetable : gmap Z Decimal) : gmap Z Decimal :=
  match n with
  | O => timetable
  | S n' =>
      seed_timetable n' (current_date + 1) (<[current_date := of_int 0]> timetable)
  end.

(** The number of iterations of [while current_date <= enddate] with
    [current_date] a day further each time. *)
Definition days_until (enddate current_date : date) : nat :=
  Z.to_nat (enddate + 1 - current_date).

Definition empty_timetable (o : options) : gmap Z Decimal :=
  seed_timetable (days_until (enddate o) (startdate o)) (startdate o) ∅.

(** The loop that adds a ticket to the remaining timetable, [n] days left. *)
Fixpoint add_open_effort (self : BurndownChart) (o : options)
    (estimate_history : gmap Z Decimal) (status_history : gmap Z pyval)
    (n : nat) (current_date : date) (current_estimate : option Decimal)
    (is_open : option bool) (timetable : gmap Z Decimal)
  : result (gmap Z Decimal) :=
  match n with
  | O => Ok timetable
  | S n' =>
      let is_open :=
        match status_history !! current_date with
        | Some s => Some (negb (in_closed_states self s))
        | None => is_open
        end in
      let current_estimate :=
        match estimate_history !! current_date with
        | Some e => Some e
        | None => current_estimate
        end in
      timetable ←
        (if (startdate o <=? current_date) && from_option id false is_open
         then iadd timetable current_date current_estimate
         else Ok timetable);
      add_open_effort self o estimate_history status_history
        n' (current_date + 1) current_estimate is_open timetable
  end.

(** The loop that adds a ticket to the spent timetable. *)
Fixpoint add_effort (o : options) (estimate_history : gmap Z Decimal)
    (n : nat) (current_date : date) (current_estimate : option Decimal)
    (timetable : gmap Z Decimal) : result (gmap Z Decimal) :=
  match n with
  | O => Ok timetable
  | S n' =>
      let current_estimate :=
        match estimate_history !! current_date with
        | Some e => Some e
        | None => current_estimate
        end in
      timetable ←
        (if startdate o <=? current_date
         then iadd timetable current_date current_estimate
         else Ok timetable);
      add_effort o estimate_history n' (current_date + 1) current_estimate timetable
  end.

(** The body of [for t in tickets] of [_calculate_timetable]. *)
Definition add_ticket (self : BurndownChart) (o : options)
    (timetable : gmap Z Decimal) (t : ticket) : result (gmap Z Decimal) :=
  add_open_effort self o
    (ticket_estimates self (remaining_field self) t)
    (ticket_statuses self (remaining_field self) t)
    (days_until (enddate o) (t_time t)) (t_time t) None None timetable.

(** The body of [for t in tickets] of [_calculate_timetable_spent]. *)
Definition add_ticket_spent (self : BurndownChart) (o : options)
    (timetable : gmap Z Decimal) (t : ticket) : result (gmap Z Decimal) :=
  add_effort o
    (ticket_estimates self (spent_field self) t)
    (days_until (enddate o) (t_time t)) (t_time t) None timetable.

(** [for x in l: s = f(s, x)], stopping at the first exception. *)
Fixpoint for_each {S A} (f : S → A → result S) (l : list A) (s : S) : result S :=
  match l with
  | [] => Ok s
  | x :: l' => s' ← f s x; for_each f l' s'
  end.

(** [_calculate_timetable], on the tickets that [execute_query] returns. *)
Definition _calculate_timetable (self : BurndownChart) (o : options)
    (tickets : list ticket) : result (gmap Z Decimal) :=
  for_each (add_ticket self o) tickets (empty_timetable o).

(** [_calculate_timetable_spent]. *)
Definition _calculate_timetable_spent (self : BurndownChart) (o : options)
    (tickets : list ticket) : result (gmap Z Decimal) :=
  for_each (add_ticket_spent self o) tickets (empty_timetable o).

(** [max(l)]: the first of the greatest elements, compared with [>]. *)
Fixpoint max_from (m : Decimal) (l : list Decimal) : result Decimal :=
  match l with
  | [] => Ok m
  | x :: l' => gt x m ≫= λ b : bool, max_from (if b then x else m) l'
  end.

Definition py_max (l : list Decimal) : result Decimal :=
  match l with
  | [] => Raise ValueError
  | x :: l' => max_from x l'
  end.

(** [dates = timetable.keys(); dates.sort()]. *)
Definition sorted_dates (timetable : gmap Z Decimal) : list Z :=
  merge_sort Z.le (map_to_list timetable).*1.

(** [str(self._round(x * Decimal(100) / y))]. *)
Definition percent (x y : Decimal) : result string :=
  p ← mul x (of_int 100);
  q ← div p y;
  r ← _round q;
  Ok (str r).

(** The peak: [max(timetable.values() + [expected])], 100 when that is not
    positive.  The order in which a dictionary lists its values is not
    specified; the values are taken in the order of [map_to_list].  The
    integer [expected] enters as [Decimal(expected)], which compares,
    divides and prints like it. *)
Definition peak (timetable : gmap Z Decimal) (o : options) : result Decimal :=
  maxhours ← py_max ((map_to_list timetable).*2 ++ [of_int (expected o)]);
  le maxhours (of_int 0) ≫= λ b : bool,
  Ok (if b then of_int 100 else maxhours).

(** The y column before the days after today are masked. *)
Definition percentages (timetable : gmap Z Decimal) (maxhours : Decimal)
  : result (list string) :=
  mapM (fun d => v ← getitem timetable d; percent v maxhours)
       (sorted_dates timetable).

(** The x column: the positions [0 .. len(dates) - 1], evenly spread. *)
Definition abscissas (len : nat) : result (list string) :=
  mapM (fun x : nat =>
          p ← mul (of_int 100) (of_int (Z.of_nat x));
          q ← div p (of_int (Z.of_nat len - 1));
          r ← _round q;
          Ok (str r))
       (seq 0 len).

(** [ydata[: - remaining_days] + ['-1' for x in xrange(0, remaining_days)]]
    when [remaining_days] is not 0. *)
Definition mask_future (ydata : list string) (remaining_days : nat)
  : list string :=
  match remaining_days with
  | O => ydata
  | _ => take (length ydata - remaining_days) ydata
           ++ replicate remaining_days "-1"%string
  end.

(** [_scale_data]: the result is [(xdata, ydata, maxhours)]. *)
Definition _scale_data (timetable : gmap Z Decimal) (o : options)
  : result (list string * list string * Decimal) :=
  let dates := sorted_dates timetable in
  maxhours ← peak timetable o;
  ydata ← percentages timetable maxhours;
  xdata ← abscissas (length dates);
  let remaining_days := length (filter (fun d => today o < d) dates) in
  Ok (xdata, mask_future ydata remaining_days, maxhours).

(** ** WorkloadChart *)

Section Workload.

(** The floating point numbers of the host: [float(v)], which fails on
    what is no number, [0.0] and [+]. *)
Variable float : Type.
Variable float_new : pyval → option float.
Variable float_zero : float.
Variable float_add : float → float → float.

(** A ticket of the query result: [ticket['status']], [ticket['owner']]
    and [ticket[self.remaining_field]]. *)
Record wticket := {
  w_status : pyval;
  w_owner : pyval;
  w_remaining : pyval;
}.

(** [sum] and [estimations]; an owner is a key of the dictionary, so the
    owners are compared as values. *)
Definition workload : Type := float * list (pyval * float).

(** [estimations[owner] += estimation], or a new entry at the end. *)
Fixpoint credit (estimations : list (pyval * float)) (owner : pyval)
    (estimation : float) : list (pyval * float) :=
  match estimations with
  | [] => [(owner, estimation)]
  | (o, e) :: rest =>
      if decide (o = owner) then (o, float_add e estimation) :: rest
      else (o, e) :: credit rest owner estimation
  end.

(** [ticket['status'] in self.closed_states]. *)
Definition is_closed (closed : list string) (t : wticket) : bool :=
  match w_status t with
  | PStr s => bool_decide (s ∈ closed)
  | _ => false
  end.

(** The body of [for ticket in tickets]: a closed ticket is passed over;
    when [float] fails, the [except] clause leaves the sums as they were. *)
Definition count_ticket (closed : list string) (w : workload) (t : wticket)
  : workload :=
  if is_closed closed t then w
  else
    match float_new (w_remaining t) with
    | None => w
    | Some estimation =>
        (float_add (fst w) estimation, credit (snd w) (w_owner t) estimation)
    end.

(** The tickets that enter the sums. *)
Definition counted (closed : list string) (t : wticket) : bool :=
  negb (is_closed closed t) && bool_decide (is_Some (float_new (w_remaining t))).

Definition workload_sums (closed : list string) (tickets : list wticket)
  : workload :=
  fold_left (count_ticket closed) tickets (float_zero, []).

End Workload.

(** ** Vocabulary of the properties *)

(** A timetable has the days of the window, and no other. *)
Definition covers (o : options) (m : gmap Z Decimal) : Prop :=
  ∀ d, is_Some (m !! d) ↔ startdate o ≤ d ≤ enddate o.

(** Forward fill: the most recent entry of a per-day map among the days
    [d], [d - 1], ..., [d - k]. *)
Fixpoint recent {V} (h : gmap Z V) (k : nat) (d : Z) : option V :=
  match h !! d with
  | Some v => Some v
  | None =>
      match k with
      | O => None
      | S k' => recent h k' (d - 1)
      end
  end.

(** The value carried on day [d] by a loop that starts on day [c] with
    the value [init]: the most recent entry since [c], or else [init]. *)
Definition carried {V} (h : gmap Z V) (c : Z) (init : option V) (d : Z)
  : option V :=
  match recent h (Z.to_nat (d - c)) d with
  | Some v => Some v
  | None => init
  end.

(** The per-day map of [status not in self.closed_states]. *)
Definition open_history (self : BurndownChart) (sh : gmap Z pyval)
  : gmap Z bool :=
  (fun s => negb (in_closed_states self s)) <$> sh.

(** Whether a ticket counts as open on day [d], and its estimate that day,
    as the loops of the two timetables carry them from the creation date. *)
Definition open_on (self : BurndownChart) (t : ticket) (d : Z) : bool :=
  from_option id false
    (carried (open_history self (ticket_statuses self (remaining_field self) t))
             (t_time t) None d).

Definition estimate_on (self : BurndownChart) (field : string) (t : ticket)
    (d : Z) : option Decimal :=
  carried (ticket_estimates self field t) (t_time t) None d.

Definition is_finite (d : Decimal) : Prop :=
  match d with
  | Finite _ _ _ => True
  | _ => False
  end.


Definition finite_table (m : gmap Z Decimal) : Prop :=
  ∀ d v, m !! d = Some v → is_finite v.

(** A value that [_cast_estimate] turns into no infinity and no NaN. *)
Definition finite_value (v : pyval) : Prop :=
  ∀ d, _cast_estimate v = Some d → is_finite d.

(** The tickets and their change rows hold finite values only. *)
Definition finite_inputs (self : BurndownChart) (field : string)
    (tickets : list ticket) : Prop :=
  ∀ t, t ∈ tickets →
    finite_value (t_value t)
    ∧ ∀ row, row ∈ db_query self (t_id t) field →
        finite_value (c_oldvalue row) ∧ finite_value (c_newvalue row).


(** ** The example of the specification *)

(** 2008-01-01 .. 2008-01-05 as ordinals: 733042 .. 733046. *)
Definition example_window : options :=
  {| startdate := 733042; enddate := 733046; today := 733046; expected := 0 |}.

(** One change of the tracked field, on 2008-01-03 at 10:00 UTC,
    from "10" to "4". *)
Definition example_change : ticket_change :=
  {| c_field := "estimatedhours"; c_time := 1199354400000000;
     c_oldvalue := PStr "10"; c_newvalue := PStr "4" |}.

Definition example_chart : BurndownChart :=
  {| remaining_field := "estimatedhours";
     spent_field := "totalhours";
     closed_states := ["closed"%string];
     db_query := fun id field =>
       if (id =? 1) && String.eqb field "estimatedhours"
       then [example_change] else [] |}.

(** Ticket 1, created 2008-01-01, status "new", estimate "10". *)
Definition example_ticket : ticket :=
  {| t_id := 1; t_time := 733042; t_status := PStr "new"; t_value := PStr "10" |}.


(** Ticket 1 as the query returns it after the change: the current value
    is the new one, "4". *)
Definition revised_ticket : ticket :=
  {| t_id := 1; t_time := 733042; t_status := PStr "new"; t_value := PStr "4" |}.


(** The order of the query: [ORDER BY c.time ASC]. *)
Definition time_le (a b : ticket_change) : Prop := c_time a ≤ c_time b.

#[global] Instance time_le_trans : Transitive time_le.
Proof. intros a b c. unfold time_le. lia. Qed.

Definition event_date (row : ticket_change) : Z :=
  from_utimestamp_date (c_time row).

(** Two changes of the tracked field on 2008-01-03, at 10:00 and at 15:00
    UTC: first "10" to "4", then "4" to a text that is no number. *)
Definition unparseable_change : ticket_change :=
  {| c_field := "estimatedhours"; c_time := 1199372400000000;
     c_oldvalue := PStr "4"; c_newvalue := PStr "n/a" |}.


(** The chart of the example, with the second change of 2008-01-03 in the
    log of ticket 1. *)
Definition two_change_chart : BurndownChart :=
  {| remaining_field := "estimatedhours";
     spent_field := "totalhours";
     closed_states := ["closed"%string];
     db_query := fun id field =>
       if (id =? 1) && String.eqb field "estimatedhours"
       then [example_change; unparseable_change] else [] |}.


(** Ticket 3, created 2008-01-01 with estimate "8" that is never changed,
    closed on 2008-01-03 at 09:00 UTC. *)
Definition closing_change : ticket_change :=
  {| c_field := "status"; c_time := 1199350800000000;
     c_oldvalue := PStr "new"; c_newvalue := PStr "closed" |}.

(** The same ticket reopened on 2008-01-04 at 09:00 UTC. *)
Definition reopening_change : ticket_change :=
  {| c_field := "status"; c_time := 1199437200000000;
     c_oldvalue := PStr "closed"; c_newvalue := PStr "reopened" |}.

Definition closing_chart : BurndownChart :=
  {| remaining_field := "estimatedhours";
     spent_field := "totalhours";
     closed_states := ["closed"%string];
     db_query := fun id field => if id =? 3 then [closing_change] else [] |}.

Definition reopening_chart : BurndownChart :=
  {| remaining_field := "estimatedhours";
     spent_field := "totalhours";
     closed_states := ["closed"%string];
     db_query := fun id field =>
       if id =? 3 then [closing_change; reopening_change] else [] |}.

Definition closed_ticket : ticket :=
  {| t_id := 3; t_time := 733042; t_status := PStr "closed"; t_value := PStr "8" |}.

Definition reopened_ticket : ticket :=
  {| t_id := 3; t_time := 733042; t_status := PStr "reopened"; t_value := PStr "8" |}.


(** Whether a text has the character [a]. *)
Fixpoint has_char (a : ascii) (s : string) : bool :=
  match s with
  | EmptyString => false
  | String b s' => Ascii.eqb a b || has_char a s'
  end.


(** The remaining timetable of the example, and the one of a ticket with
    estimate "8" and no history. *)
Definition example_timetable : gmap Z Decimal :=
  <[733042 := of_int 10]> (<[733043 := of_int 10]> (<[733044 := of_int 4]>
    (<[733045 := of_int 4]> (<[733046 := of_int 4]> ∅)))).

Definition flat_timetable : gmap Z Decimal :=
  <[733042 := of_int 8]> (<[733043 := of_int 8]> (<[733044 := of_int 8]>
    (<[733045 := of_int 8]> (<[733046 := of_int 8]> ∅)))).

(** The window of the example seen on 2008-01-02, three days before its
    end. *)
Definition early_window : options :=
  {| startdate := 733042; enddate := 733046; today := 733043; expected := 0 |}.


(** Workload tickets, with whole numbers for the floating point numbers:
    a closed ticket, an open one with 3 hours, and an open one whose
    remaining value is no number. *)
Definition whole_number (v : pyval) : option Z :=
  match v with
  | PInt z => Some z
  | _ => None
  end.

Definition workload_closed : wticket :=
  {| w_status := PStr "closed"; w_owner := PStr "ann"; w_remaining := PInt 5 |}.

Definition workload_open : wticket :=
  {| w_status := PStr "new"; w_owner := PStr "bob"; w_remaining := PInt 3 |}.

Definition workload_unknown : wticket :=
  {| w_status := PStr "new"; w_owner := PStr "bob"; w_remaining := PStr "soon" |}.


(** A finite value that is zero, or at most 19 orders of magnitude above
    the finite value [m]. *)
Definition within_reach (v m : Decimal) : Prop :=
  match v, m with
  | Finite _ c e, Finite _ c' e' =>
      c = 0%N ∨ ndigits c + e ≤ ndigits c' + e' + 19
  | _, _ => False
  end.


(** ** The rest of the macros *)

(** [expand_macro] of BurndownChart, "minimum time frame is one day":
    [if options['startdate'] >= options['enddate']:
       options['enddate'] = options['startdate'] + timedelta(days=1)]. *)
Definition minimum_time_frame (o : options) : options :=
  if enddate o <=? startdate o
  then {| startdate := startdate o; enddate := startdate o + 1;
          today := today o; expected := expected o |}
  else o.

(** [date.weekday()]: Monday is 0 and Sunday is 6; the ordinal 1 is a
    Monday. *)
Definition weekday (d : date) : Z := (d + 6) mod 7.

(** [del d[k]]. *)
Definition delitem {V} (d : gmap Z V) (k : Z) : result (gmap Z V) :=
  match d !! k with
  | Some _ => Ok (delete k d)
  | None => Raise KeyError
  end.

(** The body of [for date in timetable.keys()] of "remove weekends". *)
Definition remove_weekend (tables : gmap Z Decimal * gmap Z Decimal) (date : Z)
  : result (gmap Z Decimal * gmap Z Decimal) :=
  if 5 <=? weekday date then
    timetable ← delitem (fst tables) date;
    timetable_spent ← delitem (snd tables) date;
    Ok (timetable, timetable_spent)
  else Ok tables.

(** "remove weekends", the loop [for date in timetable.keys(): ...] that
    runs when [options['weekends']] is false; the keys are listed before
    the loop, in the order of [map_to_list]. *)
Definition remove_weekends (timetable timetable_spent : gmap Z Decimal)
  : result (gmap Z Decimal * gmap Z Decimal) :=
  for_each remove_weekend (map_to_list timetable).*1 (timetable, timetable_spent).

(** [expand_macro] of WorkloadChart, "calculate remaining work time": the
    loop [while currentdate <= options['enddate']], [n] days left. *)
Fixpoint count_workdays (n : nat) (currentdate : date) (days_remaining : Z) : Z :=
  match n with
  | O => days_remaining
  | S n' =>
      count_workdays n' (currentdate + 1)
        (if weekday currentdate <? 5 then days_remaining + 1 else days_remaining)
  end.

(** [days_remaining] for [currentdate = options['today']], when the
    options have both dates. *)
Definition workdays_left (today enddate : date) : Z :=
  count_workdays (days_until enddate today) today 0.

Section Hours.

(** The floating point numbers of the host, as for WorkloadChart. *)
Variable float : Type.
Variable float_new : pyval → option float.
Variable float_zero : float.
Variable float_add : float → float → float.

(** [expand_macro] of HoursSpent and of HoursEstimated: the body of
    [for t in tickets], on the value [t[field]] of a ticket. *)
Definition add_hours (sum : float) (value : pyval) : float :=
  match float_new value with
  | Some hours => float_add sum hours
  | None => sum
  end.

(** [sum = 0.0; for t in tickets: ...]. *)
Definition hours_sum (values : list pyval) : float :=
  fold_left add_hours values float_zero.

End Hours.


(** *** The weekend bands of the burndown chart *)

(** What the chart code can raise: the exceptions of the timetables and
    of their scaling, and the [IndexError] of a list read out of range. *)
Inductive chart_exn :=
  | IndexError
  | Arithmetic (e : exn).

Inductive outcome (A : Type) :=
  | Done (a : A)
  | Failed (e : chart_exn).
Arguments Done {A} a.
Arguments Failed {A} e.

Definition outcome_bind {A B} (m : outcome A) (f : A → outcome B) : outcome B :=
  match m with
  | Done a => f a
  | Failed e => Failed e
  end.

(** A computation on decimals inside the chart code. *)
Definition arith {A} (r : result A) : outcome A :=
  match r with
  | Ok a => Done a
  | Raise e => Failed (Arithmetic e)
  end.

(** [l[i]] for [i >= 0]. *)
Definition list_item {A} (l : list A) (i : nat) : outcome A :=
  match l !! i with
  | Some x => Done x
  | None => Failed IndexError
  end.

(** [d.copy_negate()]. *)
Definition copy_negate (d : Decimal) : Decimal :=
  match d with
  | Finite s c e => Finite (negb s) c e
  | Infinity s => Infinity (negb s)
  | NaN s sg p => NaN (negb s) sg p
  end.

(** [a - b]: the NaNs are looked at first, then [a + b.copy_negate()]. *)
Definition sub (a b : Decimal) : result Decimal :=
  n ← check_nans a b;
  match n with
  | Some ans => Ok ans
  | None => add a (copy_negate b)
  end.

(** [halfday = self._round(Decimal("0.5") / (len(dates) - 1))]. *)
Definition halfday (len : nat) : result Decimal :=
  q ← div (Finite false 5 (-1)) (of_int (Z.of_nat len - 1));
  _round q.

(** The band of a weekend:
    ["R,%s,0,%s,%s" % (wecolor,
       self._round((Decimal(xdata[saturday]) / 100) - halfday),
       self._round((Decimal(xdata[index]) / 100) + halfday))]. *)
Definition weekend_band (wecolor : string) (xdata : list string)
    (halfday : Decimal) (saturday index : nat) : outcome string :=
  outcome_bind (list_item xdata saturday) (fun x_saturday =>
  outcome_bind (arith (x ← Decimal_new (PStr x_saturday);
                       y ← div x (of_int 100);
                       z ← sub y halfday;
                       _round z)) (fun left =>
  outcome_bind (list_item xdata index) (fun x_index =>
  outcome_bind (arith (x ← Decimal_new (PStr x_index);
                       y ← div x (of_int 100);
                       z ← add y halfday;
                       _round z)) (fun right =>
  Done ("R," +:+ wecolor +:+ ",0," +:+ str left +:+ "," +:+ str right))))).

(** The variables of the loop [for date in dates]. *)
Record marking := {
  weekends : list string;
  saturday : option nat;
  index : nat;
}.

(** [if saturday]: [None] and the index 0 are false. *)
Definition saturday_seen (saturday : option nat) : option nat :=
  match saturday with
  | Some (S i) => Some (S i)
  | _ => None
  end.

(** The body of the loop. *)
Definition mark_weekend (wecolor : string) (xdata : list string)
    (halfday : Decimal) (s : marking) (date : Z) : outcome marking :=
  let saturday := if weekday date =? 5 then Some (index s) else saturday s in
  match saturday_seen saturday with
  | Some sat =>
      if weekday date =? 6 then
        outcome_bind (weekend_band wecolor xdata halfday sat (index s)) (fun band =>
        Done {| weekends := weekends s ++ [band];
                saturday := None;
                index := S (index s) |})
      else Done {| weekends := weekends s; saturday := saturday;
                   index := S (index s) |}
  | None => Done {| weekends := weekends s; saturday := saturday;
                    index := S (index s) |}
  end.

Fixpoint mark_each (wecolor : string) (xdata : list string) (halfday : Decimal)
    (dates : list Z) (s : marking) : outcome marking :=
  match dates with
  | [] => Done s
  | date :: dates' =>
      outcome_bind (mark_weekend wecolor xdata halfday s date)
                   (mark_each wecolor xdata halfday dates')
  end.

(** "mark weekends": the loop, then the band of a period that starts with
    a Sunday and the band of a period that ends with a Saturday. *)
Definition mark_weekends (wecolor : string) (dates : list Z)
    (xdata : list string) : outcome (list string) :=
  outcome_bind (arith (halfday (length dates))) (fun halfday =>
  outcome_bind (mark_each wecolor xdata halfday dates
                  {| weekends := []; saturday := None; index := 0 |}) (fun s =>
  let weekends :=
    match head dates with
    | Some first =>
        if weekday first =? 6
        then weekends s ++ ["R," +:+ wecolor +:+ ",0,0.0," +:+ str halfday]
        else weekends s
    | None => weekends s
    end in
  match last dates with
  | Some final =>
      if weekday final =? 5 then
        outcome_bind (arith (sub (of_int 1) halfday)) (fun right =>
        Done (weekends ++ ["R," +:+ wecolor +:+ ",0," +:+ str right +:+ ",1.0"]))
      else Done weekends
  | None => Done weekends
  end)).

(** The days [first], [first + 1], ... of a chart of [n] days that keeps
    its weekends. *)
Definition days_from (first : Z) (n : nat) : list Z :=
  (fun i : nat => first + Z.of_nat i) <$> seq 0 n.

(** ** Vocabulary of the further properties *)

(** The estimates of the tickets of an owner that enter the sums, in the
    order of the tickets. *)
Definition owner_estimates (float : Type) (float_new : pyval → option float)
    (closed : list string) (owner : pyval) (tickets : list wticket) : list float :=
  omap (fun t => if counted float float_new closed t
                      && bool_decide (w_owner t = owner)
                 then float_new (w_remaining t) else None) tickets.

(** The days of a timetable that are no Saturday and no Sunday. *)
Definition working_days (timetable : gmap Z Decimal) : gmap Z Decimal :=
  filter (fun entry => weekday (fst entry) < 5) timetable.

(** A timetable of one day, 2008-01-01. *)
Definition single_day_timetable : gmap Z Decimal := {[ 733042 := of_int 10 ]}.

(** A window of the single day 2008-01-01. *)
Definition single_day_window : options :=
  {| startdate := 733042; enddate := 733042; today := 733042; expected := 0 |}.

(** A spent timetable that lacks Saturday 2008-01-05. *)
Definition short_timetable : gmap Z Decimal :=
  <[733042 := of_int 8]> (<[733043 := of_int 8]> (<[733044 := of_int 8]>
    (<[733045 := of_int 8]> ∅))).

(** Ticket 2, created 2008-01-01, status "new", with an estimate that is
    the text "NaN"; the chart of the example has no change of it. *)
Definition nan_ticket : ticket :=
  {| t_id := 2; t_time := 733042; t_status := PStr "new"; t_value := PStr "NaN" |}.

(** Ticket 4, created 2008-01-03 and closed ever since, and ticket 5,
    created then and open, both with estimate "8" and no change. *)
Definition retired_ticket : ticket :=
  {| t_id := 4; t_time := 733044; t_status := PStr "closed"; t_value := PStr "8" |}.

Definition late_ticket : ticket :=
  {| t_id := 5; t_time := 733044; t_status := PStr "new"; t_value := PStr "8" |}.

(** The last two days of the window of the example: 2008-01-04 and
    2008-01-05, after the change of ticket 1. *)
Definition late_window : options :=
  {| startdate := 733045; enddate := 733046; today := 733046; expected := 0 |}.

(** The x column of a chart of seven days. *)
Definition week_xdata : list string :=
  ["0.00"; "16.67"; "33.33"; "50.00"; "66.67"; "83.33"; "100.00"]%string.


(** A change of the tracked field on 2008-01-02 at 10:00 UTC, from a text
    that is no number to "10", and a chart with this change before the
    change of the example in the log of ticket 1, and alone in the log of
    the other tickets. *)
Definition garbled_change : ticket_change :=
  {| c_field := "estimatedhours"; c_time := 1199268000000000;
     c_oldvalue := PStr "tbd"; c_newvalue := PStr "10" |}.

Definition garbled_chart : BurndownChart :=
  {| remaining_field := "estimatedhours";
     spent_field := "totalhours";
     closed_states := ["closed"%string];
     db_query := fun id field =>
       if id =? 1 then [garbled_change; example_change] else [garbled_change] |}.


(** The value of a decimal of exponent 0, a whole number (any other finite
    decimal gives its coefficient with its sign). *)
Definition hours_of (v : option Decimal) : Z :=
  match v with
  | Some (Finite s c _) => if s then - Z.of_N c else Z.of_N c
  | _ => 0
  end.

(** The hours of the tickets that exist on day [d], and of those that are
    open on day [d], as the sum of whole numbers. *)
Definition spent_on (self : BurndownChart) (d : Z) (tickets : list ticket) : Z :=
  foldr (fun t total =>
           (if bool_decide (t_time t ≤ d)
            then hours_of (estimate_on self (spent_field self) t d) else 0) + total)
        0 tickets.

Definition remaining_on (self : BurndownChart) (d : Z) (tickets : list ticket) : Z :=
  foldr (fun t total =>
           (if bool_decide (t_time t ≤ d) && open_on self t d
            then hours_of (estimate_on self (remaining_field self) t d) else 0) + total)
        0 tickets.

(** * Properties *)

(** ** The loops are the [while] loops of the source *)

Lemma days_until_0 (e c : Z) : e < c → days_until e c = 0%nat.
Proof. unfold days_until. lia. Qed.

Lemma days_until_S (e c : Z) :
  c ≤ e → days_until e c = S (days_until e (c + 1)).
Proof. unfold days_until. lia. Qed.

Lemma days_until_bound (e c : Z) :
  days_until e c = 0%nat ∨ c + Z.of_nat (days_until e c) ≤ e + 1.
Proof. unfold days_until. lia. Qed.

(** [while current_date <= enddate: timetable[current_date] = Decimal(0);
    current_date += timedelta(days=1)]. *)
Lemma seed_timetable_while (e c : Z) (m : gmap Z Decimal) :
  seed_timetable (days_until e c) c m =
  if decide (c ≤ e)
  then seed_timetable (days_until e (c + 1)) (c + 1) (<[c := of_int 0]> m)
  else m.
Proof.
  case_decide.
  - by rewrite days_until_S.
  - by rewrite days_until_0 by lia.
Qed.

(** The loop of [_calculate_timetable_spent]. *)
Lemma add_effort_while o eh (c : Z) ce (m : gmap Z Decimal) :
  add_effort o eh (days_until (enddate o) c) c ce m =
  if decide (c ≤ enddate o) then
    let ce' := match eh !! c with Some x => Some x | None => ce end in
    m' ← (if startdate o <=? c then iadd m c ce' else Ok m);
    add_effort o eh (days_until (enddate o) (c + 1)) (c + 1) ce' m'
  else Ok m.
Proof.
  case_decide.
  - by rewrite days_until_S.
  - by rewrite days_until_0 by lia.
Qed.

(** The loop of [_calculate_timetable]. *)
Lemma add_open_effort_while self o eh sh (c : Z) ce io (m : gmap Z Decimal) :
  add_open_effort self o eh sh (days_until (enddate o) c) c ce io m =
  if decide (c ≤ enddate o) then
    let io' := match sh !! c with
               | Some s => Some (negb (in_closed_states self s))
               | None => io
               end in
    let ce' := match eh !! c with Some x => Some x | None => ce end in
    m' ← (if (startdate o <=? c) && from_option id false io'
          then iadd m c ce' else Ok m);
    add_open_effort self o eh sh (days_until (enddate o) (c + 1)) (c + 1) ce' io' m'
  else Ok m.
Proof.
  case_decide.
  - by rewrite days_until_S.
  - by rewrite days_until_0 by lia.
Qed.

(** ** The timetable before the tickets *)

Lemma seed_timetable_lookup (n : nat) (c : Z) (m : gmap Z Decimal) (d : Z) :
  seed_timetable n c m !! d =
  if decide (c ≤ d < c + Z.of_nat n) then Some (of_int 0) else m !! d.
Proof.
  revert c m. induction n as [|n IH]; intros c m; simpl.
  - case_decide; [lia | done].
  - rewrite IH. repeat case_decide; try lia; try done.
    + assert (d = c) as -> by lia. by rewrite lookup_insert_eq.
    + by rewrite lookup_insert_ne by lia.
Qed.

Lemma seed_timetable_size (n : nat) (c : Z) (m : gmap Z Decimal) :
  (∀ d, c ≤ d → m !! d = None) →
  size (seed_timetable n c m) = (n + size m)%nat.
Proof.
  revert c m. induction n as [|n IH]; intros c m Hm; simpl; [done|].
  rewrite IH.
  - rewrite map_size_insert_None by (apply Hm; lia). lia.
  - intros d Hd. rewrite lookup_insert_ne by lia. apply Hm. lia.
Qed.

Lemma empty_timetable_lookup (o : options) (d : Z) :
  empty_timetable o !! d =
  if decide (startdate o ≤ d ≤ enddate o) then Some (of_int 0) else None.
Proof.
  unfold empty_timetable. rewrite seed_timetable_lookup, lookup_empty.
  unfold days_until. repeat case_decide; try done; lia.
Qed.

Lemma empty_timetable_size (o : options) :
  size (empty_timetable o) = Z.to_nat (enddate o - startdate o + 1).
Proof.
  unfold empty_timetable. rewrite seed_timetable_size.
  - rewrite map_size_empty. unfold days_until. lia.
  - intros. apply lookup_empty.
Qed.

Lemma empty_timetable_covers (o : options) : covers o (empty_timetable o).
Proof.
  intros d. rewrite empty_timetable_lookup. case_decide.
  - split; [done | by eexists].
  - split; [by intros [? ?] | done].
Qed.

Lemma covers_size (o : options) (m : gmap Z Decimal) :
  covers o m → size m = Z.to_nat (enddate o - startdate o + 1).
Proof.
  intros Hm. rewrite <- empty_timetable_size.
  rewrite <- !size_dom. f_equal. apply set_eq. intros d.
  rewrite !elem_of_dom. etrans; [apply Hm|]. symmetry.
  apply empty_timetable_covers.
Qed.

(** ** Exceptions of the addition *)

Lemma add_raise (a b : Decimal) (e : exn) :
  add a b = Raise e → e = InvalidOperation.
Proof.
  unfold add, check_nans.
  destruct a as [s1 c1 e1|s1|s1 [] p1], b as [s2 c2 e2|s2|s2 [] p2]; simpl;
    repeat case_match; congruence.
Qed.

Lemma fix_finite (d : Decimal) : is_finite d → is_finite (_fix d).
Proof.
  destruct d; simpl; try done. intros _. repeat case_match; done.
Qed.

Lemma rescale_finite (d : Decimal) (e : Z) (r : rounding) :
  is_finite d → is_finite (rescale d e r).
Proof.
  destruct d; simpl; try done. intros _. repeat case_match; done.
Qed.

Lemma add_finite (a b : Decimal) :
  is_finite a → is_finite b → ∃ c, add a b = Ok c ∧ is_finite c.
Proof.
  destruct a as [s1 c1 e1| |], b as [s2 c2 e2| |]; try done. intros _ _.
  unfold add, check_nans. simpl.
  repeat case_match; eexists; (split; [reflexivity|]);
    try apply fix_finite; try apply rescale_finite; done.
Qed.

Lemma iadd_Ok (m : gmap Z Decimal) (d : Z) ce m' :
  iadd m d ce = Ok m' →
  ∃ v e v', m !! d = Some v ∧ ce = Some e ∧ add v e = Ok v'
            ∧ m' = <[d := v']> m.
Proof.
  unfold iadd, getitem. destruct (m !! d) as [v|]; simpl; [|done].
  destruct ce as [e|]; [|done]. destruct (add v e) as [v'|] eqn:Hadd; simpl; [|done].
  intros [= <-]. by exists v, e, v'.
Qed.

Lemma iadd_Raise (m : gmap Z Decimal) (d : Z) ce e :
  is_Some (m !! d) → is_Some ce → iadd m d ce = Raise e → e = InvalidOperation.
Proof.
  intros [v Hv] [x ->]. unfold iadd, getitem. rewrite Hv. simpl.
  destruct (add v x) eqn:Hadd; simpl; [done|].
  intros [= <-]. by eapply add_raise.
Qed.

(** ** Forward fill *)

Lemma carried_here {V} (h : gmap Z V) (c : Z) init :
  carried h c init c = match h !! c with Some v => Some v | None => init end.
Proof.
  unfold carried. replace (Z.to_nat (c - c)) with 0%nat by lia. simpl.
  by destruct (h !! c).
Qed.

Lemma recent_step {V} (h : gmap Z V) (init : option V) (k : nat) (d : Z) :
  match recent h (S k) d with Some v => Some v | None => init end =
  match recent h k d with
  | Some v => Some v
  | None =>
      match recent h 0 (d - Z.of_nat k - 1) with
      | Some v => Some v
      | None => init
      end
  end.
Proof.
  revert d. induction k as [|k IH]; intros d.
  - simpl. replace (d - Z.of_nat 0 - 1) with (d - 1) by lia.
    destruct (h !! d); [done|]. by destruct (h !! (d - 1)).
  - change (recent h (S (S k)) d)
      with (match h !! d with Some v => Some v | None => recent h (S k) (d - 1) end).
    change (recent h (S k) d)
      with (match h !! d with Some v => Some v | None => recent h k (d - 1) end).
    destruct (h !! d); [done|]. rewrite IH.
    by replace (d - 1 - Z.of_nat k - 1) with (d - Z.of_nat (S k) - 1) by lia.
Qed.

(** The carried value of a day is the entry of that day, or else the value
    carried the day before. *)
Lemma carried_step {V} (h : gmap Z V) (c : Z) init (d : Z) :
  c < d → carried h c init d = carried h (c + 1) (carried h c init c) d.
Proof.
  intros Hd. unfold carried at 1 2.
  replace (Z.to_nat (d - c)) with (S (Z.to_nat (d - (c + 1)))) by lia.
  rewrite recent_step.
  replace (d - Z.of_nat (Z.to_nat (d - (c + 1))) - 1) with c by lia.
  unfold carried. replace (Z.to_nat (c - c)) with 0%nat by lia. done.
Qed.

Lemma carried_next {V} (h : gmap Z V) (c : Z) init (d : Z) :
  c ≤ d →
  carried h c init (d + 1) =
  match h !! (d + 1) with Some v => Some v | None => carried h c init d end.
Proof.
  intros Hd. unfold carried.
  replace (Z.to_nat (d + 1 - c)) with (S (Z.to_nat (d - c))) by lia.
  simpl. replace (d + 1 - 1) with d by lia. by destruct (h !! (d + 1)).
Qed.

Lemma open_history_lookup self sh (d : Z) :
  open_history self sh !! d = (fun s => negb (in_closed_states self s)) <$> sh !! d.
Proof. unfold open_history. by rewrite lookup_fmap. Qed.

(** ** What a ticket adds to a timetable *)

(** The spent loop: each day of its range that is in the window gets the
    carried value added; every other entry is left as it was. *)
Lemma add_effort_spec o eh (n : nat) (c : Z) ce (m m' : gmap Z Decimal) :
  add_effort o eh n c ce m = Ok m' →
  ∀ d,
    if decide (c ≤ d < c + Z.of_nat n ∧ startdate o ≤ d)
    then ∃ v e v', m !! d = Some v ∧ carried eh c ce d = Some e
                   ∧ add v e = Ok v' ∧ m' !! d = Some v'
    else m' !! d = m !! d.
Proof.
  revert c ce m. induction n as [|n IH]; intros c ce m; simpl.
  - intros [= <-] d. case_decide; [lia | done].
  - rewrite <- (carried_here eh c ce).
    destruct (if startdate o <=? c then _ else _) as [m1|] eqn:H1; simpl; [|done].
    intros Hrest d. specialize (IH _ _ _ Hrest d).
    assert (d ≠ c → m1 !! d = m !! d) as Hm1.
    { intros Hne. destruct (startdate o <=? c); [|congruence].
      apply iadd_Ok in H1 as (v & e & v' & _ & _ & _ & ->).
      by rewrite lookup_insert_ne. }
    destruct (decide (d = c)) as [->|Hne].
    + rewrite decide_False in IH by lia. rewrite IH.
      destruct (Z.leb_spec (startdate o) c).
      * rewrite decide_True by lia.
        apply iadd_Ok in H1 as (v & e & v' & Hv & He & Hadd & ->).
        exists v, e, v'. by rewrite lookup_insert_eq.
      * rewrite decide_False by lia. congruence.
    + rewrite Hm1 in IH by done. repeat case_decide; try lia; try done.
      by rewrite carried_step by lia.
Qed.

(** The remaining loop: the same, on the days the ticket counts as open. *)
Lemma add_open_effort_spec self o eh sh (n : nat) (c : Z) ce io
    (m m' : gmap Z Decimal) :
  add_open_effort self o eh sh n c ce io m = Ok m' →
  ∀ d,
    if decide (c ≤ d < c + Z.of_nat n ∧ startdate o ≤ d
               ∧ carried (open_history self sh) c io d = Some true)
    then ∃ v e v', m !! d = Some v ∧ carried eh c ce d = Some e
                   ∧ add v e = Ok v' ∧ m' !! d = Some v'
    else m' !! d = m !! d.
Proof.
  revert c ce io m. induction n as [|n IH]; intros c ce io m; simpl.
  - intros [= <-] d. case_decide; [lia | done].
  - rewrite <- (carried_here eh c ce).
    assert (match sh !! c with
            | Some s => Some (negb (in_closed_states self s))
            | None => io
            end = carried (open_history self sh) c io c) as ->.
    { rewrite carried_here, open_history_lookup. by destruct (sh !! c). }
    destruct (if _ && _ then _ else _) as [m1|] eqn:H1; simpl; [|done].
    intros Hrest d. specialize (IH _ _ _ _ Hrest d).
    assert (d ≠ c → m1 !! d = m !! d) as Hm1.
    { intros Hne. destruct (_ && _); [|congruence].
      apply iadd_Ok in H1 as (v & e & v' & _ & _ & _ & ->).
      by rewrite lookup_insert_ne. }
    destruct (decide (d = c)) as [->|Hne].
    + rewrite decide_False in IH by (intros [? _]; lia). rewrite IH.
      destruct (carried (open_history self sh) c io c) as [[]|] eqn:Hopen;
        simpl in H1; rewrite ?andb_true_r, ?andb_false_r in H1.
      * destruct (Z.leb_spec (startdate o) c).
        -- rewrite decide_True; [|split_and!; first [done | lia]].
           apply iadd_Ok in H1 as (v & e & v' & Hv & He & Hadd & ->).
           exists v, e, v'. by rewrite lookup_insert_eq.
        -- rewrite decide_False by (intros (_ & ? & _); lia). congruence.
      * rewrite decide_False by (intros (_ & _ & ?); done). congruence.
      * rewrite decide_False by (intros (_ & _ & ?); done). congruence.
    + rewrite Hm1 in IH by done.
      destruct (decide (c < d)) as [Hlt|Hge].
      * rewrite <- !(carried_step _ c) in IH by lia.
        repeat case_decide; try done; exfalso;
          match goal with
          | Hn : ¬ _, Hp : _ ∧ _ |- _ =>
              apply Hn; destruct Hp as (? & ? & ?); split_and!; first [done | lia]
          end.
      * rewrite decide_False in IH by (intros [? _]; lia).
        by rewrite decide_False by (intros [? _]; lia).
Qed.

(** The keys of the timetable are those it had. *)
Lemma add_effort_keys o eh n c ce (m m' : gmap Z Decimal) (d : Z) :
  add_effort o eh n c ce m = Ok m' → is_Some (m' !! d) ↔ is_Some (m !! d).
Proof.
  intros H. pose proof (add_effort_spec _ _ _ _ _ _ _ H d) as Hd.
  case_decide; [|by rewrite Hd].
  destruct Hd as (v & e & v' & -> & _ & _ & ->). split; by eexists.
Qed.

Lemma add_open_effort_keys self o eh sh n c ce io (m m' : gmap Z Decimal) (d : Z) :
  add_open_effort self o eh sh n c ce io m = Ok m' →
  is_Some (m' !! d) ↔ is_Some (m !! d).
Proof.
  intros H. pose proof (add_open_effort_spec _ _ _ _ _ _ _ _ _ _ H d) as Hd.
  case_decide; [|by rewrite Hd].
  destruct Hd as (v & e & v' & -> & _ & _ & ->). split; by eexists.
Qed.

(** The loops read no missing key and add no unset value: the only
    exception they raise is the one of a Decimal addition. *)
Lemma add_effort_raise o eh (n : nat) (c : Z) ce (m : gmap Z Decimal) e :
  (∀ d, startdate o ≤ d ≤ enddate o → is_Some (m !! d)) →
  (n = 0%nat ∨ c + Z.of_nat n ≤ enddate o + 1) →
  (is_Some ce ∨ is_Some (eh !! c)) →
  add_effort o eh n c ce m = Raise e → e = InvalidOperation.
Proof.
  revert c ce m. induction n as [|n IH]; intros c ce m Hm Hn Hce; simpl; [done|].
  assert (is_Some (match eh !! c with Some x => Some x | None => ce end)) as Hce'.
  { destruct (eh !! c); [by eexists|]. destruct Hce as [?|[? ?]]; done. }
  destruct (if startdate o <=? c then _ else _) as [m1|e1] eqn:H1; simpl.
  - apply IH; [|lia|by left].
    intros d Hd. destruct (startdate o <=? c).
    + apply iadd_Ok in H1 as (v & x & v' & Hv & _ & _ & ->).
      destruct (decide (c = d)) as [->|?];
        [rewrite lookup_insert_eq; by eexists | rewrite lookup_insert_ne by done; auto].
    + injection H1 as <-. auto.
  - intros [= <-]. destruct (Z.leb_spec (startdate o) c); [|done].
    eapply iadd_Raise; [|done..]. apply Hm. lia.
Qed.

Lemma add_open_effort_raise self o eh sh (n : nat) (c : Z) ce io
    (m : gmap Z Decimal) e :
  (∀ d, startdate o ≤ d ≤ enddate o → is_Some (m !! d)) →
  (n = 0%nat ∨ c + Z.of_nat n ≤ enddate o + 1) →
  (is_Some ce ∨ is_Some (eh !! c)) →
  add_open_effort self o eh sh n c ce io m = Raise e → e = InvalidOperation.
Proof.
  revert c ce io m. induction n as [|n IH]; intros c ce io m Hm Hn Hce; simpl; [done|].
  assert (is_Some (match eh !! c with Some x => Some x | None => ce end)) as Hce'.
  { destruct (eh !! c); [by eexists|]. destruct Hce as [?|[? ?]]; done. }
  destruct (if _ && _ then _ else _) as [m1|e1] eqn:H1; simpl.
  - apply IH; [|lia|by left].
    intros d Hd. destruct (_ && _).
    + apply iadd_Ok in H1 as (v & x & v' & Hv & _ & _ & ->).
      destruct (decide (c = d)) as [->|?];
        [rewrite lookup_insert_eq; by eexists | rewrite lookup_insert_ne by done; auto].
    + injection H1 as <-. auto.
  - intros [= <-]. destruct (Z.leb_spec (startdate o) c); simpl in H1; [|done].
    destruct (from_option id false _); [|done].
    eapply iadd_Raise; [|done..]. apply Hm. lia.
Qed.

(** ** The per-day maps of a ticket *)

Lemma seed_estimate_creation (c : Z) (l : Decimal) (h : history) :
  is_Some (seed_estimate c l h !! c).
Proof.
  unfold seed_estimate. destruct (estimate_history h !! c) eqn:Hc.
  - rewrite Hc. by eexists.
  - destruct (earliest_estimate h); rewrite lookup_insert_eq; by eexists.
Qed.

Lemma seed_status_creation (c : Z) (l : pyval) (h : history) :
  is_Some (seed_status c l h !! c).
Proof.
  unfold seed_status. destruct (status_history h !! c) eqn:Hc.
  - rewrite Hc. by eexists.
  - destruct (earliest_status h); rewrite lookup_insert_eq; by eexists.
Qed.

Lemma seed_estimate_other (c : Z) (l : Decimal) (h : history) (d : Z) :
  d ≠ c → seed_estimate c l h !! d = estimate_history h !! d.
Proof.
  intros Hne. unfold seed_estimate. destruct (estimate_history h !! c); [done|].
  destruct (earliest_estimate h); by rewrite lookup_insert_ne.
Qed.

Lemma seed_status_other (c : Z) (l : pyval) (h : history) (d : Z) :
  d ≠ c → seed_status c l h !! d = status_history h !! d.
Proof.
  intros Hne. unfold seed_status. destruct (status_history h !! c); [done|].
  destruct (earliest_status h); by rewrite lookup_insert_ne.
Qed.

(** ** A ticket and the timetable *)

Lemma add_ticket_spent_spec self o (t : ticket) (m m' : gmap Z Decimal) :
  add_ticket_spent self o m t = Ok m' →
  ∀ d,
    if decide (Z.max (t_time t) (startdate o) ≤ d ≤ enddate o)
    then ∃ v e v', m !! d = Some v
                   ∧ estimate_on self (spent_field self) t d = Some e
                   ∧ add v e = Ok v' ∧ m' !! d = Some v'
    else m' !! d = m !! d.
Proof.
  intros H d. pose proof (add_effort_spec _ _ _ _ _ _ _ H d) as Hd.
  unfold days_until in Hd. unfold estimate_on.
  repeat case_decide; try done; lia.
Qed.

Lemma add_ticket_spec self o (t : ticket) (m m' : gmap Z Decimal) :
  add_ticket self o m t = Ok m' →
  ∀ d,
    if decide (Z.max (t_time t) (startdate o) ≤ d ≤ enddate o
               ∧ open_on self t d = true)
    then ∃ v e v', m !! d = Some v
                   ∧ estimate_on self (remaining_field self) t d = Some e
                   ∧ add v e = Ok v' ∧ m' !! d = Some v'
    else m' !! d = m !! d.
Proof.
  intros H d. pose proof (add_open_effort_spec _ _ _ _ _ _ _ _ _ _ H d) as Hd.
  unfold days_until in Hd. unfold estimate_on, open_on.
  destruct (carried (open_history _ _) _ _ _) as [[]|]; simpl;
    repeat case_decide; try done; exfalso;
    match goal with
    | Hn : ¬ _, Hp : _ ∧ _ |- _ =>
        apply Hn; destruct_and?; split_and!; first [done | lia]
    end.
Qed.

(** A ticket leaves a timetable of the window a timetable of the window,
    or the addition of a Decimal raises. *)
Lemma add_ticket_result self o (t : ticket) (m : gmap Z Decimal) :
  covers o m →
  match add_ticket self o m t with
  | Ok m' => covers o m'
  | Raise e => e = InvalidOperation
  end.
Proof.
  intros Hm. destruct (add_ticket self o m t) as [m'|e] eqn:H.
  - intros d. unfold add_ticket in H.
    rewrite (add_open_effort_keys _ _ _ _ _ _ _ _ _ _ _ H). apply Hm.
  - eapply add_open_effort_raise; [| |right|exact H].
    + intros d Hd. by apply Hm.
    + apply days_until_bound.
    + apply seed_estimate_creation.
Qed.

Lemma add_ticket_spent_result self o (t : ticket) (m : gmap Z Decimal) :
  covers o m →
  match add_ticket_spent self o m t with
  | Ok m' => covers o m'
  | Raise e => e = InvalidOperation
  end.
Proof.
  intros Hm. destruct (add_ticket_spent self o m t) as [m'|e] eqn:H.
  - intros d. unfold add_ticket_spent in H.
    rewrite (add_effort_keys _ _ _ _ _ _ _ _ H). apply Hm.
  - eapply add_effort_raise; [| |right|exact H].
    + intros d Hd. by apply Hm.
    + apply days_until_bound.
    + apply seed_estimate_creation.
Qed.

Lemma for_each_invariant {S A} (f : S → A → result S) (P : S → Prop)
    (l : list A) (s : S) :
  (∀ s x, P s → match f s x with Ok s' => P s' | Raise e => e = InvalidOperation end) →
  P s →
  match for_each f l s with Ok s' => P s' | Raise e => e = InvalidOperation end.
Proof.
  intros Hf. revert s. induction l as [|x l IH]; intros s Hs; simpl; [done|].
  specialize (Hf s x Hs). destruct (f s x) as [s'|e]; simpl; [by apply IH | done].
Qed.

Lemma calculate_timetable_result self o (tickets : list ticket) :
  match _calculate_timetable self o tickets with
  | Ok m => covers o m
  | Raise e => e = InvalidOperation
  end.
Proof.
  apply (for_each_invariant _ (covers o)).
  - intros. by apply add_ticket_result.
  - apply empty_timetable_covers.
Qed.

Lemma calculate_timetable_spent_result self o (tickets : list ticket) :
  match _calculate_timetable_spent self o tickets with
  | Ok m => covers o m
  | Raise e => e = InvalidOperation
  end.
Proof.
  apply (for_each_invariant _ (covers o)).
  - intros. by apply add_ticket_spent_result.
  - apply empty_timetable_covers.
Qed.

(** ** Finite values: the timetable is computed *)

Lemma iadd_finite (m : gmap Z Decimal) (d : Z) (x : Decimal) :
  is_Some (m !! d) → is_finite x → finite_table m →
  ∃ m', iadd m d (Some x) = Ok m' ∧ finite_table m'
        ∧ ∀ k, is_Some (m !! k) → is_Some (m' !! k).
Proof.
  intros [v Hv] Hx Hm. unfold iadd, getitem. rewrite Hv. simpl.
  destruct (add_finite v x) as (v' & -> & Hv'); [by eapply Hm | done |].
  simpl. eexists. split; [done|]. split.
  - intros k w. destruct (decide (d = k)) as [->|?].
    + rewrite lookup_insert_eq. by intros [= <-].
    + rewrite lookup_insert_ne by done. apply Hm.
  - intros k Hk. destruct (decide (d = k)) as [->|?].
    + rewrite lookup_insert_eq. by eexists.
    + by rewrite lookup_insert_ne.
Qed.

Lemma add_effort_finite o eh (n : nat) (c : Z) ce (m : gmap Z Decimal) :
  (∀ d, startdate o ≤ d ≤ enddate o → is_Some (m !! d)) →
  (n = 0%nat ∨ c + Z.of_nat n ≤ enddate o + 1) →
  (is_Some ce ∨ is_Some (eh !! c)) →
  finite_table m → finite_table eh → (∀ x, ce = Some x → is_finite x) →
  ∃ m', add_effort o eh n c ce m = Ok m' ∧ finite_table m'.
Proof.
  revert c ce m. induction n as [|n IH]; intros c ce m Hm Hn Hce Hfm Hfe Hfc; simpl.
  { by exists m. }
  set (ce' := match eh !! c with Some x => Some x | None => ce end).
  assert (∃ x, ce' = Some x ∧ is_finite x) as (x & Hx & Hfx).
  { unfold ce'. destruct (eh !! c) as [x|] eqn:Hc.
    - exists x. split; [done|]. by eapply Hfe.
    - destruct Hce as [[x ->]|[? ?]]; [|done]. exists x. eauto. }
  rewrite Hx.
  assert (∃ m1, (if startdate o <=? c then iadd m c (Some x) else Ok m) = Ok m1
                ∧ finite_table m1
                ∧ ∀ d, startdate o ≤ d ≤ enddate o → is_Some (m1 !! d))
    as (m1 & -> & Hf1 & Hm1).
  { destruct (Z.leb_spec (startdate o) c).
    - destruct (iadd_finite m c x) as (m1 & ? & ? & ?); [apply Hm; lia|done..|].
      exists m1. eauto.
    - exists m. eauto. }
  simpl. apply IH; try done; [lia | by left | by intros ? [= <-]].
Qed.

Lemma add_open_effort_finite self o eh sh (n : nat) (c : Z) ce io
    (m : gmap Z Decimal) :
  (∀ d, startdate o ≤ d ≤ enddate o → is_Some (m !! d)) →
  (n = 0%nat ∨ c + Z.of_nat n ≤ enddate o + 1) →
  (is_Some ce ∨ is_Some (eh !! c)) →
  finite_table m → finite_table eh → (∀ x, ce = Some x → is_finite x) →
  ∃ m', add_open_effort self o eh sh n c ce io m = Ok m' ∧ finite_table m'.
Proof.
  revert c ce io m.
  induction n as [|n IH]; intros c ce io m Hm Hn Hce Hfm Hfe Hfc; simpl.
  { by exists m. }
  set (ce' := match eh !! c with Some x => Some x | None => ce end).
  assert (∃ x, ce' = Some x ∧ is_finite x) as (x & Hx & Hfx).
  { unfold ce'. destruct (eh !! c) as [x|] eqn:Hc.
    - exists x. split; [done|]. by eapply Hfe.
    - destruct Hce as [[x ->]|[? ?]]; [|done]. exists x. eauto. }
  rewrite Hx.
  assert (∃ m1, (if (startdate o <=? c)
                      && from_option id false
                           match sh !! c with
                           | Some s => Some (negb (in_closed_states self s))
                           | None => io
                           end
                 then iadd m c (Some x) else Ok m) = Ok m1
                ∧ finite_table m1
                ∧ ∀ d, startdate o ≤ d ≤ enddate o → is_Some (m1 !! d))
    as (m1 & -> & Hf1 & Hm1).
  { destruct (Z.leb_spec (startdate o) c); simpl; [|exists m; eauto].
    destruct (from_option id false _); [|exists m; eauto].
    destruct (iadd_finite m c x) as (m1 & ? & ? & ?); [apply Hm; lia|done..|].
    exists m1. eauto. }
  simpl. apply IH; try done; [lia | by left | by intros ? [= <-]].
Qed.

Lemma record_change_finite (field : string) (h : history) (row : ticket_change) :
  finite_value (c_oldvalue row) → finite_value (c_newvalue row) →
  finite_table (estimate_history h) →
  (∀ x, earliest_estimate h = Some x → is_finite x) →
  finite_table (estimate_history (record_change field h row))
  ∧ ∀ x, earliest_estimate (record_change field h row) = Some x → is_finite x.
Proof.
  intros Hold Hnew Hh He. unfold record_change.
  destruct (String.eqb (c_field row) field); simpl.
  - split.
    + destruct (_cast_estimate (c_newvalue row)) as [v|] eqn:Hv; [|done].
      intros d w. destruct (decide (from_utimestamp_date (c_time row) = d)) as [->|?].
      * rewrite lookup_insert_eq. intros [= <-]. by apply Hnew.
      * rewrite lookup_insert_ne by done. apply Hh.
    + destruct (earliest_estimate h) as [e|]; [by intros x [= <-]; apply He|].
      intros x. apply Hold.
  - destruct (String.eqb (c_field row) "status"); simpl; done.
Qed.

Lemma change_history_finite (field : string) (rows : list ticket_change) :
  (∀ row, row ∈ rows → finite_value (c_oldvalue row) ∧ finite_value (c_newvalue row)) →
  finite_table (estimate_history (change_history field rows))
  ∧ ∀ x, earliest_estimate (change_history field rows) = Some x → is_finite x.
Proof.
  unfold change_history.
  assert (finite_table (estimate_history empty_history)
          ∧ ∀ x, earliest_estimate empty_history = Some x → is_finite x) as H0.
  { split; [intros d v; simpl; by rewrite lookup_empty | done]. }
  revert H0. generalize empty_history.
  induction rows as [|row rows IH]; intros h Hh Hrows; simpl; [done|].
  apply IH.
  - destruct Hh. apply record_change_finite; try done; apply Hrows; by left.
  - intros r Hr. apply Hrows. by right.
Qed.

Lemma ticket_estimates_finite self (field : string) (t : ticket) :
  finite_value (t_value t) →
  (∀ row, row ∈ db_query self (t_id t) field →
     finite_value (c_oldvalue row) ∧ finite_value (c_newvalue row)) →
  finite_table (ticket_estimates self field t).
Proof.
  intros Ht Hrows. unfold ticket_estimates, seed_estimate.
  destruct (change_history_finite field _ Hrows) as [Hh He].
  destruct (estimate_history _ !! t_time t); [done|].
  destruct (earliest_estimate _) as [e|] eqn:Hee.
  - intros d v. destruct (decide (t_time t = d)) as [->|?].
    + rewrite lookup_insert_eq. intros [= <-]. by apply He.
    + rewrite lookup_insert_ne by done. apply Hh.
  - intros d v. destruct (decide (t_time t = d)) as [->|?].
    + rewrite lookup_insert_eq. intros [= <-]. unfold latest_estimate.
      destruct (_cast_estimate (t_value t)) eqn:Hc; [by apply Ht | done].
    + rewrite lookup_insert_ne by done. apply Hh.
Qed.

Lemma for_each_finite {A} (f : gmap Z Decimal → A → result (gmap Z Decimal))
    (P : gmap Z Decimal → Prop) (Q : A → Prop) (l : list A) (s : gmap Z Decimal) :
  (∀ s x, P s → Q x → ∃ s', f s x = Ok s' ∧ P s') →
  P s → (∀ x, x ∈ l → Q x) →
  ∃ s', for_each f l s = Ok s' ∧ P s'.
Proof.
  intros Hf. revert s. induction l as [|x l IH]; intros s Hs Hl; simpl.
  { by exists s. }
  destruct (Hf s x Hs) as (s' & -> & Hs'); [apply Hl; by left|].
  simpl. apply IH; [done|]. intros y Hy. apply Hl. by right.
Qed.

(** With finite values the remaining timetable is computed (by the
    additions of [Dec], which have no exponent limits). *)
Lemma calculate_timetable_finite self o (tickets : list ticket) :
  finite_inputs self (remaining_field self) tickets →
  ∃ m, _calculate_timetable self o tickets = Ok m ∧ covers o m ∧ finite_table m.
Proof.
  intros Hin.
  destruct (for_each_finite (add_ticket self o)
              (fun m => covers o m ∧ finite_table m)
              (fun t => finite_value (t_value t)
                        ∧ ∀ row, row ∈ db_query self (t_id t) (remaining_field self) →
                            finite_value (c_oldvalue row) ∧ finite_value (c_newvalue row))
              tickets (empty_timetable o)) as (m & Hm & Hc & Hf).
  - intros s t [Hs Hfs] [Ht Hrows].
    destruct (add_open_effort_finite self o
                (ticket_estimates self (remaining_field self) t)
                (ticket_statuses self (remaining_field self) t)
                (days_until (enddate o) (t_time t)) (t_time t) None None s)
      as (s' & Hs' & Hfs'); try done.
    + intros d Hd. by apply Hs.
    + apply days_until_bound.
    + right. apply seed_estimate_creation.
    + by apply ticket_estimates_finite.
    + exists s'. split; [done|]. split; [|done].
      pose proof (add_ticket_result self o t s Hs) as Hr.
      unfold add_ticket in Hr. by rewrite Hs' in Hr.
  - split; [apply empty_timetable_covers|].
    intros d v. rewrite empty_timetable_lookup. case_decide; [|done].
    by intros [= <-].
  - done.
  - by exists m.
Qed.

(** With finite values the spent timetable is computed (by the additions
    of [Dec], which have no exponent limits). *)
Lemma calculate_timetable_spent_finite self o (tickets : list ticket) :
  finite_inputs self (spent_field self) tickets →
  ∃ m, _calculate_timetable_spent self o tickets = Ok m
       ∧ covers o m ∧ finite_table m.
Proof.
  intros Hin.
  destruct (for_each_finite (add_ticket_spent self o)
              (fun m => covers o m ∧ finite_table m)
              (fun t => finite_value (t_value t)
                        ∧ ∀ row, row ∈ db_query self (t_id t) (spent_field self) →
                            finite_value (c_oldvalue row) ∧ finite_value (c_newvalue row))
              tickets (empty_timetable o)) as (m & Hm & Hc & Hf).
  - intros s t [Hs Hfs] [Ht Hrows].
    destruct (add_effort_finite o
                (ticket_estimates self (spent_field self) t)
                (days_until (enddate o) (t_time t)) (t_time t) None s)
      as (s' & Hs' & Hfs'); try done.
    + intros d Hd. by apply Hs.
    + apply days_until_bound.
    + right. apply seed_estimate_creation.
    + by apply ticket_estimates_finite.
    + exists s'. split; [done|]. split; [|done].
      pose proof (add_ticket_spent_result self o t s Hs) as Hr.
      unfold add_ticket_spent in Hr. by rewrite Hs' in Hr.
  - split; [apply empty_timetable_covers|].
    intros d v. rewrite empty_timetable_lookup. case_decide; [|done].
    by intros [= <-].
  - done.
  - by exists m.
Qed.

(** * The reconstruction engine *)

(** C3. Window coverage: for a window [startdate <= enddate] that ends
    before the last day of the calendar (9999-12-31, ordinal 3652059, where
    the [+ timedelta(days=1)] of the seeding loop has no result), the
    timetable before the tickets are added has exactly
    [(enddate - startdate).days + 1] entries, one for each day of the
    window, each Decimal 0, and it is what either function returns for no
    ticket; the remaining and the spent timetable that are returned for any
    tickets have the same days, no more and no fewer. *)
Theorem window_coverage self o (tickets tickets_spent : list ticket) :
  startdate o ≤ enddate o →
  enddate o < 3652059 →
  (Z.of_nat (size (empty_timetable o)) = enddate o - startdate o + 1
   ∧ ∀ d, empty_timetable o !! d =
          if decide (startdate o ≤ d ≤ enddate o) then Some (of_int 0) else None)
  ∧ _calculate_timetable self o [] = Ok (empty_timetable o)
  ∧ _calculate_timetable_spent self o [] = Ok (empty_timetable o)
  ∧ (∀ timetable, _calculate_timetable self o tickets = Ok timetable →
       Z.of_nat (size timetable) = enddate o - startdate o + 1
       ∧ ∀ d, is_Some (timetable !! d) ↔ startdate o ≤ d ≤ enddate o)
  ∧ (∀ timetable, _calculate_timetable_spent self o tickets_spent = Ok timetable →
       Z.of_nat (size timetable) = enddate o - startdate o + 1
       ∧ ∀ d, is_Some (timetable !! d) ↔ startdate o ≤ d ≤ enddate o).
Proof.
  intros Hw _. split_and!.
  - rewrite empty_timetable_size. lia.
  - apply empty_timetable_lookup.
  - reflexivity.
  - reflexivity.
  - intros m Hm. pose proof (calculate_timetable_result self o tickets) as H.
    rewrite Hm in H.
    split; [|exact H]. rewrite (covers_size o m H). lia.
  - intros m Hm.
    pose proof (calculate_timetable_spent_result self o tickets_spent) as H.
    rewrite Hm in H.
    split; [|exact H]. rewrite (covers_size o m H). lia.
Qed.

(** C9. A ticket created after the end of the window: the loop makes no
    iteration, the timetable is returned as it was, and nothing is raised,
    for the remaining and for the spent timetable.  For any creation date,
    the loop changes no entry outside [startdate, enddate], and on a
    timetable of the window it raises neither KeyError (a missing day) nor
    TypeError (an unset carried value). *)
Theorem ticket_outside_window self o (t : ticket) (m : gmap Z Decimal) :
  (enddate o < t_time t →
     days_until (enddate o) (t_time t) = 0%nat
     ∧ add_ticket self o m t = Ok m
     ∧ add_ticket_spent self o m t = Ok m)
  ∧ (∀ m' d, add_ticket self o m t = Ok m' →
       ¬ (startdate o ≤ d ≤ enddate o) → m' !! d = m !! d)
  ∧ (∀ m' d, add_ticket_spent self o m t = Ok m' →
       ¬ (startdate o ≤ d ≤ enddate o) → m' !! d = m !! d)
  ∧ (covers o m →
       add_ticket self o m t ≠ Raise KeyError
       ∧ add_ticket self o m t ≠ Raise TypeError
       ∧ add_ticket_spent self o m t ≠ Raise KeyError
       ∧ add_ticket_spent self o m t ≠ Raise TypeError).
Proof.
  split_and!.
  - intros Hlate. unfold add_ticket, add_ticket_spent.
    by rewrite days_until_0 by lia.
  - intros m' d H Hd. pose proof (add_ticket_spec _ _ _ _ _ H d) as Hs.
    by rewrite decide_False in Hs by (intros [? _]; lia).
  - intros m' d H Hd. pose proof (add_ticket_spent_spec _ _ _ _ _ H d) as Hs.
    by rewrite decide_False in Hs by lia.
  - intros Hm.
    pose proof (add_ticket_result self o t m Hm) as H1.
    pose proof (add_ticket_spent_result self o t m Hm) as H2.
    destruct (add_ticket self o m t), (add_ticket_spent self o m t);
      subst; split_and!; done.
Qed.

(** The remaining loop reads the statuses only as open or closed. *)
Lemma add_open_effort_ext self self' o eh sh sh' (n : nat) (c : Z) ce io
    (m : gmap Z Decimal) :
  open_history self sh = open_history self' sh' →
  add_open_effort self o eh sh n c ce io m =
  add_open_effort self' o eh sh' n c ce io m.
Proof.
  intros Hoh. revert c ce io m. induction n as [|n IH]; intros c ce io m; simpl; [done|].
  assert (match sh !! c with
          | Some s => Some (negb (in_closed_states self s))
          | None => io
          end =
          match sh' !! c with
          | Some s => Some (negb (in_closed_states self' s))
          | None => io
          end) as ->.
  { pose proof (f_equal (fun h => h !! c) Hoh) as Hc. simpl in Hc.
    rewrite !open_history_lookup in Hc.
    destruct (sh !! c), (sh' !! c); simpl in Hc; congruence. }
  destruct (if _ && _ then _ else _); simpl; [apply IH | done].
Qed.

Lemma window_coverage_witness :
  startdate example_window ≤ enddate example_window
  ∧ enddate example_window < 3652059
  ∧ Z.of_nat (size example_timetable) = 5.
Proof.
  assert (startdate example_window ≤ enddate example_window) as H
    by (simpl; lia).
  assert (enddate example_window < 3652059) as H' by (simpl; lia).
  split; [exact H|]. split; [exact H'|].
  apply (proj1 (proj2 (proj2 (proj2 (window_coverage example_chart example_window
                         [example_ticket] [] H H')))) example_timetable).
  vm_compute. reflexivity.
Defined.

Lemma ticket_outside_window_witness :
  enddate example_window < 733050
  ∧ covers example_window (empty_timetable example_window)
  ∧ add_ticket example_chart example_window (empty_timetable example_window)
      {| t_id := 2; t_time := 733050; t_status := PStr "new"; t_value := PStr "3" |}
    = Ok (empty_timetable example_window)
  ∧ add_ticket example_chart example_window (empty_timetable example_window)
      example_ticket ≠ Raise KeyError.
Proof.
  assert (enddate example_window < 733050) as H by (simpl; lia).
  assert (covers example_window (empty_timetable example_window)) as Hc
    by apply empty_timetable_covers.
  split; [exact H|]. split; [exact Hc|]. split.
  - exact (proj1 (proj2 (proj1 (ticket_outside_window example_chart example_window
      {| t_id := 2; t_time := 733050; t_status := PStr "new"; t_value := PStr "3" |}
      (empty_timetable example_window)) H))).
  - exact (proj1 (proj2 (proj2 (proj2 (ticket_outside_window example_chart
      example_window example_ticket (empty_timetable example_window)))) Hc)).
Defined.

(** ** The change log *)

Lemma record_change_estimates_ext (field : string) (h1 h2 : history)
    (row : ticket_change) :
  estimate_history h1 = estimate_history h2 →
  estimate_history (record_change field h1 row)
  = estimate_history (record_change field h2 row).
Proof.
  intros H. unfold record_change.
  destruct (String.eqb _ field); simpl; [by rewrite H|].
  destruct (String.eqb _ "status"); simpl; done.
Qed.

Lemma fold_record_change_estimates_ext (field : string)
    (rows : list ticket_change) (h1 h2 : history) :
  estimate_history h1 = estimate_history h2 →
  estimate_history (fold_left (record_change field) rows h1)
  = estimate_history (fold_left (record_change field) rows h2).
Proof.
  revert h1 h2. induction rows as [|row rows IH]; intros h1 h2 H; simpl; [done|].
  apply IH. by apply record_change_estimates_ext.
Qed.

(** A row whose new value is no number leaves the per-day estimates as
    they were. *)
Lemma record_change_skip (field : string) (h : history) (row : ticket_change) :
  _cast_estimate (c_newvalue row) = None →
  estimate_history (record_change field h row) = estimate_history h.
Proof.
  intros Hnew. unfold record_change.
  destruct (String.eqb _ field); simpl; [by rewrite Hnew|].
  destruct (String.eqb _ "status"); simpl; done.
Qed.

(** C5. [_cast_estimate] gives Decimal 0 for [None], for the empty text and
    for 0 (for every value that is false), and [None], which is no Decimal,
    for a text that [Decimal] refuses, and for nothing else.  A change row
    whose new value casts to [None] is skipped: the per-day estimates are
    what they were before the row, and what they are without the row. *)
Theorem cast_and_skip :
  _cast_estimate PNone = Some (of_int 0)
  ∧ _cast_estimate (PStr "") = Some (of_int 0)
  ∧ _cast_estimate (PInt 0) = Some (of_int 0)
  ∧ (∀ v, truth v = false → _cast_estimate v = Some (of_int 0))
  ∧ (∀ s, s ≠ ""%string → of_string s = None → _cast_estimate (PStr s) = None)
  ∧ (∀ v, _cast_estimate v = None →
       ∃ s, v = PStr s ∧ s ≠ ""%string ∧ of_string s = None)
  ∧ (∀ field h row,
       _cast_estimate (c_newvalue row) = None →
       estimate_history (record_change field h row) = estimate_history h)
  ∧ (∀ field rows1 row rows2,
       _cast_estimate (c_newvalue row) = None →
       estimate_history (change_history field (rows1 ++ row :: rows2))
       = estimate_history (change_history field (rows1 ++ rows2))).
Proof.
  split_and!; try done.
  - intros v Hv. unfold _cast_estimate. by rewrite Hv.
  - intros s Hs Hp. unfold _cast_estimate. simpl.
    destruct (String.eqb_spec s ""); [done|]. simpl. by rewrite Hp.
  - intros v. unfold _cast_estimate.
    destruct v as [|s|z]; simpl; [done| |by destruct (z =? 0)].
    destruct (String.eqb_spec s ""); simpl; [done|].
    destruct (of_string s) eqn:Hp; [done|]. intros _. by exists s.
  - intros. by apply record_change_skip.
  - intros field rows1 row rows2 Hnew. unfold change_history.
    rewrite !fold_left_app. simpl.
    apply fold_record_change_estimates_ext. by apply record_change_skip.
Qed.

Lemma cast_and_skip_witness :
  of_string "n/a" = None
  ∧ _cast_estimate (PStr "n/a") = None
  ∧ estimate_history
      (change_history "estimatedhours" [example_change; unparseable_change])
    = estimate_history (change_history "estimatedhours" [example_change]).
Proof.
  assert (of_string "n/a" = None) as H by reflexivity.
  assert (_cast_estimate (c_newvalue unparseable_change) = None) as H' by reflexivity.
  split; [exact H|]. split.
  - exact (proj1 (proj2 (proj2 (proj2 (proj2 cast_and_skip)))) "n/a"%string
             ltac:(discriminate) H).
  - exact (proj2 (proj2 (proj2 (proj2 (proj2 (proj2 (proj2 cast_and_skip))))))
             "estimatedhours"%string [example_change] unparseable_change [] H').
Defined.

(** The entry of a day, once written by a row, is kept by the later rows
    that write the same value to it or do not write to it. *)
Lemma fold_record_change_estimate_kept (field : string)
    (rows : list ticket_change) (h : history) (d : Z) (v : Decimal) :
  estimate_history h !! d = Some v →
  (∀ x w, x ∈ rows → c_field x = field → event_date x = d →
          _cast_estimate (c_newvalue x) = Some w → w = v) →
  estimate_history (fold_left (record_change field) rows h) !! d = Some v.
Proof.
  revert h. induction rows as [|x rows IH]; intros h Hh Hrows; simpl; [done|].
  apply IH.
  - unfold record_change. destruct (String.eqb_spec (c_field x) field) as [Hf|Hf]; simpl.
    + destruct (_cast_estimate (c_newvalue x)) as [w|] eqn:Hw; [|done].
      destruct (decide (event_date x = d)) as [Hd|Hd].
      * rewrite (Hrows x w) by (done || by left).
        unfold event_date in Hd. rewrite Hd. by rewrite lookup_insert_eq.
      * unfold event_date in Hd. by rewrite lookup_insert_ne.
    + by destruct (String.eqb _ "status").
  - intros y w Hy. apply Hrows. by right.
Qed.

Lemma fold_record_change_status_kept (field : string)
    (rows : list ticket_change) (h : history) (d : Z) (v : pyval) :
  status_history h !! d = Some v →
  (∀ x, x ∈ rows → c_field x ≠ field → c_field x = "status"%string →
        event_date x = d → c_newvalue x = v) →
  status_history (fold_left (record_change field) rows h) !! d = Some v.
Proof.
  revert h. induction rows as [|x rows IH]; intros h Hh Hrows; simpl; [done|].
  apply IH.
  - unfold record_change. destruct (String.eqb_spec (c_field x) field) as [Hf|Hf]; simpl.
    + done.
    + destruct (String.eqb_spec (c_field x) "status") as [Hs|Hs]; simpl; [|done].
      destruct (decide (event_date x = d)) as [Hd|Hd].
      * rewrite (Hrows x) by (done || by left).
        unfold event_date in Hd. rewrite Hd. by rewrite lookup_insert_eq.
      * unfold event_date in Hd. by rewrite lookup_insert_ne.
  - intros y Hy. apply Hrows. by right.
Qed.

(** C4, as amended.  In a change log in ascending order of time, the
    change of the tracked field that is the last of its day among those
    whose new value parses gives the estimate of that day, and the status
    change that is the last of its day gives the status of that day; the
    loop over the days carries these values on that day.  (A change whose
    new value does not parse is skipped, so it is an earlier change of the
    day that counts when the last one does not parse.) *)
Theorem same_day_last_write_wins self (field : string) (t : ticket)
    (r : ticket_change) :
  Sorted time_le (db_query self (t_id t) field) →
  r ∈ db_query self (t_id t) field →
  t_time t ≤ event_date r →
  (∀ v, c_field r = field →
        _cast_estimate (c_newvalue r) = Some v →
        (∀ r', r' ∈ db_query self (t_id t) field → r' ≠ r →
               c_field r' = field → event_date r' = event_date r →
               is_Some (_cast_estimate (c_newvalue r')) →
               c_time r' < c_time r) →
        ticket_estimates self field t !! event_date r = Some v
        ∧ estimate_on self field t (event_date r) = Some v)
  ∧ (c_field r ≠ field → c_field r = "status"%string →
        (∀ r', r' ∈ db_query self (t_id t) field → r' ≠ r →
               c_field r' ≠ field → c_field r' = "status"%string →
               event_date r' = event_date r →
               c_time r' < c_time r) →
        ticket_statuses self field t !! event_date r = Some (c_newvalue r)).
Proof.
  intros Hsorted Hr Hcreated.
  apply Sorted_StronglySorted in Hsorted; [|apply _].
  destruct (list_elem_of_split _ _ Hr) as (l1 & l2 & Hrows).
  rewrite Hrows in Hsorted.
  assert (∀ x, x ∈ l2 → c_time r ≤ c_time x) as Hlater.
  { intros x Hx.
    apply StronglySorted_app_1_r, StronglySorted_cons in Hsorted as [Hall _].
    rewrite Forall_forall in Hall. by apply Hall. }
  assert (∀ x, x ∈ l2 → x ∈ db_query self (t_id t) field) as Hin.
  { intros x Hx. rewrite Hrows. apply elem_of_app. right. by right. }
  split.
  - intros v Hf Hv Hlast.
    assert (estimate_history (change_history field (db_query self (t_id t) field))
              !! event_date r = Some v) as Hentry.
    { unfold change_history. rewrite Hrows, fold_left_app. simpl.
      apply fold_record_change_estimate_kept.
      - unfold record_change. rewrite Hf, String.eqb_refl, Hv. simpl.
        unfold event_date. by rewrite lookup_insert_eq.
      - intros x w Hx Hxf Hxd Hw.
        destruct (decide (x = r)) as [->|Hne]; [congruence|].
        pose proof (Hlater x Hx).
        assert (c_time x < c_time r); [|lia].
        apply Hlast; auto; by rewrite Hw. }
    assert (ticket_estimates self field t !! event_date r = Some v) as Ht.
    { unfold ticket_estimates, seed_estimate.
      destruct (decide (event_date r = t_time t)) as [Heq|Hne].
      - rewrite <- Heq, Hentry. done.
      - destruct (estimate_history _ !! t_time t); [done|].
        destruct (earliest_estimate _); by rewrite lookup_insert_ne. }
    split; [done|]. unfold estimate_on, carried.
    destruct (Z.to_nat (event_date r - t_time t)); simpl; by rewrite Ht.
  - intros Hnf Hs Hlast.
    assert (status_history (change_history field (db_query self (t_id t) field))
              !! event_date r = Some (c_newvalue r)) as Hentry.
    { unfold change_history. rewrite Hrows, fold_left_app. simpl.
      apply fold_record_change_status_kept.
      - unfold record_change.
        destruct (String.eqb_spec (c_field r) field); [done|].
        rewrite Hs. simpl. unfold event_date. by rewrite lookup_insert_eq.
      - intros x Hx Hxf Hxs Hxd.
        destruct (decide (x = r)) as [->|Hne]; [done|].
        pose proof (Hlater x Hx).
        assert (c_time x < c_time r); [|lia].
        apply Hlast; auto. }
    unfold ticket_statuses, seed_status.
    destruct (decide (event_date r = t_time t)) as [Heq|Hne].
    + rewrite <- Heq, Hentry. done.
    + destruct (status_history _ !! t_time t); [done|].
      destruct (earliest_status _); by rewrite lookup_insert_ne.
Qed.

(** C4, as stated, fails: on 2008-01-03 the tracked field changes at 10:00
    from "10" to "4" and at 15:00 from "4" to "n/a".  The last change of
    the day writes nothing (alone it leaves the day without entry); the
    estimate of the day, and the value carried on it, is the 4 of the
    earlier change. *)
Lemma same_day_last_unparseable :
  Sorted time_le [example_change; unparseable_change]
  ∧ event_date example_change = 733044
  ∧ event_date unparseable_change = 733044
  ∧ c_time example_change < c_time unparseable_change
  ∧ c_field example_change = c_field unparseable_change
  ∧ _cast_estimate (c_newvalue unparseable_change) = None
  ∧ estimate_history (change_history "estimatedhours" [unparseable_change])
      !! 733044 = None
  ∧ estimate_history
      (change_history "estimatedhours" [example_change; unparseable_change])
      !! 733044 = _cast_estimate (c_newvalue example_change)
  ∧ estimate_on two_change_chart "estimatedhours" example_ticket 733044
    = Some (of_int 4).
Proof.
  split_and!; try by vm_compute.
  repeat constructor. unfold time_le. simpl. lia.
Qed.

Lemma same_day_last_write_wins_witness :
  Sorted time_le (db_query two_change_chart (t_id example_ticket) "estimatedhours")
  ∧ example_change ∈ db_query two_change_chart (t_id example_ticket) "estimatedhours"
  ∧ t_time example_ticket ≤ event_date example_change
  ∧ ticket_estimates two_change_chart "estimatedhours" example_ticket
      !! event_date example_change = Some (of_int 4).
Proof.
  assert (Sorted time_le
            (db_query two_change_chart (t_id example_ticket) "estimatedhours")) as H1.
  { repeat constructor. unfold time_le. simpl. lia. }
  assert (example_change
            ∈ db_query two_change_chart (t_id example_ticket) "estimatedhours") as H2.
  { by left. }
  assert (t_time example_ticket ≤ event_date example_change) as H3.
  { by vm_compute. }
  split; [exact H1|]. split; [exact H2|]. split; [exact H3|].
  refine (proj1 (proj1 (same_day_last_write_wins two_change_chart "estimatedhours"
                          example_ticket example_change H1 H2 H3)
                   (of_int 4) eq_refl eq_refl _)).
  intros r' Hr' Hne _ _ Hparse.
  apply list_elem_of_In in Hr'. destruct Hr' as [<-|[<-|[]]]; [done|].
  by destruct Hparse.
Defined.

(** ** Carried values *)

Lemma carried_entry {V} (h : gmap Z V) (c : Z) init (d : Z) (v : V) :
  h !! d = Some v → carried h c init d = Some v.
Proof.
  intros Hd. unfold carried. destruct (Z.to_nat (d - c)); simpl; by rewrite Hd.
Qed.

(** The value set on day [d0] is carried until the next entry. *)
Lemma carried_since {V} (h : gmap Z V) (c : Z) init (d0 d : Z) (v : V) :
  c ≤ d0 ≤ d → h !! d0 = Some v →
  (∀ d', d0 < d' ≤ d → h !! d' = None) →
  carried h c init d = Some v.
Proof.
  intros Hd Hv. replace d with (d0 + Z.of_nat (Z.to_nat (d - d0))) by lia.
  assert (c ≤ d0) as Hc by lia.
  generalize (Z.to_nat (d - d0)) as k. clear d Hd.
  induction k as [|k IH]; intros Hnone.
  - replace (d0 + Z.of_nat 0) with d0 by lia. by apply carried_entry.
  - replace (d0 + Z.of_nat (S k)) with (d0 + Z.of_nat k + 1) by lia.
    rewrite carried_next by lia.
    rewrite Hnone by lia. apply IH. intros d' Hd'. apply Hnone. lia.
Qed.

Lemma change_history_other_fields (field : string) (rows : list ticket_change) :
  (∀ row, row ∈ rows → c_field row ≠ field) →
  estimate_history (change_history field rows) = ∅
  ∧ earliest_estimate (change_history field rows) = None.
Proof.
  unfold change_history.
  assert (estimate_history empty_history = ∅
          ∧ earliest_estimate empty_history = None) as H0 by done.
  revert H0. generalize empty_history.
  induction rows as [|row rows IH]; intros h Hh Hrows; simpl; [done|].
  apply IH.
  - unfold record_change.
    destruct (String.eqb_spec (c_field row) field) as [Hf|Hf].
    + exfalso. by apply (Hrows row); [left|].
    + by destruct (String.eqb _ "status").
  - intros r Hr. apply Hrows. by right.
Qed.

(** A ticket whose tracked field was never changed carries its current
    estimate on every day from its creation on. *)
Lemma estimate_on_unchanged self (field : string) (t : ticket) (d : Z) :
  (∀ row, row ∈ db_query self (t_id t) field → c_field row ≠ field) →
  t_time t ≤ d →
  estimate_on self field t d = Some (latest_estimate t).
Proof.
  intros Hrows Hd. unfold estimate_on.
  destruct (change_history_other_fields field _ Hrows) as [Heh Hee].
  assert (ticket_estimates self field t = {[t_time t := latest_estimate t]}) as ->.
  { unfold ticket_estimates, seed_estimate. rewrite Heh, Hee, lookup_empty.
    by rewrite insert_empty. }
  apply (carried_since _ _ _ (t_time t)); [lia | apply lookup_singleton_eq |].
  intros d' Hd'. apply lookup_singleton_ne. lia.
Qed.

(** C6, as amended.  A ticket created with estimate E whose tracked field
    is never changed adds E to the remaining timetable on every day of the
    window from its creation date on which it is open (its carried status
    is no closed state), and leaves the days on which it is closed as they
    were; it adds E to the spent timetable on every day of the window from
    its creation date on. *)
Theorem forward_fill_unchanged self o (t : ticket) (m : gmap Z Decimal) :
  let E := latest_estimate t in
  ((∀ row, row ∈ db_query self (t_id t) (remaining_field self) →
           c_field row ≠ remaining_field self) →
   ∀ m' d, add_ticket self o m t = Ok m' →
     Z.max (t_time t) (startdate o) ≤ d ≤ enddate o →
     if open_on self t d
     then ∃ v v', m !! d = Some v ∧ add v E = Ok v' ∧ m' !! d = Some v'
     else m' !! d = m !! d)
  ∧ ((∀ row, row ∈ db_query self (t_id t) (spent_field self) →
             c_field row ≠ spent_field self) →
     ∀ m' d, add_ticket_spent self o m t = Ok m' →
       Z.max (t_time t) (startdate o) ≤ d ≤ enddate o →
       ∃ v v', m !! d = Some v ∧ add v E = Ok v' ∧ m' !! d = Some v').
Proof.
  intros E. split; intros Hrows.
  - intros m' d H Hd. pose proof (add_ticket_spec _ _ _ _ _ H d) as Hs.
    destruct (open_on self t d) eqn:Hopen.
    + rewrite decide_True in Hs by done.
      destruct Hs as (v & e & v' & Hv & He & Hadd & Hv').
      rewrite estimate_on_unchanged in He by (done || lia).
      injection He as <-. by exists v, v'.
    + by rewrite decide_False in Hs by (intros [_ ?]; done).
  - intros m' d H Hd. pose proof (add_ticket_spent_spec _ _ _ _ _ H d) as Hs.
    rewrite decide_True in Hs by done.
    destruct Hs as (v & e & v' & Hv & He & Hadd & Hv').
    rewrite estimate_on_unchanged in He by (done || lia).
    injection He as <-. by exists v, v'.
Qed.

(** C6, as stated, fails: ticket 3 is created 2008-01-01 with estimate "8",
    its estimate is never changed, and it is closed on 2008-01-03.  It
    adds 8 to the remaining timetable on 01-01 and 01-02 only; the claim
    has 8 on every day of the window. *)
Lemma unchanged_ticket_closed :
  (∀ row, row ∈ db_query closing_chart (t_id closed_ticket) "estimatedhours" →
          c_field row ≠ "estimatedhours"%string)
  ∧ latest_estimate closed_ticket = of_int 8
  ∧ t_time closed_ticket = startdate example_window
  ∧ _calculate_timetable closing_chart example_window [closed_ticket] =
    Ok (<[733042 := of_int 8]> (<[733043 := of_int 8]> (<[733044 := of_int 0]>
         (<[733045 := of_int 0]> (<[733046 := of_int 0]> ∅))))).
Proof.
  split_and!; try by vm_compute.
  intros row Hrow. apply list_elem_of_In in Hrow. by destruct Hrow as [<-|[]].
Qed.

(** Ticket 3, whose estimate "8" is never changed, on 2008-01-02, a day on
    which it is open: the day goes from 0 to 8. *)
Lemma forward_fill_unchanged_witness :
  (∀ row, row ∈ db_query closing_chart (t_id closed_ticket)
                  (remaining_field closing_chart) →
          c_field row ≠ remaining_field closing_chart)
  ∧ add_ticket closing_chart example_window (empty_timetable example_window)
      closed_ticket
    = Ok (<[733042 := of_int 8]> (<[733043 := of_int 8]> (<[733044 := of_int 0]>
           (<[733045 := of_int 0]> (<[733046 := of_int 0]> ∅)))))
  ∧ Z.max (t_time closed_ticket) (startdate example_window) ≤ 733043
    ≤ enddate example_window
  ∧ ∃ v v', empty_timetable example_window !! 733043 = Some v
            ∧ add v (of_int 8) = Ok v'
            ∧ (<[733042 := of_int 8]> (<[733043 := of_int 8]>
                 (<[733044 := of_int 0]> (<[733045 := of_int 0]>
                    (<[733046 := of_int 0]> ∅)))) : gmap Z Decimal) !! 733043
              = Some v'.
Proof.
  assert (∀ row, row ∈ db_query closing_chart (t_id closed_ticket)
                         (remaining_field closing_chart) →
                 c_field row ≠ remaining_field closing_chart) as H1.
  { intros row Hrow. apply list_elem_of_In in Hrow. by destruct Hrow as [<-|[]]. }
  assert (add_ticket closing_chart example_window (empty_timetable example_window)
            closed_ticket
          = Ok (<[733042 := of_int 8]> (<[733043 := of_int 8]>
                 (<[733044 := of_int 0]> (<[733045 := of_int 0]>
                    (<[733046 := of_int 0]> ∅)))))) as H2
    by (vm_compute; reflexivity).
  assert (Z.max (t_time closed_ticket) (startdate example_window) ≤ 733043
          ≤ enddate example_window) as H3 by (simpl; lia).
  split; [exact H1|]. split; [exact H2|]. split; [exact H3|].
  exact (proj1 (forward_fill_unchanged closing_chart example_window
                  closed_ticket (empty_timetable example_window))
           H1 _ 733043 H2 H3).
Defined.

(** C2, as amended.  On each day of the window from its creation date on,
    a ticket adds its carried estimate to the remaining timetable when its
    carried status is open, and leaves the day as it was when it is closed.
    A ticket that takes a closed status on day D is closed on D and on each
    later day up to its next change of status (a ticket that is reopened
    counts again from that day on).  To the spent timetable the ticket adds
    its carried value on every day from max(creation date, startdate) to
    enddate, whatever its status. *)
Theorem open_closed_policy self o (t : ticket) (m : gmap Z Decimal) :
  (∀ m' d, add_ticket self o m t = Ok m' →
     Z.max (t_time t) (startdate o) ≤ d ≤ enddate o →
     if open_on self t d
     then ∃ v e v', m !! d = Some v
                    ∧ estimate_on self (remaining_field self) t d = Some e
                    ∧ add v e = Ok v' ∧ m' !! d = Some v'
     else m' !! d = m !! d)
  ∧ (∀ D s d, t_time t ≤ D ≤ d →
       ticket_statuses self (remaining_field self) t !! D = Some s →
       in_closed_states self s = true →
       (∀ d', D < d' ≤ d →
          ticket_statuses self (remaining_field self) t !! d' = None) →
       open_on self t d = false)
  ∧ (∀ m' d, add_ticket_spent self o m t = Ok m' →
       Z.max (t_time t) (startdate o) ≤ d ≤ enddate o →
       ∃ v e v', m !! d = Some v
                 ∧ estimate_on self (spent_field self) t d = Some e
                 ∧ add v e = Ok v' ∧ m' !! d = Some v').
Proof.
  split_and!.
  - intros m' d H Hd. pose proof (add_ticket_spec _ _ _ _ _ H d) as Hs.
    destruct (open_on self t d) eqn:Hopen.
    + by rewrite decide_True in Hs by done.
    + by rewrite decide_False in Hs by (intros [_ ?]; done).
  - intros D s d HD Hs Hclosed Hnone. unfold open_on.
    rewrite (carried_since _ _ _ D d false); [done|done| |].
    + rewrite open_history_lookup, Hs. simpl. by rewrite Hclosed.
    + intros d' Hd'. rewrite open_history_lookup, Hnone by done. done.
  - intros m' d H Hd. pose proof (add_ticket_spent_spec _ _ _ _ _ H d) as Hs.
    by rewrite decide_True in Hs by done.
Qed.

(** C2, as stated, fails: ticket 3 takes the closed status on 2008-01-03
    (D) and is reopened on 2008-01-04.  The remaining timetable has 0 on D
    and 8 again on 01-04 and 01-05; the claim has zero from D onward. *)
Lemma closed_then_reopened :
  ticket_statuses reopening_chart "estimatedhours" reopened_ticket !! 733044
    = Some (PStr "closed")
  ∧ in_closed_states reopening_chart (PStr "closed") = true
  ∧ _calculate_timetable reopening_chart example_window [reopened_ticket] =
    Ok (<[733042 := of_int 8]> (<[733043 := of_int 8]> (<[733044 := of_int 0]>
         (<[733045 := of_int 8]> (<[733046 := of_int 8]> ∅))))).
Proof. split_and!; by vm_compute. Qed.

Lemma open_closed_policy_witness :
  t_time closed_ticket ≤ 733044 ≤ 733046
  ∧ ticket_statuses closing_chart (remaining_field closing_chart) closed_ticket
      !! 733044 = Some (PStr "closed")
  ∧ in_closed_states closing_chart (PStr "closed") = true
  ∧ open_on closing_chart closed_ticket 733046 = false.
Proof.
  assert (t_time closed_ticket ≤ 733044 ≤ 733046) as H1 by (simpl; lia).
  assert (ticket_statuses closing_chart (remaining_field closing_chart)
            closed_ticket !! 733044 = Some (PStr "closed")) as H2 by reflexivity.
  assert (in_closed_states closing_chart (PStr "closed") = true) as H3
    by reflexivity.
  split; [exact H1|]. split; [exact H2|]. split; [exact H3|].
  refine (proj1 (proj2 (open_closed_policy closing_chart example_window
                          closed_ticket ∅))
            733044 (PStr "closed") 733046 H1 H2 H3 _).
  intros d' Hd'.
  assert (d' = 733045 ∨ d' = 733046) as [->| ->] by lia; reflexivity.
Defined.

(** ** Seeding and forward fill

    The rows of the tracked field leave the statuses alone. *)
Lemma tracked_rows_status (field : string) (rows : list ticket_change) :
  (∀ row, row ∈ rows → c_field row = field) →
  status_history (change_history field rows) = ∅
  ∧ earliest_status (change_history field rows) = PNone.
Proof.
  unfold change_history.
  assert (status_history empty_history = ∅ ∧ earliest_status empty_history = PNone)
    as H by done.
  revert H. generalize empty_history.
  induction rows as [|row rows IH]; intros h Hh Hrows; [done|].
  simpl. apply IH; [|intros r Hr; apply Hrows; by right].
  unfold record_change. rewrite (Hrows row) by (by left).
  by rewrite String.eqb_refl.
Qed.

(** A ticket whose status never changed is open or closed as it is now. *)
Lemma open_on_current_status self (t : ticket) (d : Z) :
  status_history (change_history (remaining_field self)
                    (db_query self (t_id t) (remaining_field self))) = ∅ →
  earliest_status (change_history (remaining_field self)
                     (db_query self (t_id t) (remaining_field self))) = PNone →
  t_time t ≤ d →
  open_on self t d = negb (in_closed_states self (t_status t)).
Proof.
  intros Hsh Hes Hd. unfold open_on, ticket_statuses, seed_status.
  rewrite Hsh, Hes, lookup_empty.
  rewrite (carried_since _ _ _ (t_time t) d
             (negb (in_closed_states self (t_status t)))); [done|lia| |].
  - by rewrite open_history_lookup, lookup_insert_eq.
  - intros d' Hd'. rewrite open_history_lookup, lookup_insert_ne by lia.
    by rewrite lookup_empty.
Qed.

(** The per-day estimates of a ticket with one change of the tracked field
    after its creation date. *)
Lemma single_change_estimates self (t : ticket) (row : ticket_change)
    (vold vnew : Decimal) (d : Z) :
  db_query self (t_id t) (remaining_field self) = [row] →
  c_field row = remaining_field self →
  t_time t < event_date row →
  _cast_estimate (c_oldvalue row) = Some vold →
  _cast_estimate (c_newvalue row) = Some vnew →
  t_time t ≤ d →
  estimate_on self (remaining_field self) t d
  = Some (if decide (d < event_date row) then vold else vnew).
Proof.
  intros Hq Hf Hlate Hold Hnew Hd.
  unfold estimate_on, ticket_estimates, change_history. rewrite Hq. simpl.
  unfold record_change. rewrite Hf, String.eqb_refl, Hold, Hnew.
  unfold seed_estimate. simpl. fold (event_date row).
  rewrite lookup_insert_ne, lookup_empty by lia.
  destruct (decide (d < event_date row)) as [Hbefore|Hafter].
  - apply (carried_since _ _ _ (t_time t)); [lia|apply lookup_insert_eq|].
    intros d' Hd'. rewrite !lookup_insert_ne by lia. apply lookup_empty.
  - apply (carried_since _ _ _ (event_date row)); [lia| |].
    + rewrite lookup_insert_ne by lia. apply lookup_insert_eq.
    + intros d' Hd'. rewrite !lookup_insert_ne by lia. apply lookup_empty.
Qed.



(** ** WorkloadChart *)

(** C10. In the sums of WorkloadChart a ticket whose status is in the
    closed states changes neither the total nor the sums per owner, and
    neither does a ticket whose remaining value [float] refuses: the sums
    over the tickets are the sums over the open tickets with a number.
    Every other ticket adds its number to the total and to the sum of its
    owner.  This holds for any floating point arithmetic. *)
Theorem closed_tickets_excluded (float : Type) (float_new : pyval → option float)
    (float_zero : float) (float_add : float → float → float)
    (closed : list string) (tickets : list wticket) :
  workload_sums float float_new float_zero float_add closed tickets
  = workload_sums float float_new float_zero float_add closed
      (filter (fun t => counted float float_new closed t = true) tickets)
  ∧ (∀ w t, is_closed closed t = true →
       count_ticket float float_new float_add closed w t = w)
  ∧ (∀ w t, float_new (w_remaining t) = None →
       count_ticket float float_new float_add closed w t = w)
  ∧ (∀ w t x, is_closed closed t = false → float_new (w_remaining t) = Some x →
       count_ticket float float_new float_add closed w t
       = (float_add (fst w) x,
          credit float float_add (snd w) (w_owner t) x)).
Proof.
  assert (∀ w t, is_closed closed t = true →
            count_ticket float float_new float_add closed w t = w) as Hclosed.
  { intros w t H. unfold count_ticket. by rewrite H. }
  assert (∀ w t, float_new (w_remaining t) = None →
            count_ticket float float_new float_add closed w t = w) as Hnone.
  { intros w t H. unfold count_ticket. rewrite H. by destruct (is_closed closed t). }
  split_and!; try done.
  - unfold workload_sums. generalize (float_zero, @nil (pyval * float)).
    induction tickets as [|t tickets IH]; intros w; [done|].
    rewrite filter_cons.
    destruct (decide (counted float float_new closed t = true)) as [Hk|Hk]; simpl.
    + apply IH.
    + assert (count_ticket float float_new float_add closed w t = w) as ->;
        [|apply IH].
      unfold counted in Hk.
      destruct (is_closed closed t) eqn:Hc; [by apply Hclosed|].
      apply Hnone. destruct (float_new (w_remaining t)) as [x|]; [|done].
      exfalso. apply Hk. rewrite andb_true_l.
      apply bool_decide_eq_true_2. by eexists.
  - intros w t x Hc Hx. unfold count_ticket. by rewrite Hc, Hx.
Qed.

(** ** Scaling *)

Lemma mapM_result_Ok {A B} (f : A → result B) (l : list A) (ys : list B) :
  mapM f l = Ok ys →
  length ys = length l
  ∧ ∀ i x, l !! i = Some x → ∃ y, f x = Ok y ∧ ys !! i = Some y.
Proof.
  revert ys. induction l as [|a l IH]; intros ys; simpl.
  - intros [= <-]. split; [done|]. intros i x. by rewrite lookup_nil.
  - destruct (f a) as [y|] eqn:Hy; simpl; [|done].
    destruct (mapM f l) as [k|] eqn:Hk; simpl; [|done].
    intros [= <-]. destruct (IH k eq_refl) as [Hlen Hk'].
    split; [simpl; by rewrite Hlen|].
    intros [|i] x; simpl; [intros [= <-]; by exists y | apply Hk'].
Qed.

Lemma mapM_result_all {A B} (f : A → result B) (l : list A) :
  (∀ x, x ∈ l → ∃ y, f x = Ok y) → ∃ ys, mapM f l = Ok ys.
Proof.
  induction l as [|a l IH]; intros Hl; simpl; [by eexists|].
  destruct (Hl a) as [y ->]; [by left|]. simpl.
  destruct IH as [k ->]; [intros x Hx; apply Hl; by right|].
  simpl. by eexists.
Qed.

Lemma filter_all {A} (P : A → Prop) `{∀ x, Decision (P x)} (l : list A) :
  (∀ x, x ∈ l → P x) → filter P l = l.
Proof.
  induction l as [|x l IH]; intros Hl; [done|].
  rewrite filter_cons_True by (apply Hl; by left).
  f_equal. apply IH. intros y Hy. apply Hl. by right.
Qed.

(** In a sorted list the days after today are the last ones. *)
Lemma sorted_future_suffix (td : Z) (l : list Z) :
  StronglySorted Z.le l →
  let rd := length (filter (fun d => td < d) l) in
  (rd ≤ length l)%nat
  ∧ ∀ i d, l !! i = Some d → (td < d ↔ (length l - rd ≤ i)%nat).
Proof.
  induction l as [|x l IH]; intros Hs; simpl.
  { split; [done|]. intros i d. by rewrite lookup_nil. }
  apply StronglySorted_cons in Hs as [Hall Hs]. rewrite Forall_forall in Hall.
  specialize (IH Hs). simpl in IH. destruct IH as [Hle IH].
  rewrite filter_cons. destruct (decide (td < x)) as [Hx|Hx]; simpl.
  - assert (filter (fun d => td < d) l = l) as Heq.
    { apply filter_all. intros y Hy. specialize (Hall y Hy). lia. }
    rewrite Heq. split; [lia|]. intros i d Hd.
    split; [lia|]. intros _.
    apply list_elem_of_lookup_2 in Hd. apply list_elem_of_In in Hd.
    destruct Hd as [<-|Hd]; [done|]. apply list_elem_of_In in Hd.
    specialize (Hall d Hd). lia.
  - split; [lia|]. intros [|i] d; simpl.
    + intros [= <-]. split; [done|lia].
    + intros Hd. rewrite (IH i d Hd). lia.
Qed.

Lemma mask_future_lookup (ys : list string) (rd i : nat) :
  (rd ≤ length ys)%nat → (i < length ys)%nat →
  mask_future ys rd !! i =
  if decide (length ys - rd ≤ i)%nat then Some "-1"%string else ys !! i.
Proof.
  intros Hrd Hi. unfold mask_future. destruct rd as [|rd].
  - rewrite decide_False by lia. done.
  - case_decide.
    + rewrite lookup_app_r by (rewrite length_take; lia).
      rewrite lookup_replicate_2; [done|]. rewrite length_take. lia.
    + rewrite lookup_app_l by (rewrite length_take; lia).
      apply lookup_take_lt. lia.
Qed.

Lemma mask_future_length (ys : list string) (rd : nat) :
  (rd ≤ length ys)%nat → length (mask_future ys rd) = length ys.
Proof.
  intros Hrd. unfold mask_future. destruct rd as [|rd]; [done|].
  rewrite length_app, length_take, length_replicate. lia.
Qed.

Lemma has_char_app (a : ascii) (s1 s2 : string) :
  has_char a (s1 +:+ s2) = has_char a s1 || has_char a s2.
Proof.
  induction s1 as [|b s1 IH]; simpl; [done|]. rewrite IH. by rewrite orb_assoc.
Qed.

Lemma rescale_exp (s : bool) (c : N) (e q : Z) (r : rounding) :
  ∃ c', rescale (Finite s c e) q r = Finite s c' q.
Proof.
  unfold rescale. destruct (c =? 0)%N; [by eexists|].
  destruct (q <=? e); [by eexists|].
  destruct (ndigits c + e - q <? 0); by eexists.
Qed.

(** A number within the precision is left as it is. *)
Lemma fix_small (s : bool) (c : N) (e : Z) :
  ndigits c ≤ prec → _fix (Finite s c e) = Finite s c e.
Proof.
  intros Hc. unfold _fix. destruct (c =? 0)%N; [done|].
  destruct (e <? _) eqn:Hlt; [apply Z.ltb_lt in Hlt; lia | done].
Qed.

#[local] Arguments _fix : simpl never.
#[local] Arguments rescale : simpl never.

(** [_round] gives a number of exponent -2, or a NaN. *)
Lemma round_result (q r : Decimal) :
  _round q = Ok r →
  (∃ s c, r = Finite s c (-2)) ∨ (∃ s p, r = NaN s false p).
Proof.
  unfold _round, quantize, check_nans.
  destruct q as [s c e|s|s [] p]; simpl; try done.
  - destruct (c =? 0)%N eqn:Hc; simpl.
    { intros [= <-]. left. exists s, 0%N. by apply fix_small. }
    destruct (prec <? _); [done|].
    destruct (rescale_exp s c e (-2) ROUND_HALF_UP) as [c' ->].
    destruct (prec <? ndigits c') eqn:Hp; [done|].
    intros [= <-]. apply Z.ltb_ge in Hp. left. exists s, c'.
    by apply fix_small.
  - intros [= <-]. right. by eexists _, _.
Qed.

(** No percentage is printed as the mark of the future days. *)
Lemma round_str_not_mark (q r : Decimal) : _round q = Ok r → str r ≠ "-1"%string.
Proof.
  intros H. destruct (round_result q r H) as [(s & c & ->)|(s & p & ->)].
  - intros Heq. assert (has_char "." (str (Finite s c (-2))) = true) as Hdot.
    { unfold str. rewrite !has_char_app.
      set (len := Z.of_nat (String.length (str_of_N c))).
      assert ((-2 <=? 0) && (-6 <? -2 + len) = true) as ->.
      { apply andb_true_intro. split; [done|]. apply Z.ltb_lt. lia. }
      destruct (Z.leb_spec (-2 + len) 0); simpl.
      - by rewrite !orb_true_r.
      - destruct (Z.leb_spec len (-2 + len)); [lia|]. simpl.
        by rewrite !orb_true_r. }
    by rewrite Heq in Hdot.
  - intros Heq. assert (has_char "N" (str (NaN s false p)) = true) as HN.
    { unfold str. rewrite !has_char_app. simpl. by rewrite !orb_true_r. }
    by rewrite Heq in HN.
Qed.

Lemma percent_not_mark (v y : Decimal) (p : string) :
  percent v y = Ok p → p ≠ "-1"%string.
Proof.
  unfold percent. destruct (mul v (of_int 100)) as [a|]; simpl; [|done].
  destruct (div a y) as [q|]; simpl; [|done].
  destruct (_round q) as [r|] eqn:Hr; simpl; [|done].
  intros [= <-]. by eapply round_str_not_mark.
Qed.

Lemma sorted_dates_sorted (timetable : gmap Z Decimal) :
  StronglySorted Z.le (sorted_dates timetable).
Proof. unfold sorted_dates. apply (StronglySorted_merge_sort Z.le). Qed.

Lemma sorted_dates_elem (timetable : gmap Z Decimal) (d : Z) :
  d ∈ sorted_dates timetable ↔ is_Some (timetable !! d).
Proof.
  unfold sorted_dates. rewrite merge_sort_Permutation.
  rewrite list_elem_of_fmap. split.
  - intros ([k v] & -> & Hkv). apply elem_of_map_to_list in Hkv. by exists v.
  - intros [v Hv]. exists (d, v). split; [done|]. by apply elem_of_map_to_list.
Qed.

Lemma sorted_dates_length (timetable : gmap Z Decimal) :
  length (sorted_dates timetable) = size timetable.
Proof.
  unfold sorted_dates. rewrite merge_sort_Permutation, length_fmap.
  by rewrite length_map_to_list.
Qed.


(** ** The number of digits *)

Lemma ndigits_aux_spec (fuel : nat) (n : N) :
  (0 < n)%N → Z.of_N n < 2 ^ Z.of_nat fuel →
  10 ^ (ndigits_aux fuel n - 1) ≤ Z.of_N n < 10 ^ ndigits_aux fuel n
  ∧ 1 ≤ ndigits_aux fuel n.
Proof.
  revert n. induction fuel as [|fuel IH]; intros n Hpos Hn.
  - simpl in Hn. lia.
  - simpl. destruct (N.ltb_spec n 10) as [Hlt|Hge].
    + simpl. lia.
    + assert (0 < n / 10)%N as Hq.
      { apply N.div_str_pos. lia. }
      assert (Z.of_N (n / 10) < 2 ^ Z.of_nat fuel) as Hq'.
      { rewrite N2Z.inj_div. change (Z.of_N 10) with 10.
        rewrite Nat2Z.inj_succ, Z.pow_succ_r in Hn by lia.
        apply Z.div_lt_upper_bound; lia. }
      destruct (IH _ Hq Hq') as [[Hlo Hhi] H1].
      rewrite N2Z.inj_div in Hlo, Hhi. change (Z.of_N 10) with 10 in Hlo, Hhi.
      replace (1 + ndigits_aux fuel (n / 10) - 1)
        with (Z.succ (ndigits_aux fuel (n / 10) - 1)) by lia.
      replace (1 + ndigits_aux fuel (n / 10))
        with (Z.succ (ndigits_aux fuel (n / 10))) by lia.
      rewrite !Z.pow_succ_r by lia.
      pose proof (Z.div_mod (Z.of_N n) 10 ltac:(lia)) as Hdm.
      pose proof (Z.mod_pos_bound (Z.of_N n) 10 ltac:(lia)) as Hmod.
      split; [|lia]. split; nia.
Qed.

(** A positive number of [k] digits lies between [10^(k-1)] and [10^k]. *)
Lemma ndigits_spec (n : N) :
  (0 < n)%N →
  10 ^ (ndigits n - 1) ≤ Z.of_N n < 10 ^ ndigits n ∧ 1 ≤ ndigits n.
Proof.
  intros Hpos. apply ndigits_aux_spec; [done|].
  pose proof (N.size_gt n) as Hs.
  apply N2Z.inj_lt in Hs. rewrite N2Z.inj_pow in Hs.
  by rewrite N_nat_Z.
Qed.

Lemma ndigits_unique (n : N) (k : Z) :
  10 ^ (k - 1) ≤ Z.of_N n < 10 ^ k → 1 ≤ k → ndigits n = k.
Proof.
  intros [Hlo Hhi] Hk.
  assert (0 < n)%N as Hpos.
  { assert (0 < 10 ^ (k - 1)) by (apply Z.pow_pos_nonneg; lia). lia. }
  destruct (ndigits_spec n Hpos) as [[Hlo' Hhi'] H1].
  assert (k - 1 < ndigits n).
  { apply (Z.pow_lt_mono_r_iff 10); lia. }
  assert (ndigits n - 1 < k).
  { apply (Z.pow_lt_mono_r_iff 10); lia. }
  lia.
Qed.

Lemma pow10_Z (k : Z) : Z.of_N (pow10 k) = 10 ^ k.
Proof.
  unfold pow10. rewrite Z2N.id; [done|]. apply Z.pow_nonneg. lia.
Qed.

Lemma pow10_pos (k : Z) : 0 ≤ k → (0 < pow10 k)%N.
Proof.
  intros Hk. assert (0 < Z.of_N (pow10 k)); [|lia].
  rewrite pow10_Z. apply Z.pow_pos_nonneg; lia.
Qed.

Lemma ndigits_mul_pow10 (c : N) (j : Z) :
  (0 < c)%N → 0 ≤ j → ndigits (c * pow10 j) = ndigits c + j.
Proof.
  intros Hc Hj. destruct (ndigits_spec c Hc) as [[Hlo Hhi] H1].
  apply ndigits_unique; [|lia].
  rewrite N2Z.inj_mul, pow10_Z.
  replace (ndigits c + j - 1) with (ndigits c - 1 + j) by lia.
  rewrite !Z.pow_add_r by lia.
  assert (0 < 10 ^ j) by (apply Z.pow_pos_nonneg; lia).
  split; nia.
Qed.

Lemma N_div_eucl_eq (a b : N) : N.div_eucl a b = ((a / b)%N, (a mod b)%N).
Proof. unfold N.div, N.modulo. by destruct (N.div_eucl a b). Qed.

(** ** The percentage of a value in itself *)

(** Rounding that drops zeros only. *)
Lemma fix_exact (s : bool) (c : N) (e k : Z) :
  (0 < c)%N → 0 < k → ndigits (c * pow10 k) = prec + k →
  _fix (Finite s (c * pow10 k) e) = Finite s c (e + k).
Proof.
  intros Hc Hk Hnd. pose proof (pow10_pos k ltac:(lia)) as Hp.
  unfold _fix. destruct (N.eqb_spec (c * pow10 k) 0) as [H0|_]; [lia|].
  rewrite Hnd. replace (prec + k + e - prec) with (e + k) by lia.
  destruct (Z.ltb_spec e (e + k)); [|lia].
  replace (e + k - e) with k by lia.
  assert (round_half_even (c * pow10 k) k = false) as ->.
  { unfold round_half_even, round_half_up.
    rewrite N.Div0.mod_mul.
    destruct (N.eqb_spec (2 * 0) (pow10 k)); [lia|].
    rewrite andb_false_l. apply N.leb_gt. lia. }
  rewrite N.div_mul by lia.
  rewrite ndigits_mul_pow10 in Hnd by lia.
  destruct (Z.ltb_spec prec (ndigits c)); [lia|]. done.
Qed.

(** [v * Decimal(100)] for a positive [v] of at most 28 digits: no digit
    is lost. *)
Lemma mul_100 (c : N) (e : Z) :
  (0 < c)%N → ndigits c ≤ prec →
  let k := Z.max 0 (ndigits c + 2 - prec) in
  mul (Finite false c e) (of_int 100) = Ok (Finite false (c * pow10 (2 - k)) (e + k)).
Proof.
  intros Hc Hnd k. destruct (ndigits_spec c Hc) as [_ H1].
  assert (mul (Finite false c e) (of_int 100)
          = Ok (_fix (Finite false (c * 100) e))) as ->.
  { unfold mul, check_nans, of_int. simpl.
    destruct (N.eqb_spec c 0); [lia|]. simpl.
    replace (e + 0) with e by lia.
    destruct (N.eqb_spec c 1) as [->|]; done. }
  f_equal. destruct (decide (ndigits c + 2 ≤ prec)) as [Hsmall|Hbig].
  - replace k with 0 by lia. replace (e + 0) with e by lia.
    change (pow10 (2 - 0)) with 100%N. apply fix_small.
    change 100%N with (pow10 2). rewrite ndigits_mul_pow10 by lia. lia.
  - assert (0 < k ≤ 2) as Hk by (unfold prec in *; lia).
    replace (c * 100)%N with (c * pow10 (2 - k) * pow10 k)%N.
    + apply fix_exact; [|lia|].
      * pose proof (pow10_pos (2 - k) ltac:(lia)). lia.
      * pose proof (pow10_pos (2 - k) ltac:(lia)).
        rewrite !ndigits_mul_pow10 by lia. lia.
    + rewrite <- N.mul_assoc. f_equal. apply N2Z.inj.
      rewrite N2Z.inj_mul, !pow10_Z, <- Z.pow_add_r by lia.
      by replace (2 - k + k) with 2 by lia.
Qed.

(** [str(self._round(v * Decimal(100) / v))] is 100.00. *)
Lemma percent_self (c : N) (e : Z) :
  (0 < c)%N → ndigits c ≤ prec →
  percent (Finite false c e) (Finite false c e) = Ok "100.00"%string.
Proof.
  intros Hc Hnd. unfold percent. rewrite mul_100 by done.
  set (k := Z.max 0 (ndigits c + 2 - prec)).
  assert (k = 0 ∨ k = 1 ∨ k = 2) as Hk.
  { destruct (ndigits_spec c Hc) as [_ H1]. unfold prec in *. lia. }
  simpl. clearbody k.
  pose proof (pow10_pos (2 - k) ltac:(lia)) as Hp.
  assert (div (Finite false (c * pow10 (2 - k)) (e + k)) (Finite false c e)
          = Ok (_fix (let '(co, ex) :=
                        strip_zeros (Z.to_nat (k + 27)) (pow10 29) (-27) in
                      Finite false co ex))) as ->.
  { unfold div, check_nans. simpl.
    destruct (N.eqb_spec c 0); [lia|].
    destruct (N.eqb_spec (c * pow10 (2 - k)) 0); [lia|].
    rewrite ndigits_mul_pow10 by lia.
    replace (ndigits c - (ndigits c + (2 - k)) + prec + 1) with (27 + k)
      by (unfold prec; lia).
    destruct (Z.leb_spec 0 (27 + k)); [|lia].
    rewrite N_div_eucl_eq.
    replace (c * pow10 (2 - k) * pow10 (27 + k))%N with (pow10 29 * c)%N.
    2:{ rewrite <- N.mul_assoc, (N.mul_comm c). f_equal. apply N2Z.inj.
        rewrite N2Z.inj_mul, !pow10_Z, <- Z.pow_add_r by lia.
        by replace (2 - k + (27 + k)) with 29 by lia. }
    rewrite N.div_mul, N.Div0.mod_mul by lia. simpl.
    replace (e + k - e - (27 + k)) with (-27) by lia.
    replace (e + k - e - -27) with (k + 27) by lia.
    by destruct (strip_zeros _ _ _). }
  simpl. destruct Hk as [-> | [-> | ->]]; by vm_compute.
Qed.

(** ** The peak of equal values *)

Lemma cmp_refl (s : bool) (c : N) (e : Z) :
  cmp (Finite s c e) (Finite s c e) = Eq.
Proof. unfold cmp. apply Z.compare_refl. Qed.

Lemma cmp_positive_zero (c : N) (e : Z) :
  (0 < c)%N → cmp (Finite false c e) (of_int 0) = Gt.
Proof.
  intros Hc. unfold cmp, of_int, scaled. simpl.
  apply Z.compare_gt_iff.
  assert (0 < 10 ^ (e - Z.min e 0)) by (apply Z.pow_pos_nonneg; lia).
  nia.
Qed.

#[local] Arguments cmp : simpl never.

Lemma max_from_greatest (m : Decimal) (l : list Decimal) :
  (∀ x, x ∈ l → gt x m = Ok false) → max_from m l = Ok m.
Proof.
  induction l as [|x l IH]; intros Hl; simpl; [done|].
  rewrite (Hl x) by (by left). simpl. apply IH. intros y Hy. apply Hl. by right.
Qed.

Lemma peak_all_equal (timetable : gmap Z Decimal) (o : options) (c : N) (e : Z) :
  (0 < c)%N → timetable ≠ ∅ →
  (∀ d x, timetable !! d = Some x → x = Finite false c e) →
  cmp (of_int (expected o)) (Finite false c e) ≠ Gt →
  peak timetable o = Ok (Finite false c e).
Proof.
  intros Hc Hne Hall Hexp. unfold peak.
  assert (∀ x, x ∈ (map_to_list timetable).*2 → x = Finite false c e) as Hvals.
  { intros x Hx. apply list_elem_of_fmap in Hx as ([d y] & -> & Hy).
    apply elem_of_map_to_list in Hy. by eapply Hall. }
  assert (py_max ((map_to_list timetable).*2 ++ [of_int (expected o)])
          = Ok (Finite false c e)) as ->.
  { destruct ((map_to_list timetable).*2) as [|x l] eqn:Hl.
    - exfalso. apply Hne. apply map_to_list_empty_iff.
      by apply fmap_nil_inv in Hl.
    - simpl. rewrite (Hvals x) by (by left).
      apply max_from_greatest. intros y Hy. apply elem_of_app in Hy as [Hy|Hy].
      + rewrite (Hvals y) by (by right). unfold gt. simpl. by rewrite cmp_refl.
      + apply list_elem_of_singleton in Hy as ->. unfold gt, of_int. simpl.
        unfold of_int in Hexp. by destruct (cmp _ _). }
  simpl. unfold le. simpl. by rewrite cmp_positive_zero.
Qed.

Lemma mapM_result_const {A B} (f : A → result B) (l : list A) (y : B) :
  (∀ x, x ∈ l → f x = Ok y) → mapM f l = Ok (replicate (length l) y).
Proof.
  induction l as [|a l IH]; intros Hl; simpl; [done|].
  rewrite (Hl a) by (by left). simpl.
  rewrite IH by (intros x Hx; apply Hl; by right). done.
Qed.

Lemma filter_none {A} (P : A → Prop) `{∀ x, Decision (P x)} (l : list A) :
  (∀ x, x ∈ l → ¬ P x) → filter P l = [].
Proof.
  induction l as [|x l IH]; intros Hl; [done|].
  rewrite filter_cons_False by (apply Hl; by left).
  apply IH. intros y Hy. apply Hl. by right.
Qed.


Lemma closed_tickets_excluded_witness :
  is_closed ["closed"%string] workload_closed = true
  ∧ whole_number (w_remaining workload_unknown) = None
  ∧ workload_sums Z whole_number 0 Z.add ["closed"%string]
      [workload_closed; workload_open; workload_unknown]
    = (3, [(PStr "bob", 3)]).
Proof.
  split; [reflexivity|]. split; [reflexivity|].
  rewrite (proj1 (closed_tickets_excluded Z whole_number 0 Z.add
                    ["closed"%string]
                    [workload_closed; workload_open; workload_unknown])).
  reflexivity.
Defined.

(** ** The x column is computed *)

Lemma ndigits_zero : ndigits 0 = 1.
Proof. reflexivity. Qed.

Lemma ndigits_ge_1 (n : N) : 1 ≤ ndigits n.
Proof.
  destruct (N.eq_dec n 0%N) as [->|Hn]; [by rewrite ndigits_zero|].
  apply ndigits_spec. lia.
Qed.

Lemma ndigits_upper (n : N) (k : Z) : 0 ≤ k → Z.of_N n ≤ 10 ^ k → ndigits n ≤ k + 1.
Proof.
  intros Hk Hn. destruct (N.eq_dec n 0%N) as [->|Hpos]; [rewrite ndigits_zero; lia|].
  destruct (ndigits_spec n ltac:(lia)) as [[Hlo _] _].
  assert (ndigits n - 1 < k + 1); [|lia].
  apply (Z.pow_lt_mono_r_iff 10); [lia..|].
  rewrite (Z.pow_add_r 10 k 1) by lia. lia.
Qed.

Lemma ndigits_lt_upper (n : N) (k : Z) :
  1 ≤ k → Z.of_N n < 10 ^ k → ndigits n ≤ k.
Proof.
  intros Hk Hn. destruct (N.eq_dec n 0%N) as [->|Hpos]; [rewrite ndigits_zero; lia|].
  destruct (ndigits_spec n ltac:(lia)) as [[Hlo _] _].
  assert (ndigits n - 1 < k); [|lia].
  apply (Z.pow_lt_mono_r_iff 10); lia.
Qed.

Lemma ndigits_lower (n : N) (k : Z) : 10 ^ k ≤ Z.of_N n → 0 ≤ k → k + 1 ≤ ndigits n.
Proof.
  intros Hn Hk.
  assert (0 < 10 ^ k) by (apply Z.pow_pos_nonneg; lia).
  destruct (ndigits_spec n ltac:(lia)) as [[_ Hhi] H1].
  assert (k < ndigits n); [|lia].
  apply (Z.pow_lt_mono_r_iff 10); lia.
Qed.

Lemma ndigits_mono (a b : N) : (a ≤ b)%N → ndigits a ≤ ndigits b.
Proof.
  intros Hab. destruct (N.eq_dec a 0%N) as [->|Ha].
  { rewrite ndigits_zero. apply ndigits_ge_1. }
  destruct (ndigits_spec a ltac:(lia)) as [[Hlo _] H1].
  pose proof (ndigits_lower b (ndigits a - 1) ltac:(lia) ltac:(lia)). lia.
Qed.

(** [_fix] keeps a positive number positive, within the precision, and
    raises its order of magnitude by one at most. *)
Lemma fix_magnitude (s : bool) (c : N) (e : Z) :
  (0 < c)%N →
  ∃ c' e', _fix (Finite s c e) = Finite s c' e'
           ∧ (0 < c')%N ∧ ndigits c' ≤ prec
           ∧ ndigits c' + e' ≤ ndigits c + e + 1.
Proof.
  intros Hc. destruct (decide (ndigits c ≤ prec)) as [Hsmall|Hbig].
  { rewrite fix_small by done. exists c, e. split_and!; try done; lia. }
  unfold _fix. destruct (N.eqb_spec c 0); [lia|].
  destruct (Z.ltb_spec e (ndigits c + e - prec)); [|lia].
  set (k := ndigits c + e - prec - e).
  assert (k = ndigits c - prec) as Hk by (unfold k; lia).
  set (q := (c / pow10 k)%N).
  destruct (ndigits_spec c Hc) as [[Hlo Hhi] _].
  assert (10 ^ (prec - 1) ≤ Z.of_N q < 10 ^ prec) as [Hqlo Hqhi].
  { unfold q. rewrite N2Z.inj_div, pow10_Z.
    assert (0 < 10 ^ k) by (apply Z.pow_pos_nonneg; lia).
    replace (ndigits c - 1) with (prec - 1 + k) in Hlo by lia.
    replace (ndigits c) with (prec + k) in Hhi by lia.
    rewrite Z.pow_add_r in Hlo, Hhi by (unfold prec; lia).
    split.
    - apply Z.div_le_lower_bound; lia.
    - apply Z.div_lt_upper_bound; lia. }
  set (coeff := if round_half_even c k then (q + 1)%N else q).
  assert (10 ^ (prec - 1) ≤ Z.of_N coeff ≤ 10 ^ prec) as [Hclo Hchi].
  { unfold coeff. destruct (round_half_even c k); lia. }
  assert (0 < 10 ^ (prec - 1)) by (apply Z.pow_pos_nonneg; unfold prec; lia).
  destruct (Z.ltb_spec prec (ndigits coeff)) as [Hover|Hfit].
  - assert (Z.of_N coeff = 10 ^ prec) as Heq.
    { destruct (decide (Z.of_N coeff < 10 ^ prec)) as [Hlt|]; [|lia].
      pose proof (ndigits_lt_upper coeff prec ltac:(unfold prec; lia) Hlt). lia. }
    assert (Z.of_N (coeff / 10) = 10 ^ (prec - 1)) as Hdiv.
    { rewrite N2Z.inj_div, Heq. change (Z.of_N 10) with 10.
      replace prec with (Z.succ (prec - 1)) at 1 by lia.
      rewrite Z.pow_succ_r by (unfold prec; lia).
      rewrite Z.mul_comm, Z.div_mul; lia. }
    assert (ndigits (coeff / 10) = prec) as Hnd.
    { apply ndigits_unique; [|unfold prec; lia]. rewrite Hdiv. split; [lia|].
      apply Z.pow_lt_mono_r; unfold prec; lia. }
    eexists _, _. split; [reflexivity|]. split_and!; lia.
  - eexists _, _. split; [reflexivity|]. split_and!; lia.
Qed.

Lemma ndigits_div10 (c : N) : (10 ≤ c)%N → ndigits (c / 10) = ndigits c - 1.
Proof.
  intros Hc. destruct (ndigits_spec c ltac:(lia)) as [[Hlo Hhi] H1].
  assert (2 ≤ ndigits c).
  { pose proof (ndigits_lower c 1 ltac:(simpl; lia) ltac:(lia)). lia. }
  apply ndigits_unique; [|lia].
  rewrite N2Z.inj_div. change (Z.of_N 10) with 10.
  replace (ndigits c - 1) with (Z.succ (ndigits c - 1 - 1)) in Hlo by lia.
  replace (ndigits c) with (Z.succ (ndigits c - 1)) in Hhi by lia.
  rewrite Z.pow_succ_r in Hlo, Hhi by lia.
  split.
  - apply Z.div_le_lower_bound; lia.
  - apply Z.div_lt_upper_bound; lia.
Qed.

Lemma strip_zeros_magnitude (n : nat) (c : N) (e : Z) :
  (0 < c)%N →
  ∃ c' e', strip_zeros n c e = (c', e')
           ∧ (0 < c')%N ∧ ndigits c' + e' = ndigits c + e
           ∧ ndigits c' ≤ ndigits c.
Proof.
  revert c e. induction n as [|n IH]; intros c e Hc; simpl.
  { exists c, e. split_and!; try done. }
  destruct (N.eqb_spec (c mod 10) 0) as [Hmod|_].
  - assert (10 ≤ c)%N as Hge.
    { pose proof (N.Div0.div_mod c 10). destruct (N.le_gt_cases 10 c); [done|].
      rewrite N.mod_small in Hmod by done. lia. }
    assert (0 < c / 10)%N by (apply N.div_str_pos; lia).
    destruct (IH (c / 10)%N (e + 1) ltac:(done)) as (c' & e' & -> & Hpos & HM & Hle).
    rewrite ndigits_div10 in HM, Hle by done.
    exists c', e'. split_and!; try done; lia.
  - exists c, e. split_and!; try done.
Qed.

(** The quotient of two positive numbers is positive, within the
    precision, and of the expected order of magnitude. *)
Lemma div_magnitude (s1 : bool) (c1 : N) (e1 : Z) (s2 : bool) (c2 : N) (e2 : Z) :
  (0 < c1)%N → (0 < c2)%N → ndigits c1 ≤ prec →
  ∃ c e, div (Finite s1 c1 e1) (Finite s2 c2 e2) = Ok (Finite (xorb s1 s2) c e)
         ∧ (0 < c)%N ∧ ndigits c ≤ prec
         ∧ ndigits c + e ≤ (ndigits c1 + e1) - (ndigits c2 + e2) + 3.
Proof.
  intros Hc1 Hc2 Hnd1.
  destruct (ndigits_spec c1 Hc1) as [[Hlo1 Hhi1] H11].
  destruct (ndigits_spec c2 Hc2) as [[Hlo2 Hhi2] H12].
  unfold div, check_nans. simpl.
  destruct (N.eqb_spec c2 0); [lia|]. destruct (N.eqb_spec c1 0); [lia|].
  set (shift := ndigits c2 - ndigits c1 + prec + 1).
  assert (1 ≤ shift) as Hshift by (unfold shift; lia).
  destruct (Z.leb_spec 0 shift); [|lia].
  rewrite N_div_eucl_eq.
  set (q := (c1 * pow10 shift / c2)%N).
  set (r := ((c1 * pow10 shift) mod c2)%N).
  assert (10 ^ 28 ≤ Z.of_N q < 10 ^ 30) as [Hqlo Hqhi].
  { unfold q. rewrite N2Z.inj_div, N2Z.inj_mul, pow10_Z.
    assert (0 < 10 ^ shift) by (apply Z.pow_pos_nonneg; lia).
    assert (10 ^ (ndigits c1 - 1) * 10 ^ shift = 10 ^ 28 * 10 ^ ndigits c2) as Ha.
    { rewrite <- !Z.pow_add_r by lia. f_equal. unfold shift, prec. lia. }
    assert (10 ^ ndigits c1 * 10 ^ shift = 10 ^ 30 * 10 ^ (ndigits c2 - 1)) as Hb.
    { rewrite <- !Z.pow_add_r by lia. f_equal. unfold shift, prec. lia. }
    assert (0 < 10 ^ (ndigits c2 - 1)) by (apply Z.pow_pos_nonneg; lia).
    split.
    - apply Z.div_le_lower_bound; [lia|]. nia.
    - apply Z.div_lt_upper_bound; [lia|]. nia. }
  assert (∃ c e, (let '(coeff, exp) :=
                    if (r =? 0)%N
                    then strip_zeros (Z.to_nat (e1 - e2 - (e1 - e2 - shift))) q
                           (e1 - e2 - shift)
                    else (if (q mod 5 =? 0)%N then (q + 1)%N else q,
                          e1 - e2 - shift) in
                  Ok (_fix (Finite (xorb s1 s2) coeff exp)))
                 = Ok (_fix (Finite (xorb s1 s2) c e))
                 ∧ (0 < c)%N ∧ ndigits c + e ≤ 31 + (e1 - e2 - shift))
    as (c & e & -> & Hc & HM).
  { destruct (r =? 0)%N.
    - destruct (strip_zeros_magnitude (Z.to_nat (e1 - e2 - (e1 - e2 - shift))) q
                  (e1 - e2 - shift)) as (c & e & -> & Hc & HM & _); [lia|].
      exists c, e. split_and!; try done.
      pose proof (ndigits_lt_upper q 30 ltac:(lia) Hqhi). lia.
    - eexists _, _. split; [reflexivity|]. split; [destruct (_ =? _)%N; lia|].
      assert (ndigits (if (q mod 5 =? 0)%N then (q + 1)%N else q) ≤ 31); [|lia].
      apply (ndigits_upper _ 30); [lia|]. destruct (_ =? _)%N; lia. }
  destruct (fix_magnitude (xorb s1 s2) c e Hc) as (c' & e' & -> & Hc' & Hnd' & HM').
  exists c', e'. split_and!; try done. unfold shift, prec in *. lia.
Qed.

(** [_round] accepts the numbers below 10^25. *)
Lemma round_ok (s : bool) (c : N) (e : Z) :
  ndigits c ≤ prec → ndigits c + e ≤ 25 → ∃ r, _round (Finite s c e) = Ok r.
Proof.
  intros Hnd HM. unfold _round, quantize, check_nans. simpl.
  destruct (N.eqb_spec c 0) as [->|Hc]; [by eexists|].
  destruct (Z.ltb_spec prec (ndigits c + e - 1 - -2 + 1)); [unfold prec in *; lia|].
  assert (∃ c', rescale (Finite s c e) (-2) ROUND_HALF_UP = Finite s c' (-2)
                ∧ ndigits c' ≤ prec) as (c' & -> & Hc').
  { unfold rescale. destruct (N.eqb_spec c 0); [done|].
    destruct (Z.leb_spec (-2) e).
    - eexists. split; [reflexivity|].
      rewrite ndigits_mul_pow10 by lia. unfold prec. lia.
    - destruct (Z.ltb_spec (ndigits c + e - -2) 0).
      + eexists. split; [reflexivity|]. by vm_compute.
      + eexists. split; [reflexivity|].
        set (k := ndigits c - (ndigits c + e - -2)).
        assert (0 < k) by (unfold k; lia).
        assert (Z.of_N (c / pow10 k) < 10 ^ (ndigits c + e + 2)) as Hq.
        { rewrite N2Z.inj_div, pow10_Z.
          assert (0 < 10 ^ k) by (apply Z.pow_pos_nonneg; lia).
          apply Z.div_lt_upper_bound; [lia|].
          rewrite <- Z.pow_add_r by lia.
          replace (k + (ndigits c + e + 2)) with (ndigits c) by (unfold k; lia).
          apply ndigits_spec. lia. }
        assert (ndigits (if round_incr ROUND_HALF_UP c k
                         then (c / pow10 k + 1)%N else (c / pow10 k)%N)
                ≤ ndigits c + e + 2 + 1); [|unfold prec; lia].
        apply ndigits_upper; [lia|]. destruct (round_incr _ _ _); lia. }
  destruct (Z.ltb_spec prec (ndigits c')); [lia|]. by eexists.
Qed.

Lemma div_round_ok (s1 : bool) (c1 : N) (e1 : Z) (s2 : bool) (c2 : N) (e2 : Z) :
  (0 < c2)%N → ndigits c1 ≤ prec →
  (c1 = 0%N ∨ ndigits c1 + e1 ≤ ndigits c2 + e2 + 22) →
  ∃ q r, div (Finite s1 c1 e1) (Finite s2 c2 e2) = Ok q ∧ _round q = Ok r.
Proof.
  intros Hc2 Hnd HM. destruct (N.eq_dec c1 0%N) as [->|Hc1].
  - unfold div, check_nans. simpl. destruct (N.eqb_spec c2 0); [lia|].
    eexists _, _. split; [reflexivity|]. rewrite fix_small by (by vm_compute).
    reflexivity.
  - destruct HM as [?|HM]; [done|].
    destruct (div_magnitude s1 c1 e1 s2 c2 e2) as (c & e & -> & Hc & Hndc & HMc);
      [lia..|].
    destruct (round_ok (xorb s1 s2) c e) as [r Hr]; [done|lia|].
    by eexists _, _.
Qed.

(** The x column is computed for every number of days but one. *)
Lemma abscissas_ok (len : nat) : len ≠ 1%nat → ∃ xs, abscissas len = Ok xs.
Proof.
  intros Hlen. unfold abscissas. apply mapM_result_all. intros x Hx.
  apply elem_of_seq in Hx as [_ Hx]. simpl in Hx.
  assert (of_int (Z.of_nat len - 1) = Finite false (N.of_nat (len - 1)) 0) as ->.
  { unfold of_int. f_equal; [apply Z.ltb_ge; lia | lia]. }
  assert (of_int (Z.of_nat x) = Finite false (N.of_nat x) 0) as ->.
  { unfold of_int. f_equal; [apply Z.ltb_ge; lia | lia]. }
  assert (∃ c e, mul (of_int 100) (Finite false (N.of_nat x) 0)
                 = Ok (Finite false c e) ∧ ndigits c ≤ prec
                 ∧ (c = 0%N ∨ ndigits c + e ≤ ndigits (N.of_nat x) + 3))
    as (c & e & -> & Hnd & HM).
  { destruct (N.eq_dec (N.of_nat x) 0%N) as [->|Hx0].
    - exists 0%N, 0. split_and!; [done|by vm_compute|by left].
    - assert (mul (of_int 100) (Finite false (N.of_nat x) 0)
              = Ok (_fix (Finite false (N.of_nat x * pow10 2) 0))) as ->.
      { unfold mul, check_nans, of_int. simpl.
        destruct (N.eqb_spec (N.of_nat x) 0); [done|].
        destruct (N.eqb_spec (N.of_nat x) 1) as [->|]; [done|].
        by rewrite N.mul_comm. }
      destruct (fix_magnitude false (N.of_nat x * pow10 2) 0)
        as (c & e & -> & Hc & Hnd & HM); [pose proof (pow10_pos 2); lia|].
      rewrite ndigits_mul_pow10 in HM by lia.
      exists c, e. split_and!; try done. right. lia. }
  simpl.
  destruct (div_round_ok false c e false (N.of_nat (len - 1)) 0)
    as (q & r & -> & Hr); [lia|done| |].
  - destruct HM as [?|HM]; [by left|right].
    pose proof (ndigits_mono (N.of_nat x) (N.of_nat (len - 1)) ltac:(lia)). lia.
  - simpl. rewrite Hr. simpl. by eexists.
Qed.

(** ** The y column is computed *)

Lemma percent_ok (v m : Decimal) :
  within_reach v m → (∃ s c e, m = Finite s c e ∧ (0 < c)%N) →
  ∃ p, percent v m = Ok p.
Proof.
  intros Hreach (s' & c' & e' & -> & Hc').
  destruct v as [s c e| |]; [|done..]. simpl in Hreach. unfold percent.
  assert (∃ c1 e1, mul (Finite s c e) (of_int 100) = Ok (Finite (xorb s false) c1 e1)
                   ∧ ndigits c1 ≤ prec
                   ∧ (c1 = 0%N
                      ∨ c ≠ 0%N ∧ ndigits c1 + e1 ≤ ndigits c + e + 3))
    as (c1 & e1 & -> & Hnd & HM).
  { destruct (N.eq_dec c 0%N) as [->|Hc].
    - exists 0%N, (e + 0). split_and!; [|by vm_compute|by left].
      unfold mul, check_nans, of_int. simpl. by rewrite fix_small by (by vm_compute).
    - assert (mul (Finite s c e) (of_int 100)
              = Ok (_fix (Finite (xorb s false) (c * pow10 2) (e + 0)))) as ->.
      { unfold mul, check_nans, of_int. simpl.
        destruct (N.eqb_spec c 0); [done|]. simpl.
        destruct (N.eqb_spec c 1) as [->|]; done. }
      destruct (fix_magnitude (xorb s false) (c * pow10 2) (e + 0))
        as (c1 & e1 & -> & Hc1 & Hnd & HM); [pose proof (pow10_pos 2); lia|].
      rewrite ndigits_mul_pow10 in HM by lia.
      exists c1, e1. split_and!; try done. right. split; [done|lia]. }
  simpl.
  destruct (div_round_ok (xorb s false) c1 e1 s' c' e') as (q & r & -> & Hr);
    [done..| |].
  - destruct HM as [?|[Hc HM]]; [by left|right].
    destruct Hreach as [?|?]; [done|lia].
  - simpl. rewrite Hr. simpl. by eexists.
Qed.

(** A finite peak is positive. *)
Lemma peak_positive (timetable : gmap Z Decimal) (o : options) (m : Decimal) :
  peak timetable o = Ok m → is_finite m →
  ∃ c e, m = Finite false c e ∧ (0 < c)%N.
Proof.
  unfold peak. destruct (py_max _) as [mx|]; simpl; [|done].
  unfold le, compare_check_nans.
  destruct (is_nan mx || is_nan (of_int 0)); simpl; [done|].
  destruct (cmp mx (of_int 0)) eqn:Hcmp; intros [= <-]; intros Hf;
    try (exists 100%N, 0; by split).
  destruct mx as [s c e| |]; [|done..]. clear Hf.
  unfold cmp, of_int, scaled in Hcmp. simpl in Hcmp.
  apply Z.compare_gt_iff in Hcmp.
  assert (0 < 10 ^ (e - Z.min e 0)) by (apply Z.pow_pos_nonneg; lia).
  destruct s; [nia|]. exists c, e. split; [done|]. nia.
Qed.

(** [_scale_data] returns for every timetable but one of a single day,
    when its peak is finite and no value is out of its reach (by the
    operations of [Dec], which have no exponent limits). *)
Lemma scale_data_returns (timetable : gmap Z Decimal) (o : options) (m : Decimal) :
  size timetable ≠ 1%nat →
  peak timetable o = Ok m → is_finite m →
  (∀ d v, timetable !! d = Some v → within_reach v m) →
  ∃ xs ys, percentages timetable m = Ok ys
           ∧ abscissas (length (sorted_dates timetable)) = Ok xs
           ∧ _scale_data timetable o
             = Ok (xs,
                   mask_future ys
                     (length (filter (fun d => today o < d) (sorted_dates timetable))),
                   m).
Proof.
  intros Hsize Hpeak Hfin Hreach.
  destruct (peak_positive timetable o m Hpeak Hfin) as (c & e & Hm & Hc).
  destruct (mapM_result_all
              (fun d => v ← getitem timetable d; percent v m)
              (sorted_dates timetable)) as [ys Hys].
  { intros d Hd. apply sorted_dates_elem in Hd as [v Hv].
    unfold getitem. rewrite Hv. simpl.
    apply percent_ok; [by eapply Hreach | by exists false, c, e]. }
  destruct (abscissas_ok (length (sorted_dates timetable))) as [xs Hxs].
  { by rewrite sorted_dates_length. }
  exists xs, ys. split; [done|]. split; [done|].
  unfold _scale_data. rewrite Hpeak. simpl.
  unfold percentages. rewrite Hys. simpl. by rewrite Hxs.
Qed.

(** When the peak, the percentages and the x column are computed,
    [_scale_data] returns them, with the y of the days after today masked
    and the other y left as they are. *)
Lemma scale_data_masks (timetable : gmap Z Decimal) (o : options)
    (maxhours : Decimal) (ys0 xs : list string) :
  peak timetable o = Ok maxhours →
  percentages timetable maxhours = Ok ys0 →
  abscissas (length (sorted_dates timetable)) = Ok xs →
  let dates := sorted_dates timetable in
  ∃ ys, _scale_data timetable o = Ok (xs, ys, maxhours)
    ∧ length ys = length dates
    ∧ (∀ i d, dates !! i = Some d →
         ∃ v p, timetable !! d = Some v ∧ percent v maxhours = Ok p
                ∧ ys0 !! i = Some p
                ∧ if decide (today o < d)
                  then ys !! i = Some "-1"%string
                  else ys !! i = Some p ∧ p ≠ "-1"%string)
    ∧ (∀ k : nat,
         (∀ i d, dates !! i = Some d → (today o < d ↔ (length dates - k ≤ i)%nat)) →
         (k ≤ length dates)%nat →
         ys = take (length dates - k) ys0 ++ replicate k "-1"%string).
Proof.
  intros Hpeak Hys0 Hxs dates.
  unfold _scale_data. rewrite Hpeak. simpl. rewrite Hys0. simpl.
  rewrite Hxs. simpl. fold dates.
  destruct (mapM_result_Ok _ _ _ Hys0) as [Hlen Hitems]. fold dates in Hlen, Hitems.
  destruct (sorted_future_suffix (today o) dates (sorted_dates_sorted timetable))
    as [Hrd Hsuffix].
  set (rd := length (filter (fun d => today o < d) dates)) in *.
  eexists. split; [reflexivity|]. split_and!.
  - rewrite mask_future_length by lia. done.
  - intros i d Hd. destruct (Hitems i d Hd) as (p & Hp & Hi).
    unfold getitem in Hp. destruct (timetable !! d) as [v|] eqn:Hv; [|done].
    simpl in Hp. exists v, p. split_and!; try done.
    assert (i < length ys0)%nat by (rewrite Hlen; by eapply lookup_lt_Some).
    rewrite mask_future_lookup by lia. rewrite Hlen.
    pose proof (Hsuffix i d Hd) as Hiff.
    repeat case_decide; try done; try (exfalso; tauto).
    split; [done|]. by eapply percent_not_mark.
  - intros k Hk Hkl.
    assert (rd = k) as ->.
    { destruct (decide (rd = k)) as [|Hne]; [done|]. exfalso.
      destruct (decide (rd < k)%nat).
      - assert (is_Some (dates !! (length dates - k)%nat)) as [d Hd]
          by (apply lookup_lt_is_Some; lia).
        pose proof (Hk _ _ Hd) as H1. pose proof (Hsuffix _ _ Hd) as H2.
        assert (today o < d) by (apply H1; lia). apply H2 in H. lia.
      - assert (is_Some (dates !! (length dates - rd)%nat)) as [d Hd]
          by (apply lookup_lt_is_Some; lia).
        pose proof (Hk _ _ Hd) as H1. pose proof (Hsuffix _ _ Hd) as H2.
        assert (today o < d) by (apply H2; lia). apply H1 in H. lia. }
    unfold mask_future. rewrite Hlen. destruct k; [|done].
    rewrite Nat.sub_0_r, <- Hlen, firstn_all. simpl. by rewrite app_nil_r.
Qed.

(** C8. [_scale_data] masks the days after [today], and no other day: when
    it computes its peak, its percentages and its x column, it returns them
    with the text -1 as the y of every day after today and, as the y of
    every other day, its percentage of the peak, which is never the text
    -1.  When the days after today are the last [k] days, the y column is
    the first [len - k] percentages followed by [k] times -1 (with 3 days
    after today, exactly the last 3 are -1). *)
Theorem future_masking (timetable : gmap Z Decimal) (o : options)
    (maxhours : Decimal) :
  let dates := sorted_dates timetable in
  ∀ ys0 xs,
    peak timetable o = Ok maxhours →
    percentages timetable maxhours = Ok ys0 →
    abscissas (length dates) = Ok xs →
    ∃ ys, _scale_data timetable o = Ok (xs, ys, maxhours)
      ∧ length ys = length dates
      ∧ (∀ i d, dates !! i = Some d →
           ∃ v p, timetable !! d = Some v ∧ percent v maxhours = Ok p
                  ∧ ys0 !! i = Some p
                  ∧ if decide (today o < d)
                    then ys !! i = Some "-1"%string
                    else ys !! i = Some p ∧ p ≠ "-1"%string)
      ∧ (∀ k : nat,
           (∀ i d, dates !! i = Some d →
                   (today o < d ↔ (length dates - k ≤ i)%nat)) →
           (k ≤ length dates)%nat →
           ys = take (length dates - k) ys0 ++ replicate k "-1"%string).
Proof.
  intros dates ys0 xs. apply scale_data_masks.
Qed.

(** C7, as amended.  For a timetable of at least two days in which every
    day has the same positive value [c * 10^e] (of at most 28 digits, as
    every sum of the context has, and with an exponent of at most six
    digits, far from the limits of the context), with [expected] not above
    that value and no day after today: the x column is computed, the
    percentages of the peak [c * 10^e] are computed and are all 100.00,
    and what [_scale_data] returns is that x column, 100.00 as every y
    and that value as the peak. *)
Theorem scaling_all_equal (timetable : gmap Z Decimal) (o : options)
    (c : N) (e : Z) :
  (0 < c)%N → ndigits c ≤ prec →
  -999999 ≤ e ≤ 999999 →
  (2 ≤ size timetable)%nat →
  (∀ d x, timetable !! d = Some x → x = Finite false c e) →
  cmp (of_int (expected o)) (Finite false c e) ≠ Gt →
  (∀ d, is_Some (timetable !! d) → d ≤ today o) →
  ∃ xs, abscissas (size timetable) = Ok xs
        ∧ percentages timetable (Finite false c e)
          = Ok (replicate (size timetable) "100.00"%string)
        ∧ ∀ xdata ydata maxhours,
            _scale_data timetable o = Ok (xdata, ydata, maxhours) →
            xdata = xs
            ∧ ydata = replicate (size timetable) "100.00"%string
            ∧ maxhours = Finite false c e.
Proof.
  intros Hc Hnd _ Hsize Hall Hexp Htoday.
  destruct (abscissas_ok (size timetable)) as [xs Hxs]; [lia|].
  assert (percentages timetable (Finite false c e)
          = Ok (replicate (size timetable) "100.00"%string)) as Hys.
  { unfold percentages. rewrite <- sorted_dates_length.
    apply mapM_result_const. intros d Hd.
    apply sorted_dates_elem in Hd as [x Hx]. unfold getitem. rewrite Hx. simpl.
    rewrite (Hall d x Hx). by apply percent_self. }
  exists xs. split; [done|]. split; [done|].
  intros xdata ydata maxhours. unfold _scale_data.
  rewrite (peak_all_equal timetable o c e); [|done| |done..].
  2:{ intros ->. rewrite map_size_empty in Hsize. lia. }
  simpl. rewrite Hys. simpl. rewrite sorted_dates_length, Hxs. simpl.
  rewrite filter_none; [by intros [= <- <- <-]|].
  intros d Hd. apply sorted_dates_elem in Hd. specialize (Htoday d Hd). lia.
Qed.

(** C7, as stated, fails: with no ticket every day of the window has the
    same value, 0; the peak that is returned is 100, and every y is 0.00. *)
Lemma scaling_all_zero :
  _calculate_timetable example_chart example_window []
    = Ok (empty_timetable example_window)
  ∧ (∀ d x, empty_timetable example_window !! d = Some x → x = of_int 0)
  ∧ _scale_data (empty_timetable example_window) example_window
    = Ok (["0.00"; "25.00"; "50.00"; "75.00"; "100.00"]%string,
          ["0.00"; "0.00"; "0.00"; "0.00"; "0.00"]%string,
          of_int 100).
Proof.
  split_and!; [done| |by vm_compute].
  intros d x. rewrite empty_timetable_lookup. case_decide; [|done].
  by intros [= <-].
Qed.

(** The example of the specification: one ticket with estimate "8" and no
    history gives the peak 8, the y column 100.00 and the x column
    0, 25, 50, 75, 100. *)
Lemma scaling_all_equal_witness :
  (0 < 8)%N ∧ ndigits 8 ≤ prec ∧ -999999 ≤ 0 ≤ 999999
  ∧ (2 ≤ size flat_timetable)%nat
  ∧ _scale_data flat_timetable example_window
    = Ok (["0.00"; "25.00"; "50.00"; "75.00"; "100.00"]%string,
          replicate 5 "100.00"%string, of_int 8)
  ∧ ∃ xs, abscissas (size flat_timetable) = Ok xs
          ∧ percentages flat_timetable (Finite false 8 0)
            = Ok (replicate (size flat_timetable) "100.00"%string)
          ∧ ["0.00"; "25.00"; "50.00"; "75.00"; "100.00"]%string = xs.
Proof.
  assert (0 < 8)%N as H1 by done.
  assert (ndigits 8 ≤ prec) as H2 by (by vm_compute).
  assert (-999999 ≤ 0 ≤ 999999) as He by lia.
  assert (size flat_timetable = 5%nat) as Hs by (by vm_compute).
  assert (2 ≤ size flat_timetable)%nat as H3 by (rewrite Hs; lia).
  assert (_scale_data flat_timetable example_window
          = Ok (["0.00"; "25.00"; "50.00"; "75.00"; "100.00"]%string,
                replicate 5 "100.00"%string, of_int 8)) as Hscale
    by (by vm_compute).
  split; [exact H1|]. split; [exact H2|]. split; [exact He|].
  split; [exact H3|]. split; [exact Hscale|].
  destruct (scaling_all_equal flat_timetable example_window 8 0 H1 H2 He H3)
    as (xs & Hxs & Hys & Hret).
  - apply (bool_decide_unpack
             (map_Forall (fun _ x => x = Finite false 8 0) flat_timetable)).
    by vm_compute.
  - by vm_compute.
  - intros d [x Hx]. revert d x Hx.
    apply (bool_decide_unpack
             (map_Forall (fun d _ => d ≤ 733046) flat_timetable)).
    by vm_compute.
  - exists xs. split; [exact Hxs|]. split; [exact Hys|].
    exact (proj1 (Hret _ _ _ Hscale)).
Defined.

(** Seen three days before the end of the window, exactly the last three
    y of the example are -1. *)
Lemma future_masking_witness :
  peak example_timetable early_window = Ok (of_int 10)
  ∧ percentages example_timetable (of_int 10)
    = Ok ["100.00"; "100.00"; "40.00"; "40.00"; "40.00"]%string
  ∧ _scale_data example_timetable early_window
    = Ok (["0.00"; "25.00"; "50.00"; "75.00"; "100.00"]%string,
          ["100.00"; "100.00"; "-1"; "-1"; "-1"]%string, of_int 10).
Proof.
  assert (peak example_timetable early_window = Ok (of_int 10)) as H1
    by (by vm_compute).
  assert (percentages example_timetable (of_int 10)
          = Ok ["100.00"; "100.00"; "40.00"; "40.00"; "40.00"]%string) as H2
    by (by vm_compute).
  assert (abscissas (length (sorted_dates example_timetable))
          = Ok ["0.00"; "25.00"; "50.00"; "75.00"; "100.00"]%string) as H3
    by (by vm_compute).
  split; [exact H1|]. split; [exact H2|].
  destruct (future_masking example_timetable early_window (of_int 10)
              _ _ H1 H2 H3)
    as (ys & Hscale & _ & _ & Hlast).
  rewrite Hscale. do 3 f_equal.
  assert (sorted_dates example_timetable
          = [733042; 733043; 733044; 733045; 733046]) as Hdates
    by (by vm_compute).
  rewrite Hdates in Hlast.
  apply (Hlast 3%nat); [|simpl; lia].
  intros i d.
  destruct i as [|[|[|[|[|i]]]]]; simpl; [intros [= <-]; simpl; lia..|done].
Defined.

(** * Further properties *)

(** ** The exceptions of the scaling *)

Lemma check_nans_raise (a b : Decimal) (e : exn) :
  check_nans a b = Raise e → e = InvalidOperation.
Proof.
  destruct a as [| |? [] ?], b as [| |? [] ?]; simpl; congruence.
Qed.

Lemma mul_raise (a b : Decimal) (e : exn) :
  mul a b = Raise e → e = InvalidOperation.
Proof.
  unfold mul. destruct (check_nans a b) as [[ans|]|e'] eqn:Hn; simpl.
  - done.
  - destruct a, b; simpl; repeat case_match; congruence.
  - intros [= <-]. by eapply check_nans_raise.
Qed.

Lemma div_raise (a b : Decimal) (e : exn) :
  div a b = Raise e →
  e = InvalidOperation ∨ (e = DivisionByZero ∧ ∃ s x, b = Finite s 0 x).
Proof.
  unfold div. destruct (check_nans a b) as [[ans|]|e'] eqn:Hn; simpl.
  - done.
  - destruct a as [s1 c1 e1| |], b as [s2 c2 e2| |]; simpl;
      try congruence; try (intros [= <-]; by left).
    destruct (N.eqb_spec c2 0) as [->|?].
    + destruct (c1 =? 0)%N; intros [= <-]; eauto.
    + repeat case_match; congruence.
  - intros [= <-]. left. by eapply check_nans_raise.
Qed.

Lemma quantize_raise (a b : Decimal) (r : rounding) (e : exn) :
  quantize a b r = Raise e → e = InvalidOperation.
Proof.
  unfold quantize. destruct (check_nans a b) as [[ans|]|e'] eqn:Hn; simpl.
  - done.
  - destruct a, b; simpl; repeat case_match; congruence.
  - intros [= <-]. by eapply check_nans_raise.
Qed.

Lemma gt_raise (a b : Decimal) (e : exn) : gt a b = Raise e → e = InvalidOperation.
Proof.
  unfold gt, compare_check_nans.
  destruct (is_nan a || is_nan b); simpl; [congruence|done].
Qed.

Lemma le_raise (a b : Decimal) (e : exn) : le a b = Raise e → e = InvalidOperation.
Proof.
  unfold le, compare_check_nans.
  destruct (is_nan a || is_nan b); simpl; [congruence|done].
Qed.

Lemma max_from_raise (l : list Decimal) (m : Decimal) (e : exn) :
  max_from m l = Raise e → e = InvalidOperation.
Proof.
  revert m. induction l as [|x l IH]; intros m; simpl; [done|].
  destruct (gt x m) as [b|e'] eqn:Hgt; simpl.
  - apply IH.
  - intros [= <-]. by eapply gt_raise.
Qed.

Lemma peak_raise (timetable : gmap Z Decimal) (o : options) (e : exn) :
  peak timetable o = Raise e → e = InvalidOperation.
Proof.
  unfold peak.
  destruct (py_max _) as [mx|e'] eqn:Hmax; simpl.
  - destruct (le mx (of_int 0)) as [b|e'] eqn:Hle; simpl; [done|].
    intros [= <-]. by eapply le_raise.
  - intros [= <-]. unfold py_max in Hmax.
    destruct (_ ++ _) as [|x l] eqn:Hl; [by destruct ((map_to_list timetable).*2)|].
    by eapply max_from_raise.
Qed.

(** What [peak] returns is above zero: a positive number or the positive
    infinity. *)
Lemma peak_above_zero (timetable : gmap Z Decimal) (o : options) (m : Decimal) :
  peak timetable o = Ok m → le m (of_int 0) = Ok false.
Proof.
  unfold peak.
  destruct (py_max _) as [mx|e'] eqn:Hmax; simpl; [|done].
  destruct (le mx (of_int 0)) as [[]|e'] eqn:Hle; simpl; [|congruence|done].
  by intros [= <-].
Qed.

Lemma above_zero_cases (m : Decimal) :
  le m (of_int 0) = Ok false →
  (∃ c e, m = Finite false c e ∧ (0 < c)%N) ∨ m = Infinity false.
Proof.
  unfold le, compare_check_nans.
  destruct m as [s c e|s|]; simpl; [| |done].
  - unfold cmp, of_int, scaled. simpl.
    destruct (_ ?= _) eqn:Hc; try done. intros _.
    apply Z.compare_gt_iff in Hc.
    assert (0 < 10 ^ (e - Z.min e 0)) by (apply Z.pow_pos_nonneg; lia).
    left. exists c, e.
    destruct s; [nia|]. split; [done|]. nia.
  - unfold cmp, of_int. destruct s; [done|]. by right.
Qed.

Lemma round_raise (q : Decimal) (e : exn) : _round q = Raise e → e = InvalidOperation.
Proof. apply quantize_raise. Qed.

Lemma percent_raise (v m : Decimal) (e : exn) :
  le m (of_int 0) = Ok false → percent v m = Raise e → e = InvalidOperation.
Proof.
  intros Hm. unfold percent.
  destruct (mul v (of_int 100)) as [p|e'] eqn:Hp; simpl;
    [|intros [= <-]; by eapply mul_raise].
  destruct (div p m) as [q|e'] eqn:Hq; simpl.
  - destruct (_round q) as [r|e'] eqn:Hr; simpl; [done|].
    intros [= <-]. by eapply round_raise.
  - intros [= <-]. apply div_raise in Hq as [->|[_ (s & x & ->)]]; [done|].
    apply above_zero_cases in Hm as [(c & e0 & [= _ <- _] & Hc)|[=]]. lia.
Qed.

Lemma mapM_result_raise {A B} (f : A → result B) (l : list A) (e : exn) :
  mapM f l = Raise e → ∃ x, x ∈ l ∧ f x = Raise e.
Proof.
  induction l as [|x l IH]; simpl; [done|].
  destruct (f x) as [y|e'] eqn:Hy; simpl.
  - destruct (mapM f l) as [ys|e'] eqn:Hys; simpl; [done|].
    intros [= <-]. destruct IH as (x' & ? & ?); [done|].
    exists x'. split; [by right|done].
  - intros [= <-]. exists x. split; [by left|done].
Qed.

Lemma percentages_raise (timetable : gmap Z Decimal) (m : Decimal) (e : exn) :
  le m (of_int 0) = Ok false →
  percentages timetable m = Raise e → e = InvalidOperation.
Proof.
  intros Hm H. apply mapM_result_raise in H as (d & Hd & H).
  apply sorted_dates_elem in Hd as [v Hv].
  unfold getitem in H. rewrite Hv in H. simpl in H.
  by eapply percent_raise.
Qed.

Lemma abscissas_one : abscissas 1 = Raise InvalidOperation.
Proof. reflexivity. Qed.

Lemma abscissas_raise (len : nat) (e : exn) :
  abscissas len = Raise e → len = 1%nat ∧ e = InvalidOperation.
Proof.
  destruct (decide (len = 1%nat)) as [->|Hlen].
  - rewrite abscissas_one. by intros [= <-].
  - destruct (abscissas_ok len Hlen) as [xs ->]. done.
Qed.

Lemma scale_data_exn (timetable : gmap Z Decimal) (o : options) (e : exn) :
  _scale_data timetable o = Raise e → e = InvalidOperation.
Proof.
  unfold _scale_data.
  destruct (peak timetable o) as [m|e'] eqn:Hpeak; simpl;
    [|intros [= <-]; by eapply peak_raise].
  apply peak_above_zero in Hpeak.
  destruct (percentages timetable m) as [ys|e'] eqn:Hys; simpl;
    [|intros [= <-]; by eapply percentages_raise].
  destruct (abscissas _) as [xs|e'] eqn:Hxs; simpl; [done|].
  intros [= <-]. by apply abscissas_raise in Hxs as [_ ->].
Qed.

Lemma scale_data_one_day (timetable : gmap Z Decimal) (o : options) :
  size timetable = 1%nat → _scale_data timetable o = Raise InvalidOperation.
Proof.
  intros Hsize.
  destruct (_scale_data timetable o) as [[[xs ys] m]|e] eqn:H.
  - exfalso. unfold _scale_data in H.
    destruct (peak timetable o) as [m'|] eqn:Hpeak; simpl in H; [|done].
    destruct (percentages timetable m') as [ys'|]; simpl in H; [|done].
    rewrite sorted_dates_length, Hsize, abscissas_one in H. done.
  - f_equal. by eapply scale_data_exn.
Qed.

(** X1. [_scale_data] raises neither KeyError nor DivisionByZero: every
    day read is a key of the timetable, and the peak that divides is never
    zero (a division by [len(dates) - 1 = 0] is 0 / 0, which is
    InvalidOperation). *)
Theorem scale_data_no_key_error (timetable : gmap Z Decimal) (o : options) :
  _scale_data timetable o ≠ Raise KeyError
  ∧ _scale_data timetable o ≠ Raise DivisionByZero.
Proof.
  split; intros H; by apply scale_data_exn in H.
Qed.

(** X2. A timetable of one day cannot be scaled: the x position is
    [0 * 100 / (len(dates) - 1)], that is 0 / 0, for which InvalidOperation
    is raised; whatever the value of the day, [_scale_data] returns
    nothing. *)
Theorem scale_data_single_day (timetable : gmap Z Decimal) (o : options) :
  size timetable = 1%nat →
  abscissas (length (sorted_dates timetable)) = Raise InvalidOperation
  ∧ ∀ r, _scale_data timetable o ≠ Ok r.
Proof.
  intros Hsize. split; [by rewrite sorted_dates_length, Hsize|].
  intros r. by rewrite scale_data_one_day.
Qed.

Lemma scale_data_single_day_witness :
  size single_day_timetable = 1%nat
  ∧ abscissas (length (sorted_dates single_day_timetable)) = Raise InvalidOperation.
Proof.
  assert (size single_day_timetable = 1%nat) as H by reflexivity.
  split; [exact H|].
  exact (proj1 (scale_data_single_day single_day_timetable example_window H)).
Defined.

(** X3. When [_scale_data] returns, the x column and the y column have one
    entry for each day of the timetable, the timetable has not exactly one
    day, and the peak [maxhours] is above zero. *)
Theorem scale_data_columns (timetable : gmap Z Decimal) (o : options)
    (xdata ydata : list string) (maxhours : Decimal) :
  _scale_data timetable o = Ok (xdata, ydata, maxhours) →
  length xdata = size timetable
  ∧ length ydata = size timetable
  ∧ size timetable ≠ 1%nat
  ∧ le maxhours (of_int 0) = Ok false.
Proof.
  unfold _scale_data.
  destruct (peak timetable o) as [m|] eqn:Hpeak; simpl; [|done].
  destruct (percentages timetable m) as [ys|] eqn:Hys; simpl; [|done].
  destruct (abscissas _) as [xs|] eqn:Hxs; simpl; [|done].
  intros [= <- <- <-].
  assert (Hsize : size timetable ≠ 1%nat).
  { intros Hsize. by rewrite sorted_dates_length, Hsize, abscissas_one in Hxs. }
  apply mapM_result_Ok in Hys as [Hys _], Hxs as [Hlx _].
  rewrite length_seq, sorted_dates_length in Hlx.
  rewrite sorted_dates_length in Hys.
  split; [done|]. split; [|split; [done|by eapply peak_above_zero]].
  rewrite mask_future_length; [done|].
  rewrite Hys, <- sorted_dates_length. apply length_filter.
Qed.

Lemma scale_data_columns_witness :
  _scale_data example_timetable early_window
  = Ok (["0.00"; "25.00"; "50.00"; "75.00"; "100.00"]%string,
        ["100.00"; "100.00"; "-1"; "-1"; "-1"]%string, of_int 10)
  ∧ size example_timetable = 5%nat
  ∧ le (of_int 10) (of_int 0) = Ok false.
Proof.
  assert (_scale_data example_timetable early_window
          = Ok (["0.00"; "25.00"; "50.00"; "75.00"; "100.00"]%string,
                ["100.00"; "100.00"; "-1"; "-1"; "-1"]%string, of_int 10)) as H
    by (by vm_compute).
  split; [exact H|].
  destruct (scale_data_columns _ _ _ _ _ H) as (Hx & _ & _ & Hm).
  split; [exact (eq_sym Hx)|exact Hm].
Defined.

Lemma cmp_of_int (a b : Z) : cmp (of_int a) (of_int b) = (a ?= b).
Proof.
  unfold cmp, of_int, scaled. simpl. rewrite !Z.mul_1_r.
  assert (H : ∀ z, (if z <? 0 then - Z.of_N (Z.to_N (Z.abs z))
                    else Z.of_N (Z.to_N (Z.abs z))) = z).
  { intros z. destruct (Z.ltb_spec z 0); lia. }
  by rewrite !H.
Qed.

(** X4. When [_scale_data] returns for the empty timetable, it returns two
    empty columns; the peak is [expected] when that is positive, and 100
    otherwise. *)
Theorem scale_data_empty (o : options) (xdata ydata : list string)
    (maxhours : Decimal) :
  _scale_data ∅ o = Ok (xdata, ydata, maxhours) →
  xdata = [] ∧ ydata = []
  ∧ maxhours = if 0 <? expected o then of_int (expected o) else of_int 100.
Proof.
  unfold _scale_data, peak, percentages, sorted_dates.
  rewrite map_to_list_empty. simpl.
  unfold le, compare_check_nans. simpl. rewrite cmp_of_int.
  destruct (Z.compare_spec (expected o) 0), (Z.ltb_spec 0 (expected o));
    try lia; simpl; by intros [= <- <- <-].
Qed.

Lemma scale_data_empty_witness :
  _scale_data ∅ example_window = Ok ([], [], of_int 100)
  ∧ of_int 100 = if 0 <? expected example_window
                 then of_int (expected example_window) else of_int 100.
Proof.
  assert (_scale_data ∅ example_window = Ok ([], [], of_int 100)) as H
    by reflexivity.
  split; [exact H|].
  exact (proj2 (proj2 (scale_data_empty example_window [] [] (of_int 100) H))).
Defined.

(** ** An estimate that is no number *)

Lemma max_from_nan (l : list Decimal) (m : Decimal) :
  l ≠ [] → is_nan m = true ∨ (∃ x, x ∈ l ∧ is_nan x = true) →
  max_from m l = Raise InvalidOperation.
Proof.
  revert m. induction l as [|x l IH]; intros m Hl Hnan; [done|]. simpl.
  unfold gt, compare_check_nans.
  destruct (is_nan x) eqn:Hx; [done|].
  destruct (is_nan m) eqn:Hm; [done|]. simpl.
  destruct Hnan as [|(y & Hy & Hnan)]; [done|].
  apply elem_of_cons in Hy as [->|Hy]; [congruence|].
  apply IH; [by destruct l; [inversion Hy|]|].
  right. by exists y.
Qed.

Lemma add_nan (a b : Decimal) :
  is_nan a = true ∨ is_nan b = true →
  match add a b with
  | Ok r => is_nan r = true
  | Raise e => e = InvalidOperation
  end.
Proof.
  intros H. unfold add.
  destruct a as [| |? [] ?], b as [| |? [] ?]; simpl in *; try done;
    by destruct H.
Qed.

Lemma for_each_nan self o (t : ticket) (d : Z) (E : Decimal)
    (tickets : list ticket) (m m' : gmap Z Decimal) :
  Z.max (t_time t) (startdate o) ≤ d ≤ enddate o →
  open_on self t d = true →
  estimate_on self (remaining_field self) t d = Some E →
  is_nan E = true →
  t ∈ tickets ∨ (∃ v, m !! d = Some v ∧ is_nan v = true) →
  for_each (add_ticket self o) tickets m = Ok m' →
  ∃ v, m' !! d = Some v ∧ is_nan v = true.
Proof.
  intros Hd Hopen HE Hnan. revert m.
  induction tickets as [|x l IH]; intros m Hin; simpl.
  - intros [= <-]. destruct Hin as [Hin|Hin]; [inversion Hin|done].
  - destruct (add_ticket self o m x) as [m1|] eqn:Hx; simpl; [|done].
    apply IH.
    pose proof (add_ticket_spec self o x m m1 Hx d) as Hspec.
    destruct Hin as [Hin|(v & Hv & Hvn)].
    + apply elem_of_cons in Hin as [<-|Hin]; [|by left].
      right. rewrite decide_True in Hspec by done.
      destruct Hspec as (v & e & v' & _ & He & Hadd & Hv').
      exists v'. split; [done|].
      rewrite HE in He. injection He as <-.
      pose proof (add_nan v E (or_intror Hnan)) as H. by rewrite Hadd in H.
    + right. destruct (decide _) as [_|_].
      * destruct Hspec as (v0 & e & v' & Hv0 & _ & Hadd & Hv').
        exists v'. split; [done|].
        rewrite Hv in Hv0. injection Hv0 as <-.
        pose proof (add_nan v e (or_introl Hvn)) as H. by rewrite Hadd in H.
      * exists v. by rewrite Hspec.
Qed.

Lemma scale_data_nan (timetable : gmap Z Decimal) (o : options)
    (d : Z) (v : Decimal) :
  timetable !! d = Some v → is_nan v = true →
  _scale_data timetable o = Raise InvalidOperation.
Proof.
  intros Hd Hv. unfold _scale_data, peak, py_max.
  assert (Hin : v ∈ (map_to_list timetable).*2).
  { apply list_elem_of_fmap. exists (d, v). split; [done|].
    by apply elem_of_map_to_list. }
  destruct ((map_to_list timetable).*2) as [|x l] eqn:Hl; [inversion Hin|].
  simpl. rewrite max_from_nan; [done|by destruct l|].
  apply elem_of_cons in Hin as [<-|Hin]; [by left|].
  right. exists v. split; [|done]. apply elem_of_app. by left.
Qed.

(** X5. The text "NaN" is an estimate that [_cast_estimate] accepts.  When
    a ticket of the query is open on a day of the window with an estimate
    that is a NaN, no chart is drawn: a remaining timetable that
    [_calculate_timetable] returns has a NaN on that day, and for such a
    timetable [_scale_data] returns nothing (its [max] compares with the
    NaN). *)
Theorem nan_estimate_stops_chart self o (tickets : list ticket) (t : ticket)
    (d : Z) (E : Decimal) (timetable : gmap Z Decimal) :
  t ∈ tickets →
  Z.max (t_time t) (startdate o) ≤ d ≤ enddate o →
  open_on self t d = true →
  estimate_on self (remaining_field self) t d = Some E →
  is_nan E = true →
  _calculate_timetable self o tickets = Ok timetable →
  (∃ v, timetable !! d = Some v ∧ is_nan v = true)
  ∧ ∀ r, _scale_data timetable o ≠ Ok r.
Proof.
  intros Hin Hd Hopen HE Hnan Hm.
  destruct (for_each_nan self o t d E tickets _ timetable Hd Hopen HE Hnan
              (or_introl Hin) Hm) as (v & Hv & Hvn).
  split; [by exists v|].
  intros r. by rewrite (scale_data_nan timetable o d v).
Qed.

Lemma nan_estimate_stops_chart_witness :
  _cast_estimate (PStr "NaN") = Some (NaN false false 0)
  ∧ ∃ timetable,
      _calculate_timetable example_chart example_window
        [example_ticket; nan_ticket] = Ok timetable
      ∧ ∃ v, timetable !! 733042 = Some v ∧ is_nan v = true.
Proof.
  split; [reflexivity|].
  assert (∃ timetable,
            _calculate_timetable example_chart example_window
              [example_ticket; nan_ticket] = Ok timetable) as [timetable H].
  { eexists. vm_compute. reflexivity. }
  exists timetable. split; [exact H|].
  apply (nan_estimate_stops_chart example_chart example_window
           [example_ticket; nan_ticket] nan_ticket 733042 (NaN false false 0)
           timetable).
  - apply elem_of_cons. right. apply elem_of_cons. by left.
  - simpl. lia.
  - reflexivity.
  - reflexivity.
  - reflexivity.
  - exact H.
Defined.

(** ** The ends of the x column *)

Lemma mul_finite_comm (s1 : bool) (c1 : N) (e1 : Z) (s2 : bool) (c2 : N) (e2 : Z) :
  mul (Finite s1 c1 e1) (Finite s2 c2 e2) = mul (Finite s2 c2 e2) (Finite s1 c1 e1).
Proof.
  unfold mul. simpl.
  rewrite (xorb_comm s2 s1), (Z.add_comm e2 e1), (orb_comm (c2 =? 0)%N).
  destruct (_ || _); [done|].
  destruct (N.eqb_spec c1 1) as [->|?], (N.eqb_spec c2 1) as [->|?]; try done.
  by rewrite N.mul_comm.
Qed.

Lemma of_int_nat (n : nat) : of_int (Z.of_nat n) = Finite false (N.of_nat n) 0.
Proof.
  unfold of_int. destruct (Z.ltb_spec (Z.of_nat n) 0); [lia|].
  f_equal. lia.
Qed.

(** X6. For 2 up to 3652059 days (the ordinal of [date.max]), the x column
    is computed, has one position for each day, starts with "0.00" and ends
    with "100.00". *)
Theorem abscissas_ends (len : nat) :
  2 ≤ Z.of_nat len ≤ 3652059 →
  ∃ xdata, abscissas len = Ok xdata
    ∧ length xdata = len
    ∧ xdata !! 0%nat = Some "0.00"%string
    ∧ xdata !! (len - 1)%nat = Some "100.00"%string.
Proof.
  intros Hlen.
  destruct (abscissas_ok len) as [xs Hxs]; [lia|].
  exists xs. split; [done|].
  apply mapM_result_Ok in Hxs as [Hl Hxs]. rewrite length_seq in Hl.
  split; [done|].
  replace (Z.of_nat len - 1) with (Z.of_nat (len - 1)) in Hxs by lia.
  rewrite of_int_nat in Hxs.
  assert (Hc : (0 < N.of_nat (len - 1))%N) by lia.
  split.
  - destruct (Hxs 0%nat 0%nat) as (y & Hy & ->); [apply lookup_seq; lia|].
    f_equal. simpl in Hy. unfold div in Hy. simpl in Hy.
    destruct (N.eqb_spec (N.of_nat (len - 1)) 0); [lia|].
    simpl in Hy. by injection Hy as <-.
  - destruct (Hxs (len - 1)%nat (len - 1)%nat) as (y & Hy & ->);
      [apply lookup_seq; lia|].
    f_equal. rewrite of_int_nat in Hy.
    change (of_int 100) with (Finite false 100 0) in Hy.
    rewrite mul_finite_comm in Hy.
    pose proof (percent_self (N.of_nat (len - 1)) 0 Hc) as Hp.
    unfold percent in Hp. change (of_int 100) with (Finite false 100 0) in Hp.
    rewrite Hp in Hy; [by injection Hy as <-|].
    etrans; [apply (ndigits_lt_upper _ 7); lia|done].
Qed.

Lemma abscissas_ends_witness :
  ∃ xdata, abscissas 5 = Ok xdata
    ∧ length xdata = 5%nat
    ∧ xdata !! 0%nat = Some "0.00"%string
    ∧ xdata !! (5 - 1)%nat = Some "100.00"%string.
Proof. apply (abscissas_ends 5). simpl. lia. Defined.

(** ** Rounding to two places *)

Lemma half_up_nearest (c : N) (k : Z) :
  0 ≤ k →
  let c' := if round_half_up c k then (c / pow10 k + 1)%N else (c / pow10 k)%N in
  2 * Z.of_N c' * 10 ^ k - 10 ^ k ≤ 2 * Z.of_N c < 2 * Z.of_N c' * 10 ^ k + 10 ^ k.
Proof.
  intros Hk. simpl. unfold round_half_up.
  pose proof (pow10_pos k Hk) as Hpos.
  pose proof (N.div_mod c (pow10 k)) as Hdiv.
  pose proof (N.mod_lt c (pow10 k)) as Hmod.
  rewrite <- pow10_Z.
  set (K := pow10 k) in *. set (q := (c / K)%N) in *. set (r := (c mod K)%N) in *.
  destruct (N.leb_spec K (2 * r)); nia.
Qed.

(** X7. [_round] of a finite number [c * 10^e]: the result has the same
    sign and the exponent -2.  A number of at most two places is kept
    exactly; otherwise the coefficient [c'] of the result is the nearest
    multiple of 0.01, and of two nearest ones the one away from zero
    (half up): [c' * 10^k - 10^k / 2 <= c < c' * 10^k + 10^k / 2] for
    [k = -2 - e] dropped digits. *)
Theorem round_nearest (s : bool) (c : N) (e : Z) (r : Decimal) :
  _round (Finite s c e) = Ok r →
  ∃ c', r = Finite s c' (-2)
    ∧ (-2 ≤ e → c' = (c * pow10 (e + 2))%N)
    ∧ (e < -2 →
       2 * Z.of_N c' * 10 ^ (-2 - e) - 10 ^ (-2 - e)
       ≤ 2 * Z.of_N c < 2 * Z.of_N c' * 10 ^ (-2 - e) + 10 ^ (-2 - e)).
Proof.
  unfold _round, quantize, check_nans. simpl.
  destruct (N.eqb_spec c 0) as [->|Hc].
  { intros [= <-]. exists 0%N. rewrite fix_small by done.
    split; [done|]. split; [done|]. intros He.
    assert (0 < 10 ^ (-2 - e)) by (apply Z.pow_pos_nonneg; lia). lia. }
  destruct (prec <? _); [done|].
  unfold rescale. destruct (N.eqb_spec c 0) as [|_]; [done|].
  destruct (Z.leb_spec (-2) e) as [He|He].
  - destruct (prec <? _) eqn:Hp; [done|]. apply Z.ltb_ge in Hp.
    intros [= <-]. rewrite fix_small by done.
    exists (c * pow10 (e - -2))%N. split; [done|]. split; [|lia].
    intros _. reflexivity.
  - assert (Hpos : (0 < c)%N) by lia.
    destruct (ndigits_spec c Hpos) as [[Hlo Hhi] Hnd].
    destruct (Z.ltb_spec (ndigits c + e - -2) 0) as [Hd|Hd].
    + change (1 / pow10 1)%N with 0%N.
      change (round_incr ROUND_HALF_UP 1 1) with false. cbv iota.
      destruct (prec <? _); [done|]. intros [= <-].
      rewrite fix_small by done. exists 0%N.
      split; [done|]. split; [lia|]. intros _.
      assert (10 ^ ndigits c ≤ 10 ^ (-2 - e - 1)) by (apply Z.pow_le_mono_r; lia).
      assert (10 ^ (-2 - e) = 10 * 10 ^ (-2 - e - 1)) as ->.
      { rewrite <- Z.pow_succ_r by lia. f_equal. lia. }
      lia.
    + replace (ndigits c - (ndigits c + e - -2)) with (-2 - e) by lia.
      set (c' := if round_incr _ _ _ then _ else _).
      destruct (prec <? _) eqn:Hp; [done|]. apply Z.ltb_ge in Hp.
      intros [= <-]. rewrite fix_small by done. exists c'.
      split; [done|]. split; [lia|]. intros _.
      apply (half_up_nearest c (-2 - e)). lia.
Qed.

Lemma round_nearest_witness :
  _round (Finite false 12345 (-3)) = Ok (Finite false 1235 (-2))
  ∧ ∃ c', Finite false 1235 (-2) = Finite false c' (-2)
      ∧ (-2 ≤ -3 → c' = (12345 * pow10 (-3 + 2))%N)
      ∧ (-3 < -2 →
         2 * Z.of_N c' * 10 ^ (-2 - -3) - 10 ^ (-2 - -3)
         ≤ 2 * Z.of_N 12345 < 2 * Z.of_N c' * 10 ^ (-2 - -3) + 10 ^ (-2 - -3)).
Proof.
  assert (_round (Finite false 12345 (-3)) = Ok (Finite false 1235 (-2))) as H
    by reflexivity.
  split; [exact H|].
  exact (round_nearest false 12345 (-3) (Finite false 1235 (-2)) H).
Defined.

(** ** The time frame *)

(** X8. "minimum time frame is one day", for a start date before the last
    day of the calendar (9999-12-31, ordinal 3652059): after the
    adjustment of [expand_macro] the start date is what it was and lies
    before the end date, which is a day of the calendar when it was one,
    and a window that has its start before its end is left as it is.  So
    a remaining timetable that is returned for the adjusted window has two
    days or more, and its x column is computed: with the weekends kept, no
    chart fails by the division by [len(dates) - 1]. *)
Theorem minimum_time_frame_two_days self (o : options) (tickets : list ticket) :
  startdate o < 3652059 →
  let o' := minimum_time_frame o in
  startdate o' = startdate o
  ∧ startdate o' < enddate o'
  ∧ (enddate o ≤ 3652059 → enddate o' ≤ 3652059)
  ∧ (startdate o < enddate o → o' = o)
  ∧ ∀ timetable, _calculate_timetable self o' tickets = Ok timetable →
      (2 ≤ size timetable)%nat
      ∧ ∃ xdata, abscissas (length (sorted_dates timetable)) = Ok xdata.
Proof.
  intros Hmax o'.
  assert (Hs : startdate o' = startdate o).
  { unfold o', minimum_time_frame. by destruct (_ <=? _). }
  assert (He : startdate o' < enddate o').
  { unfold o', minimum_time_frame.
    destruct (Z.leb_spec (enddate o) (startdate o)); simpl; lia. }
  split; [done|]. split; [done|]. split.
  { unfold o', minimum_time_frame.
    destruct (Z.leb_spec (enddate o) (startdate o)); simpl; lia. }
  split.
  { intros Hlt. unfold o', minimum_time_frame.
    destruct (Z.leb_spec (enddate o) (startdate o)); [lia|done]. }
  intros m Hm.
  pose proof (calculate_timetable_result self o' tickets) as Hres.
  rewrite Hm in Hres.
  apply covers_size in Hres.
  assert (2 ≤ size m)%nat by lia.
  split; [done|]. apply abscissas_ok. rewrite sorted_dates_length. lia.
Qed.

Lemma minimum_time_frame_two_days_witness :
  startdate single_day_window < 3652059
  ∧ enddate (minimum_time_frame single_day_window) = 733043
  ∧ startdate (minimum_time_frame single_day_window)
    < enddate (minimum_time_frame single_day_window).
Proof.
  assert (startdate single_day_window < 3652059) as H by (simpl; lia).
  split; [exact H|]. split; [reflexivity|].
  exact (proj1 (proj2 (minimum_time_frame_two_days example_chart
                         single_day_window [example_ticket] H))).
Defined.

(** ** The weekends *)

Lemma weekday_range (d : Z) : 0 ≤ weekday d < 7.
Proof. unfold weekday. apply Z.mod_pos_bound. lia. Qed.

Lemma weekday_add (d k : Z) : weekday (d + k) = (weekday d + k) mod 7.
Proof.
  unfold weekday. rewrite Z.add_mod_idemp_l by lia. f_equal. lia.
Qed.

Lemma for_each_cons {S A} (f : S → A → result S) (x : A) (l : list A) (s : S) :
  for_each f (x :: l) s = f s x ≫= for_each f l.
Proof. done. Qed.

Lemma remove_weekend_deletes (t s : gmap Z Decimal) (x : Z) :
  5 ≤ weekday x → is_Some (t !! x) → is_Some (s !! x) →
  remove_weekend (t, s) x = Ok (delete x t, delete x s).
Proof.
  intros Hw [v Hv] [w Hw']. unfold remove_weekend, delitem. simpl.
  destruct (Z.leb_spec 5 (weekday x)); [|lia]. by rewrite Hv, Hw'.
Qed.

Lemma remove_weekend_keeps (tables : gmap Z Decimal * gmap Z Decimal) (x : Z) :
  weekday x < 5 → remove_weekend tables x = Ok tables.
Proof.
  intros Hw. unfold remove_weekend.
  by destruct (Z.leb_spec 5 (weekday x)); [lia|].
Qed.

Lemma remove_weekends_loop (l : list Z) (t s : gmap Z Decimal) :
  NoDup l →
  (∀ d, d ∈ l → 5 ≤ weekday d → is_Some (t !! d) ∧ is_Some (s !! d)) →
  ∃ t' s', for_each remove_weekend l (t, s) = Ok (t', s')
    ∧ ∀ d, t' !! d = (if decide (d ∈ l ∧ 5 ≤ weekday d) then None else t !! d)
         ∧ s' !! d = (if decide (d ∈ l ∧ 5 ≤ weekday d) then None else s !! d).
Proof.
  revert t s. induction l as [|x l IH]; intros t s Hnd Hin.
  - exists t, s. split; [done|]. intros d.
    rewrite decide_False by (intros [H _]; inversion H). done.
  - apply NoDup_cons in Hnd as [Hx Hnd]. rewrite for_each_cons.
    destruct (Z.le_gt_cases 5 (weekday x)) as [Hw|Hw].
    + destruct (Hin x) as [Hv Hw']; [by left|done|].
      rewrite remove_weekend_deletes by done. simpl.
      destruct (IH (delete x t) (delete x s) Hnd) as (t' & s' & -> & Hlook).
      { intros d Hd Hwd. assert (d ≠ x) by (intros ->; done).
        rewrite !lookup_delete_ne by done. apply Hin; [by right|done]. }
      exists t', s'. split; [done|]. intros d.
      destruct (Hlook d) as [-> ->].
      destruct (decide (d = x)) as [->|Hne].
      * rewrite !(decide_False (P := x ∈ l ∧ _)) by (by intros [? _]).
        rewrite !decide_True by (split; [by left|done]).
        by rewrite !lookup_delete_eq.
      * rewrite !lookup_delete_ne by done.
        destruct (decide (d ∈ l ∧ 5 ≤ weekday d)) as [[? ?]|Hn].
        -- rewrite !decide_True by (split; [by right|done]). done.
        -- rewrite !decide_False; [done|..];
             (intros [[->|?]%elem_of_cons ?]; [done|]; by apply Hn).
    + rewrite remove_weekend_keeps by done. simpl.
      destruct (IH t s Hnd) as (t' & s' & -> & Hlook).
      { intros d Hd Hwd. apply Hin; [by right|done]. }
      exists t', s'. split; [done|]. intros d.
      destruct (Hlook d) as [-> ->].
      destruct (decide (d ∈ l ∧ 5 ≤ weekday d)) as [[? ?]|Hn].
      * rewrite !decide_True by (split; [by right|done]). done.
      * rewrite !decide_False; [done|..];
          (intros [[->|?]%elem_of_cons ?]; [lia|]; by apply Hn).
Qed.

Lemma remove_weekends_lookup (timetable timetable_spent : gmap Z Decimal) :
  (∀ d, is_Some (timetable !! d) → is_Some (timetable_spent !! d)) →
  ∃ t' s', remove_weekends timetable timetable_spent = Ok (t', s')
    ∧ (∀ d, t' !! d = if decide (weekday d < 5) then timetable !! d else None)
    ∧ (∀ d, s' !! d = if decide (is_Some (timetable !! d) ∧ 5 ≤ weekday d)
                      then None else timetable_spent !! d).
Proof.
  intros Hdom. unfold remove_weekends.
  assert (Hkeys : ∀ d, d ∈ (map_to_list timetable).*1 ↔ is_Some (timetable !! d)).
  { intros d. rewrite list_elem_of_fmap. split.
    - intros ([d' v] & -> & Hv). apply elem_of_map_to_list in Hv. by exists v.
    - intros [v Hv]. exists (d, v). split; [done|]. by apply elem_of_map_to_list. }
  destruct (remove_weekends_loop (map_to_list timetable).*1 timetable timetable_spent)
    as (t' & s' & Hloop & Hlook).
  { apply NoDup_fst_map_to_list. }
  { intros d Hd _. apply Hkeys in Hd. split; [done|by apply Hdom]. }
  exists t', s'. split; [done|]. split; intros d; destruct (Hlook d) as [Ht Hs].
  - rewrite Ht. destruct (decide (weekday d < 5)) as [Hw|Hw].
    + rewrite decide_False by (intros [_ ?]; lia). done.
    + destruct (decide _) as [_|Hn]; [done|].
      destruct (timetable !! d) as [v|] eqn:Hv; [|done].
      exfalso. apply Hn. split; [|lia]. apply Hkeys. by rewrite Hv.
  - rewrite Hs. destruct (decide (d ∈ _ ∧ _)) as [[Hd ?]|Hn].
    + rewrite decide_True; [done|]. split; [by apply Hkeys|done].
    + rewrite decide_False; [done|]. intros [Hd ?]. apply Hn.
      split; [by apply Hkeys|done].
Qed.

Lemma working_days_lookup (timetable : gmap Z Decimal) (d : Z) :
  working_days timetable !! d
  = if decide (weekday d < 5) then timetable !! d else None.
Proof.
  unfold working_days. rewrite map_lookup_filter.
  destruct (timetable !! d) as [v|]; simpl; [|by destruct (decide _)].
  case_guard; simpl in *; by destruct (decide (weekday d < 5)).
Qed.

(** X9. "remove weekends": when the remaining and the spent timetable have
    the same days, the loop raises nothing and leaves, in either of them,
    the days from Monday to Friday with their values and no other day; the
    two timetables still have the same days. *)
Theorem remove_weekends_lockstep (timetable timetable_spent : gmap Z Decimal) :
  (∀ d, is_Some (timetable !! d) ↔ is_Some (timetable_spent !! d)) →
  remove_weekends timetable timetable_spent
  = Ok (working_days timetable, working_days timetable_spent)
  ∧ ∀ d, is_Some (working_days timetable !! d)
         ↔ is_Some (working_days timetable_spent !! d).
Proof.
  intros Hdom.
  destruct (remove_weekends_lookup timetable timetable_spent)
    as (t' & s' & -> & Ht & Hs); [intros d; apply Hdom|].
  split.
  - do 2 f_equal; apply map_eq; intros d; rewrite working_days_lookup.
    + apply Ht.
    + rewrite Hs. destruct (decide (weekday d < 5)) as [Hw|Hw].
      * by rewrite decide_False by (intros [_ ?]; lia).
      * destruct (decide _) as [_|Hn]; [done|].
        destruct (timetable_spent !! d) as [v|] eqn:Hv; [|done].
        exfalso. apply Hn. split; [|lia]. apply Hdom. by rewrite Hv.
  - intros d. rewrite !working_days_lookup.
    destruct (decide (weekday d < 5)); [apply Hdom|done].
Qed.

Lemma remove_weekends_lockstep_witness :
  remove_weekends example_timetable flat_timetable
  = Ok (working_days example_timetable, working_days flat_timetable)
  ∧ working_days example_timetable !! 733045 = Some (of_int 4)
  ∧ working_days example_timetable !! 733046 = None.
Proof.
  split; [|split; reflexivity].
  apply (remove_weekends_lockstep example_timetable flat_timetable).
  intros d. split; intros [v Hv].
  - exact (map_Forall_lookup_1 _ _ _ _
             (bool_decide_unpack
                (map_Forall (fun d _ => is_Some (flat_timetable !! d)) example_timetable)
                I) Hv).
  - exact (map_Forall_lookup_1 _ _ _ _
             (bool_decide_unpack
                (map_Forall (fun d _ => is_Some (example_timetable !! d)) flat_timetable)
                I) Hv).
Defined.

Lemma remove_weekends_loop_missing (d : Z) (l : list Z) (t s : gmap Z Decimal) :
  NoDup l → (∀ x, x ∈ l → is_Some (t !! x)) →
  d ∈ l → 5 ≤ weekday d → s !! d = None →
  for_each remove_weekend l (t, s) = Raise KeyError.
Proof.
  intros Hnd Ht Hd Hw. revert t s Ht.
  induction l as [|x l IH]; intros t s Ht Hs; [inversion Hd|].
  apply NoDup_cons in Hnd as [Hx Hnd]. rewrite for_each_cons.
  destruct (Z.le_gt_cases 5 (weekday x)) as [Hwx|Hwx].
  - destruct (s !! x) as [w|] eqn:Hsx.
    + rewrite remove_weekend_deletes; [|done|by apply Ht; left|by rewrite Hsx].
      simpl. apply elem_of_cons in Hd as [->|Hd]; [congruence|].
      apply IH; [done|done| |].
      * intros y Hy. rewrite lookup_delete_ne by (by intros ->).
        apply Ht. by right.
      * rewrite lookup_delete_ne; [done|]. by intros ->.
    + unfold remove_weekend, delitem. simpl.
      destruct (Z.leb_spec 5 (weekday x)); [|lia].
      destruct (Ht x) as [v ->]; [by left|]. simpl. by rewrite Hsx.
  - rewrite remove_weekend_keeps by done. simpl.
    apply elem_of_cons in Hd as [->|Hd]; [lia|].
    apply IH; [done|done| |done]. intros y Hy. apply Ht. by right.
Qed.

(** X10. The spent timetable is emptied by the days of the remaining one:
    when a Saturday or a Sunday of the remaining timetable is no day of the
    spent timetable, [del timetable_spent[date]] raises KeyError. *)
Theorem remove_weekends_missing_day (timetable timetable_spent : gmap Z Decimal)
    (d : Z) :
  is_Some (timetable !! d) → 5 ≤ weekday d → timetable_spent !! d = None →
  remove_weekends timetable timetable_spent = Raise KeyError.
Proof.
  intros [v Hv] Hw Hs. unfold remove_weekends.
  apply (remove_weekends_loop_missing d); [apply NoDup_fst_map_to_list| | |done..].
  - intros x ([x' w] & -> & Hx)%list_elem_of_fmap.
    apply elem_of_map_to_list in Hx. by exists w.
  - apply list_elem_of_fmap. exists (d, v). split; [done|].
    by apply elem_of_map_to_list.
Qed.

Lemma remove_weekends_missing_day_witness :
  weekday 733046 = 5
  ∧ remove_weekends example_timetable short_timetable = Raise KeyError.
Proof.
  split; [reflexivity|].
  apply (remove_weekends_missing_day example_timetable short_timetable 733046).
  - by eexists.
  - by vm_compute.
  - reflexivity.
Defined.

(** ** The working days *)

Lemma count_workdays_acc (n : nat) (c a : Z) :
  count_workdays n c a = a + count_workdays n c 0.
Proof.
  revert c a. induction n as [|n IH]; intros c a; simpl; [lia|].
  rewrite (IH (c + 1) (if weekday c <? 5 then a + 1 else a)).
  rewrite (IH (c + 1) (if weekday c <? 5 then 0 + 1 else 0)).
  destruct (weekday c <? 5); lia.
Qed.

Lemma count_workdays_app (n m : nat) (c : Z) :
  count_workdays (n + m) c 0
  = count_workdays n c 0 + count_workdays m (c + Z.of_nat n) 0.
Proof.
  revert c. induction n as [|n IH]; intros c.
  - simpl. by rewrite Z.add_0_r.
  - cbn [Nat.add count_workdays].
    rewrite count_workdays_acc, (count_workdays_acc n), IH.
    replace (c + 1 + Z.of_nat n) with (c + Z.of_nat (S n)) by lia. lia.
Qed.

Lemma count_workdays_week (c : Z) : count_workdays 7 c 0 = 5.
Proof.
  cbn [count_workdays].
  replace (c + 1 + 1 + 1 + 1 + 1 + 1) with (c + 6) by lia.
  replace (c + 1 + 1 + 1 + 1 + 1) with (c + 5) by lia.
  replace (c + 1 + 1 + 1 + 1) with (c + 4) by lia.
  replace (c + 1 + 1 + 1) with (c + 3) by lia.
  replace (c + 1 + 1) with (c + 2) by lia.
  rewrite !(weekday_add c).
  pose proof (weekday_range c) as Hr.
  assert (weekday c = 0 ∨ weekday c = 1 ∨ weekday c = 2 ∨ weekday c = 3
          ∨ weekday c = 4 ∨ weekday c = 5 ∨ weekday c = 6) as Hc by lia.
  destruct Hc as [->|[->|[->|[->|[->|[->| ->]]]]]]; reflexivity.
Qed.

Lemma count_workdays_bounds (n : nat) (c : Z) :
  0 ≤ count_workdays n c 0 ≤ Z.of_nat n.
Proof.
  revert c. induction n as [|n IH]; intros c; simpl; [lia|].
  rewrite count_workdays_acc. specialize (IH (c + 1)).
  destruct (weekday c <? 5); lia.
Qed.

Lemma workdays_size (n : nat) (c : Z) (m : gmap Z Decimal) :
  (∀ d, is_Some (m !! d) ↔ c ≤ d < c + Z.of_nat n ∧ weekday d < 5) →
  Z.of_nat (size m) = count_workdays n c 0.
Proof.
  revert c m. induction n as [|n IH]; intros c m Hm.
  - simpl. assert (m = ∅) as ->; [|by rewrite map_size_empty].
    apply map_empty. intros d. apply eq_None_not_Some. rewrite Hm. lia.
  - cbn [count_workdays]. rewrite count_workdays_acc.
    rewrite <- (IH (c + 1) (delete c m)).
    + rewrite map_size_delete.
      destruct (Z.ltb_spec (weekday c) 5) as [Hw|Hw].
      * destruct (proj2 (Hm c)) as [v Hv]; [lia|]. rewrite Hv.
        assert (size m ≠ 0%nat); [|simpl; lia].
        intros ->%map_size_empty_inv. by rewrite lookup_empty in Hv.
      * destruct (m !! c) as [v|] eqn:Hv; [|simpl; lia].
        destruct (proj1 (Hm c)); [by rewrite Hv|lia].
    + intros d. destruct (decide (d = c)) as [->|Hne].
      * rewrite lookup_delete_eq. split; [by intros [? ?]|lia].
      * rewrite lookup_delete_ne by done. rewrite Hm. lia.
Qed.

(** X11. The two timetables of one window, with the weekends removed: the
    loop raises nothing; the remaining and the spent timetable keep the
    days of the window from Monday to Friday, with their values.  Their
    number is the number of working days that WorkloadChart counts from the
    start date to the end date.  When it is 1 (a window from Friday to
    Saturday, say), [_scale_data] returns for neither timetable. *)
Theorem weekends_removed_from_both self (o : options)
    (tickets tickets_spent : list ticket) (timetable timetable_spent : gmap Z Decimal) :
  _calculate_timetable self o tickets = Ok timetable →
  _calculate_timetable_spent self o tickets_spent = Ok timetable_spent →
  ∃ t' s', remove_weekends timetable timetable_spent = Ok (t', s')
    ∧ (∀ d, is_Some (t' !! d) ↔ startdate o ≤ d ≤ enddate o ∧ weekday d < 5)
    ∧ (∀ d, is_Some (s' !! d) ↔ is_Some (t' !! d))
    ∧ (∀ d, weekday d < 5 → t' !! d = timetable !! d ∧ s' !! d = timetable_spent !! d)
    ∧ Z.of_nat (size t') = workdays_left (startdate o) (enddate o)
    ∧ size s' = size t'
    ∧ (workdays_left (startdate o) (enddate o) = 1 →
       (∀ r, _scale_data t' o ≠ Ok r) ∧ (∀ r, _scale_data s' o ≠ Ok r)).
Proof.
  intros Ht Hs.
  pose proof (calculate_timetable_result self o tickets) as Hct.
  pose proof (calculate_timetable_spent_result self o tickets_spent) as Hcs.
  rewrite Ht in Hct. rewrite Hs in Hcs.
  destruct (remove_weekends_lookup timetable timetable_spent)
    as (t' & s' & Hrm & Ht' & Hs').
  { intros d Hd. apply Hcs. by apply Hct. }
  exists t', s'. split; [done|].
  assert (Hkeys : ∀ d, is_Some (t' !! d) ↔ startdate o ≤ d ≤ enddate o ∧ weekday d < 5).
  { intros d. rewrite Ht'. destruct (decide (weekday d < 5)).
    - rewrite (Hct d). tauto.
    - split; [by intros [? ?]|tauto]. }
  assert (Hsame : ∀ d, is_Some (s' !! d) ↔ is_Some (t' !! d)).
  { intros d. rewrite Hkeys, Hs'.
    destruct (decide (is_Some (timetable !! d) ∧ 5 ≤ weekday d)) as [[? ?]|Hn].
    + split; [by intros [? ?]|lia].
    + rewrite (Hcs d). split; [|tauto]. intros Hd. split; [done|].
      destruct (Z.le_gt_cases 5 (weekday d)); [|lia].
      exfalso. apply Hn. split; [by apply Hct|done]. }
  assert (Hsize : ∀ m : gmap Z Decimal,
            (∀ d, is_Some (m !! d) ↔ startdate o ≤ d ≤ enddate o ∧ weekday d < 5) →
            Z.of_nat (size m) = workdays_left (startdate o) (enddate o)).
  { intros m Hm. unfold workdays_left, days_until. apply workdays_size.
    intros d. rewrite Hm. lia. }
  pose proof (Hsize t' Hkeys) as Hnt.
  assert (Hns : Z.of_nat (size s') = workdays_left (startdate o) (enddate o)).
  { apply Hsize. intros d. by rewrite Hsame. }
  split; [done|]. split; [done|]. split.
  { intros d Hw. rewrite Ht', Hs'. rewrite decide_True by done.
    by rewrite decide_False by (intros [_ ?]; lia). }
  split; [done|]. split; [lia|].
  intros H1. split; intros r; rewrite scale_data_one_day by lia; done.
Qed.

Lemma weekends_removed_from_both_witness :
  ∃ t' s', remove_weekends example_timetable flat_timetable = Ok (t', s')
    ∧ Z.of_nat (size t') = 4
    ∧ size s' = size t'.
Proof.
  assert (_calculate_timetable example_chart example_window [example_ticket]
          = Ok example_timetable) as H1 by (by vm_compute).
  assert (_calculate_timetable_spent example_chart example_window [closed_ticket]
          = Ok flat_timetable) as H2 by (by vm_compute).
  destruct (weekends_removed_from_both example_chart example_window
              [example_ticket] [closed_ticket] _ _ H1 H2)
    as (t' & s' & Hrm & _ & _ & _ & Hnt & Hns & _).
  exists t', s'. split; [exact Hrm|]. split; [exact Hnt|exact Hns].
Defined.

(** X12. The working days that WorkloadChart counts from today to the end
    date: none when the end date is before today, never more than the days
    from today to the end date, and, when the end date is not before
    yesterday ([today <= enddate + 1]), exactly five more when the end date
    is moved a week later. *)
Theorem workdays_left_weeks (today enddate : Z) :
  (enddate < today → workdays_left today enddate = 0)
  ∧ 0 ≤ workdays_left today enddate ≤ Z.max 0 (enddate + 1 - today)
  ∧ (today ≤ enddate + 1 →
     workdays_left today (enddate + 7) = workdays_left today enddate + 5).
Proof.
  unfold workdays_left, days_until. split; [|split].
  - intros H. by replace (Z.to_nat (enddate + 1 - today)) with 0%nat by lia.
  - pose proof (count_workdays_bounds (Z.to_nat (enddate + 1 - today)) today). lia.
  - intros H.
    replace (Z.to_nat (enddate + 7 + 1 - today))
      with (Z.to_nat (enddate + 1 - today) + 7)%nat by lia.
    by rewrite count_workdays_app, count_workdays_week.
Qed.

(** ** The weekend bands *)

Lemma halfday_ok (len : nat) : (2 ≤ len)%nat → ∃ h, halfday len = Ok h.
Proof.
  intros Hlen. unfold halfday, of_int.
  destruct (Z.ltb_spec (Z.of_nat len - 1) 0); [lia|].
  destruct (div_round_ok false 5 (-1) false (Z.to_N (Z.abs (Z.of_nat len - 1))) 0)
    as (q & r & -> & Hr); [lia|done| |by exists r].
  right. pose proof (ndigits_ge_1 (Z.to_N (Z.abs (Z.of_nat len - 1)))).
  change (ndigits 5) with 1. lia.
Qed.

(** Days that are no Saturday, with no Saturday pending: the loop only
    counts them. *)
Lemma mark_each_no_saturday (wecolor : string) (xdata : list string)
    (h : Decimal) (dates : list Z) (s : marking) :
  saturday_seen (saturday s) = None →
  (∀ d, d ∈ dates → weekday d ≠ 5) →
  mark_each wecolor xdata h dates s
  = Done {| weekends := weekends s; saturday := saturday s;
            index := (index s + length dates)%nat |}.
Proof.
  revert s. induction dates as [|d l IH]; intros s Hs Hd.
  - simpl. rewrite Nat.add_0_r. by destruct s.
  - simpl. unfold mark_weekend at 1.
    destruct (Z.eqb_spec (weekday d) 5) as [H5|_]; [by destruct (Hd d); [left|]|].
    rewrite Hs. simpl.
    rewrite IH; [|done|intros d' Hd'; apply Hd; by right].
    simpl. do 2 f_equal. lia.
Qed.

Lemma mark_each_app (wecolor : string) (xdata : list string) (h : Decimal)
    (l1 l2 : list Z) (s : marking) :
  mark_each wecolor xdata h (l1 ++ l2) s
  = outcome_bind (mark_each wecolor xdata h l1 s) (mark_each wecolor xdata h l2).
Proof.
  revert s. induction l1 as [|d l1 IH]; intros s; [done|].
  simpl. destruct (mark_weekend wecolor xdata h s d); simpl; [apply IH|done].
Qed.

Lemma days_from_cons (first : Z) (n : nat) :
  days_from first (S n) = first :: days_from (first + 1) n.
Proof.
  unfold days_from. simpl. rewrite Z.add_0_r. f_equal.
  rewrite <- fmap_S_seq, <- list_fmap_compose.
  apply list_fmap_ext. intros i x _. simpl. lia.
Qed.

Lemma days_from_app (first : Z) (a b : nat) :
  days_from first (a + b) = days_from first a ++ days_from (first + Z.of_nat a) b.
Proof.
  revert first. induction a as [|a IH]; intros first.
  - simpl. by rewrite Z.add_0_r.
  - cbn [Nat.add]. rewrite !days_from_cons, IH. simpl. do 3 f_equal. lia.
Qed.

Lemma days_from_length (first : Z) (n : nat) : length (days_from first n) = n.
Proof. unfold days_from. by rewrite length_fmap, length_seq. Qed.

Lemma days_from_elem (first : Z) (n : nat) (d : Z) :
  d ∈ days_from first n ↔ first ≤ d < first + Z.of_nat n.
Proof.
  unfold days_from. rewrite list_elem_of_fmap. split.
  - intros (i & -> & Hi). apply elem_of_seq in Hi. lia.
  - intros Hd. exists (Z.to_nat (d - first)). split; [lia|].
    apply elem_of_seq. lia.
Qed.

Lemma days_from_last (first : Z) (n : nat) :
  last (days_from first (S n)) = Some (first + Z.of_nat n).
Proof.
  unfold days_from. rewrite seq_S, fmap_app. simpl. by rewrite last_snoc.
Qed.

(** X13. A chart that keeps its weekends and starts on a Saturday, of two
    to seven days: the loop notes the Saturday at index 0, which
    [if saturday and ...] takes for false on the Sunday, and neither the
    band of a period that starts with a Sunday nor the band of a period
    that ends with a Saturday applies.  No band is made, whatever the x
    column: the first weekend of such a chart is not marked. *)
Theorem saturday_start_unmarked (wecolor : string) (xdata : list string)
    (first : Z) (n : nat) :
  weekday first = 5 → (2 ≤ n ≤ 7)%nat →
  mark_weekends wecolor (days_from first n) xdata = Done [].
Proof.
  intros Hfirst Hn.
  assert (Hwd : ∀ k, weekday (first + k) = (5 + k) mod 7).
  { intros k. by rewrite weekday_add, Hfirst. }
  unfold mark_weekends. rewrite days_from_length.
  destruct (halfday_ok n) as [h ->]; [lia|]. simpl.
  destruct n as [|n]; [lia|].
  rewrite days_from_last, days_from_cons. cbn [mark_each head].
  unfold mark_weekend at 1. rewrite Hfirst. simpl.
  rewrite mark_each_no_saturday; [|done|].
  2: { intros d [Hlo Hhi]%days_from_elem.
       replace d with (first + (d - first)) by lia. rewrite Hwd.
       intros Heq. Z.div_mod_to_equations. lia. }
  simpl. rewrite Hwd.
  destruct (Z.eqb_spec ((5 + Z.of_nat n) mod 7) 5) as [Heq|_]; [|done].
  exfalso. Z.div_mod_to_equations. lia.
Qed.

Lemma saturday_start_unmarked_witness :
  weekday 733046 = 5
  ∧ mark_weekends "ccccccaa" (days_from 733046 7) week_xdata = Done [].
Proof.
  assert (weekday 733046 = 5) as H by reflexivity.
  split; [exact H|].
  apply (saturday_start_unmarked "ccccccaa" week_xdata 733046 7 H). lia.
Defined.

(** X14. Two or more days from Monday to Friday (a chart without its
    weekends): no band is made, and nothing is raised. *)
Theorem working_days_unmarked (wecolor : string) (xdata : list string)
    (dates : list Z) :
  (2 ≤ length dates)%nat → (∀ d, d ∈ dates → weekday d < 5) →
  mark_weekends wecolor dates xdata = Done [].
Proof.
  intros Hlen Hwd. unfold mark_weekends.
  destruct (halfday_ok (length dates)) as [h ->]; [lia|]. simpl.
  rewrite mark_each_no_saturday; [|done|].
  2: { intros d Hd. specialize (Hwd d Hd). lia. }
  simpl.
  destruct (head dates) as [first|] eqn:Hhead.
  - assert (weekday first < 5) by (apply Hwd; by apply head_Some_elem_of).
    destruct (Z.eqb_spec (weekday first) 6); [lia|].
    destruct (last dates) as [final|] eqn:Hlast; [|done].
    assert (weekday final < 5) by (apply Hwd; by apply last_Some_elem_of).
    by destruct (Z.eqb_spec (weekday final) 5); [lia|].
  - by destruct dates.
Qed.

Lemma working_days_unmarked_witness :
  mark_weekends "ccccccaa" [733042; 733043; 733044; 733045]
    ["0.00"; "33.33"; "66.67"; "100.00"]%string = Done [].
Proof.
  apply working_days_unmarked; [simpl; lia|].
  intros d Hd.
  repeat (apply elem_of_cons in Hd as [->|Hd]; [by vm_compute|]).
  inversion Hd.
Defined.

(** X15. A chart that keeps its weekends, starts on a day from Monday to
    Friday and ends on the Sunday of its first weekend or on one of the
    five days after it: [halfday] is computed, and the bands are the one
    band of that weekend, made of the x positions of its Saturday and of
    its Sunday (or what the making of that band raises). *)
Theorem one_weekend_band (wecolor : string) (xdata : list string)
    (first : Z) (n : nat) :
  weekday first ≤ 4 →
  (7 - weekday first ≤ Z.of_nat n ≤ 12 - weekday first) →
  let sat := Z.to_nat (5 - weekday first) in
  ∃ h, halfday n = Ok h
    ∧ mark_weekends wecolor (days_from first n) xdata
      = outcome_bind (weekend_band wecolor xdata h sat (S sat))
          (fun band => Done [band]).
Proof.
  intros Hfirst Hn sat.
  pose proof (weekday_range first) as Hr.
  assert (Hwd : ∀ k, weekday (first + k) = (weekday first + k) mod 7).
  { intros k. by rewrite weekday_add. }
  destruct (halfday_ok n) as [h Hh]; [lia|]. exists h. split; [done|].
  unfold mark_weekends. rewrite days_from_length, Hh.
  cbn [arith outcome_bind].
  assert (Hhead : head (days_from first n) = Some first).
  { destruct n as [|n]; [lia|]. by rewrite days_from_cons. }
  assert (Hlast : last (days_from first n) = Some (first + (Z.of_nat n - 1))).
  { destruct n as [|n]; [lia|]. rewrite days_from_last. f_equal. lia. }
  rewrite Hhead, Hlast, Hwd.
  destruct (Z.eqb_spec (weekday first) 6) as [|_]; [lia|].
  destruct (Z.eqb_spec ((weekday first + (Z.of_nat n - 1)) mod 7) 5) as [Heq|_].
  { exfalso. Z.div_mod_to_equations. lia. }
  set (rest := (n - sat - 2)%nat).
  assert (Hsplit : days_from first n
                   = days_from first sat
                     ++ (first + Z.of_nat sat) :: (first + Z.of_nat sat + 1)
                     :: days_from (first + Z.of_nat sat + 1 + 1) rest).
  { replace n with (sat + S (S rest))%nat by lia.
    by rewrite days_from_app, !days_from_cons. }
  rewrite Hsplit, mark_each_app.
  rewrite mark_each_no_saturday; [|done|].
  2: { intros d [Hlo Hhi]%days_from_elem.
       replace d with (first + (d - first)) by lia. rewrite Hwd.
       intros Heq. Z.div_mod_to_equations. lia. }
  cbn [outcome_bind weekends saturday index]. rewrite days_from_length.
  assert (Hsat : weekday (first + Z.of_nat sat) = 5).
  { rewrite Hwd. replace (weekday first + Z.of_nat sat) with 5 by lia. done. }
  assert (Hsun : weekday (first + Z.of_nat sat + 1) = 6).
  { replace (first + Z.of_nat sat + 1) with (first + (Z.of_nat sat + 1)) by lia.
    rewrite Hwd. replace (weekday first + (Z.of_nat sat + 1)) with 6 by lia. done. }
  cbn [mark_each]. unfold mark_weekend at 1. rewrite Hsat.
  cbn [Z.eqb Pos.eqb saturday index weekends Nat.add].
  destruct sat as [|sat'] eqn:Hsateq; [lia|].
  cbn [saturday_seen outcome_bind].
  unfold mark_weekend at 1. rewrite Hsun.
  cbn [Z.eqb Pos.eqb saturday index weekends saturday_seen].
  destruct (weekend_band wecolor xdata h (S sat') (S (S sat'))) as [band|e];
    [|done].
  cbn [outcome_bind app]. 
  rewrite mark_each_no_saturday; [done|done|].
  intros d [Hlo Hhi]%days_from_elem.
  replace d with (first + (d - first)) by lia. rewrite Hwd.
  intros Heq. Z.div_mod_to_equations. lia.
Qed.

Lemma one_weekend_band_witness :
  weekday 733042 = 1
  ∧ halfday 7 = Ok (Finite false 8 (-2))
  ∧ mark_weekends "ccccccaa" (days_from 733042 7) week_xdata
    = Done ["R,ccccccaa,0,0.59,0.91"%string].
Proof.
  assert (weekday 733042 = 1) as H by reflexivity.
  split; [exact H|]. split; [reflexivity|].
  destruct (one_weekend_band "ccccccaa" week_xdata 733042 7) as (h & Hh & ->).
  - rewrite H. lia.
  - rewrite H. simpl. lia.
  - assert (halfday 7 = Ok (Finite false 8 (-2))) as Hh' by reflexivity.
    rewrite Hh' in Hh. injection Hh as <-. reflexivity.
Defined.

(** ** The history of a ticket *)

Lemma earliest_estimate_kept (field : string) (rows : list ticket_change)
    (h : history) (v : Decimal) :
  earliest_estimate h = Some v →
  earliest_estimate (fold_left (record_change field) rows h) = Some v.
Proof.
  revert h. induction rows as [|row rows IH]; intros h Hh; [done|].
  simpl. apply IH. unfold record_change.
  destruct (String.eqb _ field); simpl; [by rewrite Hh|].
  by destruct (String.eqb _ "status").
Qed.

Lemma earliest_estimate_none (field : string) (rows : list ticket_change)
    (h : history) :
  earliest_estimate h = None →
  (∀ r, r ∈ rows → c_field r = field → _cast_estimate (c_oldvalue r) = None) →
  earliest_estimate (fold_left (record_change field) rows h) = None.
Proof.
  revert h. induction rows as [|row rows IH]; intros h Hh Hrows; [done|].
  simpl. apply IH; [|intros r Hr; apply Hrows; by right].
  unfold record_change.
  destruct (String.eqb_spec (c_field row) field) as [Hf|Hf]; simpl.
  - rewrite Hh. apply Hrows; [by left|done].
  - by destruct (String.eqb _ "status").
Qed.

Lemma record_change_earliest (field : string) (h : history) (row : ticket_change) :
  c_field row = field →
  earliest_estimate (record_change field h row)
  = match earliest_estimate h with
    | None => _cast_estimate (c_oldvalue row)
    | Some e => Some e
    end.
Proof. intros Hf. unfold record_change. by rewrite Hf, String.eqb_refl. Qed.

(** X16. The estimate of the creation date, when no change of that day
    sets it, is the old value of the first change of the tracked field whose
    old value is a number: a change whose old value does not parse is
    passed over, and the old value of a later change is taken. *)
Theorem earliest_estimate_first self (field : string) (t : ticket)
    (rows1 rows2 : list ticket_change) (row : ticket_change) (v : Decimal) :
  db_query self (t_id t) field = rows1 ++ row :: rows2 →
  (∀ r, r ∈ rows1 → c_field r = field → _cast_estimate (c_oldvalue r) = None) →
  c_field row = field →
  _cast_estimate (c_oldvalue row) = Some v →
  earliest_estimate (change_history field (rows1 ++ row :: rows2)) = Some v
  ∧ (estimate_history (change_history field (rows1 ++ row :: rows2)) !! t_time t = None →
     ticket_estimates self field t !! t_time t = Some v).
Proof.
  intros Hq Hrows1 Hf Hv.
  assert (He : earliest_estimate (change_history field (rows1 ++ row :: rows2)) = Some v).
  { unfold change_history. rewrite fold_left_app. cbn [fold_left].
    apply earliest_estimate_kept.
    pose proof (earliest_estimate_none field rows1 empty_history eq_refl Hrows1) as H1.
    by rewrite record_change_earliest, H1. }
  split; [done|]. intros Hnone.
  unfold ticket_estimates, seed_estimate. rewrite Hq, Hnone, He.
  apply lookup_insert_eq.
Qed.

Lemma earliest_estimate_first_witness :
  _cast_estimate (c_oldvalue garbled_change) = None
  ∧ earliest_estimate
      (change_history "estimatedhours" ([garbled_change] ++ example_change :: []))
    = Some (of_int 10)
  ∧ ticket_estimates garbled_chart "estimatedhours" example_ticket !! 733042
    = Some (of_int 10).
Proof.
  assert (_cast_estimate (c_oldvalue garbled_change) = None) as H by reflexivity.
  split; [exact H|].
  assert (Hrows : ∀ r, r ∈ [garbled_change] → c_field r = "estimatedhours"%string →
                       _cast_estimate (c_oldvalue r) = None).
  { intros r Hr _. apply list_elem_of_singleton in Hr as ->. exact H. }
  destruct (earliest_estimate_first garbled_chart "estimatedhours" example_ticket
              [garbled_change] [] example_change (of_int 10)
              eq_refl Hrows eq_refl eq_refl) as [H1 H2].
  split; [exact H1|]. apply H2. reflexivity.
Defined.

(** X17. When no change of the tracked field has an old value that is a
    number (there is no such change, or none that parses), and no change of
    the creation date sets the estimate, the estimate of the creation date
    is the current value of the ticket. *)
Theorem earliest_estimate_missing self (field : string) (t : ticket) :
  (∀ r, r ∈ db_query self (t_id t) field → c_field r = field →
        _cast_estimate (c_oldvalue r) = None) →
  estimate_history (change_history field (db_query self (t_id t) field)) !! t_time t = None →
  ticket_estimates self field t !! t_time t = Some (latest_estimate t).
Proof.
  intros Hrows Hnone. unfold ticket_estimates, seed_estimate, change_history in *.
  rewrite Hnone.
  rewrite (earliest_estimate_none field _ empty_history eq_refl Hrows).
  apply lookup_insert_eq.
Qed.

Lemma earliest_estimate_missing_witness :
  ticket_estimates garbled_chart "estimatedhours"
    {| t_id := 6; t_time := 733042; t_status := PStr "new"; t_value := PStr "8" |}
  !! 733042 = Some (of_int 8).
Proof.
  apply (earliest_estimate_missing garbled_chart "estimatedhours"
           {| t_id := 6; t_time := 733042; t_status := PStr "new";
              t_value := PStr "8" |}).
  - intros r Hr _. apply list_elem_of_singleton in Hr as ->. reflexivity.
  - reflexivity.
Defined.

(** X18. On a day of the window the loops add the value of the most recent
    change on or before that day, be that change before the start date or
    after it (the loops run from the creation date, not from the start
    date): to the spent timetable always, to the remaining timetable when
    the ticket is open that day. *)
Theorem most_recent_change_counts self (o : options) (t : ticket)
    (m : gmap Z Decimal) (d0 d : Z) (v : Decimal) :
  t_time t ≤ d0 ≤ d → startdate o ≤ d ≤ enddate o →
  (∀ m', add_ticket_spent self o m t = Ok m' →
     ticket_estimates self (spent_field self) t !! d0 = Some v →
     (∀ d', d0 < d' ≤ d → ticket_estimates self (spent_field self) t !! d' = None) →
     ∃ w w', m !! d = Some w ∧ add w v = Ok w' ∧ m' !! d = Some w')
  ∧ (∀ m', add_ticket self o m t = Ok m' →
     ticket_estimates self (remaining_field self) t !! d0 = Some v →
     (∀ d', d0 < d' ≤ d → ticket_estimates self (remaining_field self) t !! d' = None) →
     if open_on self t d
     then ∃ w w', m !! d = Some w ∧ add w v = Ok w' ∧ m' !! d = Some w'
     else m' !! d = m !! d).
Proof.
  intros Hd0 Hd. split; intros m' Hadd Hv Hnone.
  - pose proof (add_ticket_spent_spec self o t m m' Hadd d) as Hspec.
    rewrite decide_True in Hspec by lia.
    destruct Hspec as (w & e & w' & Hw & He & Ha & Hw').
    unfold estimate_on in He.
    rewrite (carried_since _ _ _ d0 d v) in He by done.
    injection He as <-. by exists w, w'.
  - pose proof (add_ticket_spec self o t m m' Hadd d) as Hspec.
    destruct (open_on self t d) eqn:Hopen.
    + rewrite decide_True in Hspec by (split; [lia|done]).
      destruct Hspec as (w & e & w' & Hw & He & Ha & Hw').
      unfold estimate_on in He.
      rewrite (carried_since _ _ _ d0 d v) in He by done.
      injection He as <-. by exists w, w'.
    + by rewrite decide_False in Hspec by (by intros [_ ?]).
Qed.

Lemma most_recent_change_counts_witness :
  startdate late_window = 733045
  ∧ ticket_estimates example_chart "estimatedhours" example_ticket !! 733044
    = Some (of_int 4)
  ∧ ∃ w w', empty_timetable late_window !! 733045 = Some w
      ∧ add w (of_int 4) = Ok w'
      ∧ (<[733045 := of_int 4]> (<[733046 := of_int 4]> ∅) : gmap Z Decimal)
        !! 733045 = Some w'.
Proof.
  split; [reflexivity|].
  assert (ticket_estimates example_chart (remaining_field example_chart)
            example_ticket !! 733044 = Some (of_int 4)) as Hv by reflexivity.
  split; [exact Hv|].
  assert (add_ticket example_chart late_window (empty_timetable late_window)
            example_ticket
          = Ok (<[733045 := of_int 4]> (<[733046 := of_int 4]> ∅))) as Hadd
    by (by vm_compute).
  assert (733042 ≤ 733044 ≤ 733045) as H1 by lia.
  assert (733045 ≤ 733045 ≤ 733046) as H2 by lia.
  refine (proj2 (most_recent_change_counts example_chart late_window example_ticket
                   (empty_timetable late_window) 733044 733045 (of_int 4) H1 H2)
            _ Hadd Hv _).
  intros d' Hd'. assert (d' = 733045) as -> by lia. reflexivity.
Defined.

(** X19. A ticket adds nothing to a day before its creation date, in the
    remaining and in the spent timetable. *)
Theorem nothing_before_creation self (o : options) (t : ticket)
    (m : gmap Z Decimal) (d : Z) :
  d < t_time t →
  (∀ m', add_ticket self o m t = Ok m' → m' !! d = m !! d)
  ∧ (∀ m', add_ticket_spent self o m t = Ok m' → m' !! d = m !! d).
Proof.
  intros Hd. split; intros m' Hadd.
  - pose proof (add_ticket_spec self o t m m' Hadd d) as Hspec.
    by rewrite decide_False in Hspec by (intros [? _]; lia).
  - pose proof (add_ticket_spent_spec self o t m m' Hadd d) as Hspec.
    by rewrite decide_False in Hspec by lia.
Qed.

Lemma nothing_before_creation_witness :
  add_ticket example_chart example_window (empty_timetable example_window) late_ticket
  = Ok (<[733042 := of_int 0]> (<[733043 := of_int 0]> (<[733044 := of_int 8]>
         (<[733045 := of_int 8]> (<[733046 := of_int 8]> ∅)))))
  ∧ (<[733042 := of_int 0]> (<[733043 := of_int 0]> (<[733044 := of_int 8]>
      (<[733045 := of_int 8]> (<[733046 := of_int 8]> ∅)))) : gmap Z Decimal)
    !! 733043 = empty_timetable example_window !! 733043.
Proof.
  assert (add_ticket example_chart example_window (empty_timetable example_window)
            late_ticket
          = Ok (<[733042 := of_int 0]> (<[733043 := of_int 0]> (<[733044 := of_int 8]>
                 (<[733045 := of_int 8]> (<[733046 := of_int 8]> ∅)))))) as H
    by (by vm_compute).
  split; [exact H|].
  assert (733043 < t_time late_ticket) as Hd by (simpl; lia).
  exact (proj1 (nothing_before_creation example_chart example_window late_ticket
                  (empty_timetable example_window) 733043 Hd) _ H).
Defined.

Lemma add_open_effort_closed self o eh sh (n : nat) (c : Z) ce io
    (m : gmap Z Decimal) :
  from_option id false io = false →
  (∀ d s, sh !! d = Some s → in_closed_states self s = true) →
  add_open_effort self o eh sh n c ce io m = Ok m.
Proof.
  intros Hio Hsh. revert c ce io Hio.
  induction n as [|n IH]; intros c ce io Hio; [done|]. simpl.
  set (io' := match sh !! c with Some s => _ | None => io end).
  assert (Hio' : from_option id false io' = false).
  { unfold io'. destruct (sh !! c) as [s|] eqn:Hs; [|done].
    simpl. by rewrite (Hsh c s Hs). }
  rewrite Hio', andb_false_r. simpl. by apply IH.
Qed.

Lemma status_history_no_rows (field : string) (rows : list ticket_change) :
  (∀ row, row ∈ rows → c_field row ≠ "status"%string) →
  status_history (change_history field rows) = ∅
  ∧ earliest_status (change_history field rows) = PNone.
Proof.
  unfold change_history.
  assert (status_history empty_history = ∅ ∧ earliest_status empty_history = PNone)
    as H by done.
  revert H. generalize empty_history.
  induction rows as [|row rows IH]; intros h Hh Hrows; [done|].
  simpl. apply IH; [|intros r Hr; apply Hrows; by right].
  unfold record_change. destruct (String.eqb _ field); [done|].
  destruct (String.eqb_spec (c_field row) "status") as [Hs|_]; [|done].
  destruct (Hrows row); [by left|done].
Qed.

Lemma never_changed_status self (field : string) (t : ticket) :
  (∀ row, row ∈ db_query self (t_id t) field → c_field row ≠ "status"%string) →
  ticket_statuses self field t = {[ t_time t := t_status t ]}.
Proof.
  intros Hrows. unfold ticket_statuses, seed_status.
  destruct (status_history_no_rows field _ Hrows) as [-> ->].
  by rewrite lookup_empty.
Qed.

(** X20. A ticket that is closed on every day of its history (closed
    when created and never reopened, say) leaves the remaining timetable as
    it is and raises nothing, whatever its estimates and whatever the days
    of the timetable. *)
Theorem closed_ticket_adds_nothing self (o : options) (t : ticket)
    (m : gmap Z Decimal) :
  (∀ d s, ticket_statuses self (remaining_field self) t !! d = Some s →
          in_closed_states self s = true) →
  add_ticket self o m t = Ok m.
Proof.
  intros Hclosed. unfold add_ticket. by apply add_open_effort_closed.
Qed.

Lemma closed_ticket_adds_nothing_witness :
  add_ticket example_chart example_window (empty_timetable example_window)
    retired_ticket
  = Ok (empty_timetable example_window).
Proof.
  apply closed_ticket_adds_nothing. intros d s.
  rewrite never_changed_status by (intros row Hrow; inversion Hrow).
  intros [<- <-]%lookup_singleton_Some. reflexivity.
Defined.

(** ** The sums of WorkloadChart, HoursSpent and HoursEstimated *)

Section Sums.

Context (float : Type) (float_new : pyval → option float)
  (float_zero : float) (float_add : float → float → float).

Lemma credit_entries (es : list (pyval * float)) (ow : pyval) (x : float) :
  NoDup (es.*1) →
  NoDup ((credit float float_add es ow x).*1)
  ∧ ∀ o v, (o, v) ∈ credit float float_add es ow x ↔
      (o ≠ ow ∧ (o, v) ∈ es)
      ∨ (o = ow ∧ ((∃ e, (ow, e) ∈ es ∧ v = float_add e x)
                   ∨ ((ow ∉ es.*1) ∧ v = x))).
Proof.
  assert (Hkey : ∀ (l : list (pyval * float)) o v, (o, v) ∈ l → o ∈ l.*1).
  { intros l o v H. apply list_elem_of_fmap. by exists (o, v). }
  induction es as [|[o1 e1] es IH]; intros Hnd; simpl.
  - split; [apply NoDup_singleton|]. intros o v.
    rewrite list_elem_of_singleton. split.
    + intros [= -> ->]. right. split; [done|]. right. split; [|done].
      apply not_elem_of_nil.
    + intros [[_ H]|[-> [(e & H & _)|[_ ->]]]]; [inversion H|inversion H|done].
  - simpl in Hnd. apply NoDup_cons in Hnd as [Ho1 Hnd].
    destruct (decide (o1 = ow)) as [->|Hne]; simpl.
    + split; [by apply NoDup_cons|]. intros o v.
      rewrite !elem_of_cons. split.
      * intros [Heq|H].
        -- simplify_eq. right. split; [done|]. left.
           exists e1. split; [by left|done].
        -- left. split; [|by right]. intros ->. by apply Ho1, (Hkey _ _ v).
      * intros [[Hn [Heq|H]]|[-> [(e & [Heq|H]%elem_of_cons & ->)|[Hn _]]]].
        -- by simplify_eq.
        -- by right.
        -- simplify_eq. by left.
        -- exfalso. by apply Ho1, (Hkey _ _ e).
        -- exfalso. apply Hn. by left.
    + destruct (IH Hnd) as [IHnd IHin]. split.
      * apply NoDup_cons. split; [|done].
        intros ([o' v'] & Heq & Hin)%list_elem_of_fmap. simpl in Heq. subst o'.
        apply IHin in Hin as [[_ Hin]|[-> _]]; [|done].
        by apply Ho1, (Hkey _ _ v').
      * intros o v. rewrite !elem_of_cons, IHin. split.
        -- intros [Heq|[[? ?]|[-> [(e & ? & ->)|[Hn ->]]]]].
           ++ simplify_eq. left. split; [done|by left].
           ++ left. split; [done|by right].
           ++ right. split; [done|]. left. exists e. split; [by right|done].
           ++ right. split; [done|]. right. split; [|done].
              intros [?|?]; [congruence|done].
        -- intros [[? [Heq|?]]|[-> [(e & [Heq|?]%elem_of_cons & ->)|[Hn ->]]]].
           ++ by left.
           ++ right. left. done.
           ++ by simplify_eq.
           ++ right. right. split; [done|]. left. by exists e.
           ++ right. right. split; [done|]. right. split; [|done].
              intros ?. apply Hn. by right.
Qed.

Lemma owner_estimates_snoc (closed : list string) (o : pyval)
    (l : list wticket) (t : wticket) :
  owner_estimates float float_new closed o (l ++ [t])
  = owner_estimates float float_new closed o l
    ++ (if counted float float_new closed t && bool_decide (w_owner t = o)
        then option_list (float_new (w_remaining t)) else []).
Proof.
  unfold owner_estimates. rewrite omap_app. f_equal. simpl.
  destruct (_ && _); [|done]. by destruct (float_new _).
Qed.

(** X21. The dictionary [estimations] of WorkloadChart has every owner
    once, and the owners are those of the tickets that enter the sums; the
    value of an owner is the first estimate of that owner's tickets, with
    the later ones added to it one after the other, in the order of the
    tickets (it does not start from 0.0). *)
Theorem workload_per_owner (closed : list string) (tickets : list wticket) :
  let estimations :=
    snd (workload_sums float float_new float_zero float_add closed tickets) in
  NoDup (estimations.*1)
  ∧ ∀ owner v,
      (owner, v) ∈ estimations ↔
      ∃ x xs, owner_estimates float float_new closed owner tickets = x :: xs
              ∧ v = fold_left float_add xs x.
Proof.
  induction tickets as [|t l IH] using rev_ind; simpl.
  - split; [apply NoDup_nil_2|]. intros o v. split.
    + intros H. inversion H.
    + by intros (x & xs & [=] & _).
  - unfold workload_sums in *. rewrite fold_left_app. simpl.
    set (w := fold_left _ l _) in *. destruct IH as [IHnd IHin].
    unfold count_ticket, counted.
    destruct (is_closed closed t) eqn:Hclosed; simpl.
    { split; [done|]. intros o v. rewrite owner_estimates_snoc.
      unfold counted. rewrite Hclosed. simpl. rewrite app_nil_r. apply IHin. }
    destruct (float_new (w_remaining t)) as [x|] eqn:Hx; simpl.
    2: { split; [done|]. intros o v. rewrite owner_estimates_snoc.
         rewrite Hx. destruct (_ && _); simpl; rewrite app_nil_r; apply IHin. }
    destruct (credit_entries (snd w) (w_owner t) x IHnd) as [Hnd Hin].
    split; [done|]. intros o v. rewrite Hin, owner_estimates_snoc.
    unfold counted. rewrite Hclosed, Hx. simpl.
    destruct (bool_decide_reflect (w_owner t = o)) as [<-|Hne]; simpl.
    + split.
      * intros [[? _]|[_ [(e & He & ->)|[Hn ->]]]]; [done| |].
        -- apply IHin in He as (x0 & xs & -> & ->).
           exists x0, (xs ++ [x]). split; [done|].
           by rewrite fold_left_app.
        -- destruct (owner_estimates _ _ _ _ l) as [|y ys] eqn:Hl.
           ++ by exists x, [].
           ++ exfalso. apply Hn. apply list_elem_of_fmap.
              exists (w_owner t, fold_left float_add ys y). split; [done|].
              apply IHin. by exists y, ys.
      * intros (x0 & xs & Heq & ->). right. split; [done|].
        destruct (owner_estimates _ _ _ _ l) as [|y ys] eqn:Hl.
        -- simpl in Heq. injection Heq as <- <-. right. split; [|done].
           intros ([o' v'] & Ho & Hv)%list_elem_of_fmap. simpl in Ho. subst o'.
           apply IHin in Hv as (? & ? & ? & _). congruence.
        -- simpl in Heq. injection Heq as <- <-. left.
           exists (fold_left float_add ys y). split.
           ++ apply IHin. by exists y, ys.
           ++ by rewrite fold_left_app.
    + setoid_rewrite app_nil_r. rewrite <- IHin. split.
      * intros [[_ ?]|[-> _]]; done.
      * intros ?. left. split; [by intros ->|done].
Qed.

Lemma fold_add_hours (values : list pyval) (sum : float) :
  fold_left (add_hours float float_new float_add) values sum
  = fold_left float_add (omap float_new values) sum.
Proof.
  revert sum. induction values as [|v l IH]; intros sum; [done|].
  simpl. rewrite IH. unfold add_hours. by destruct (float_new v).
Qed.

Lemma workload_total (closed : list string) (tickets : list wticket) (w : float * list (pyval * float)) :
  fst (fold_left (count_ticket float float_new float_add closed) tickets w)
  = fold_left (add_hours float float_new float_add)
      (w_remaining <$> filter (fun t => is_closed closed t = false) tickets) (fst w).
Proof.
  revert w. induction tickets as [|t l IH]; intros w; [done|].
  simpl. rewrite IH. unfold count_ticket.
  destruct (is_closed closed t) eqn:Hc.
  - by rewrite filter_cons_False by (by rewrite Hc).
  - rewrite filter_cons_True by done. simpl. unfold add_hours.
    by destruct (float_new (w_remaining t)).
Qed.

(** X22. The sum of HoursSpent and of HoursEstimated is 0.0 with the
    values that [float] accepts added one after the other, in the order of
    the tickets; the tickets whose value [float] refuses change nothing.
    The status of a ticket plays no part: the total of WorkloadChart is this
    sum over the tickets that are not closed. *)
Theorem hours_sum_skips (values : list pyval) :
  hours_sum float float_new float_zero float_add values
  = fold_left float_add (omap float_new values) float_zero
  ∧ hours_sum float float_new float_zero float_add values
    = hours_sum float float_new float_zero float_add
        (filter (fun v => is_Some (float_new v)) values)
  ∧ ∀ closed tickets,
      fst (workload_sums float float_new float_zero float_add closed tickets)
      = hours_sum float float_new float_zero float_add
          (w_remaining <$> filter (fun t => is_closed closed t = false) tickets).
Proof.
  unfold hours_sum. split; [apply fold_add_hours|]. split.
  - rewrite !fold_add_hours. f_equal.
    induction values as [|v l IH]; [done|]. simpl.
    destruct (float_new v) as [x|] eqn:Hx.
    + rewrite filter_cons_True by (by rewrite Hx). simpl. rewrite Hx. by f_equal.
    + rewrite filter_cons_False by (rewrite Hx; by intros [? ?]). done.
  - intros closed tickets. apply workload_total.
Qed.

End Sums.

(** ** The timetables as sums *)

Lemma hours_of_int (z : Z) : hours_of (Some (of_int z)) = z.
Proof. unfold hours_of, of_int. destruct (Z.ltb_spec z 0); lia. Qed.

Lemma ndigits_below (n : N) : Z.of_N n < 10 ^ 28 → ndigits n ≤ prec.
Proof. intros H. by apply (ndigits_lt_upper n 28). Qed.

(** Whole numbers are added exactly. *)
Lemma add_of_int (a b : Z) :
  Z.abs a < 10 ^ 28 → Z.abs b < 10 ^ 28 → Z.abs (a + b) < 10 ^ 28 →
  add (of_int a) (of_int b) = Ok (of_int (a + b)).
Proof.
  intros Ha Hb Hab. unfold add, of_int. simpl.
  set (c1 := Z.to_N (Z.abs a)). set (c2 := Z.to_N (Z.abs b)).
  assert (H1 : ndigits c1 ≤ prec) by (apply ndigits_below; lia).
  assert (H2 : ndigits c2 ≤ prec) by (apply ndigits_below; lia).
  destruct (N.eqb_spec c1 0) as [Hc1|Hc1], (N.eqb_spec c2 0) as [Hc2|Hc2]; simpl.
  - assert (a = 0) as -> by lia. assert (b = 0) as -> by lia. done.
  - assert (a = 0) as -> by lia. unfold rescale.
    destruct (N.eqb_spec c2 0); [done|]. simpl.
    rewrite N.mul_1_r, fix_small by done. done.
  - assert (b = 0) as -> by lia. unfold rescale.
    destruct (N.eqb_spec c1 0); [done|]. simpl.
    rewrite N.mul_1_r, fix_small by done. by rewrite Z.add_0_r.
  - unfold normalize. simpl.
    pose proof (ndigits_ge_1 c2) as Hd2.
    destruct (Z.ltb_spec (ndigits c2 + 0 - 1) (0 + Z.min (-1) (ndigits c1 - prec - 2)));
      [lia|].
    change (pow10 (0 - 0)) with 1%N. rewrite N.mul_1_r.
    destruct (Z.ltb_spec a 0) as [Hsa|Hsa], (Z.ltb_spec b 0) as [Hsb|Hsb]; simpl.
    + rewrite fix_small by (apply ndigits_below; lia).
      destruct (Z.ltb_spec (a + b) 0); [|lia]. do 2 f_equal. lia.
    + destruct (N.eqb_spec c1 c2) as [Heq|Hne].
      { assert (a + b = 0) as -> by lia. done. }
      destruct (N.ltb_spec c1 c2).
      * rewrite fix_small by (apply ndigits_below; lia).
        destruct (Z.ltb_spec (a + b) 0); [lia|]. do 2 f_equal. lia.
      * rewrite fix_small by (apply ndigits_below; lia).
        destruct (Z.ltb_spec (a + b) 0); [|lia]. do 2 f_equal. lia.
    + destruct (N.eqb_spec c1 c2) as [Heq|Hne].
      { assert (a + b = 0) as -> by lia. done. }
      destruct (N.ltb_spec c1 c2).
      * rewrite fix_small by (apply ndigits_below; lia).
        destruct (Z.ltb_spec (a + b) 0); [|lia]. do 2 f_equal. lia.
      * rewrite fix_small by (apply ndigits_below; lia).
        destruct (Z.ltb_spec (a + b) 0); [lia|]. do 2 f_equal. lia.
    + rewrite fix_small by (apply ndigits_below; lia).
      destruct (Z.ltb_spec (a + b) 0); [lia|]. do 2 f_equal. lia.
Qed.

Lemma for_each_spent_sum self o (d bound : Z) (tickets : list ticket)
    (m m' : gmap Z Decimal) (a : Z) :
  startdate o ≤ d ≤ enddate o → 0 ≤ bound →
  (∀ t, t ∈ tickets → t_time t ≤ d →
        ∃ z, estimate_on self (spent_field self) t d = Some (of_int z)
             ∧ Z.abs z ≤ bound) →
  Z.abs a + Z.of_nat (length tickets) * bound < 10 ^ 28 →
  m !! d = Some (of_int a) →
  for_each (add_ticket_spent self o) tickets m = Ok m' →
  m' !! d = Some (of_int (a + spent_on self d tickets)).
Proof.
  intros Hd Hb. revert m a.
  induction tickets as [|t l IH]; intros m a Hz Hbound Hm; simpl.
  - intros [= <-]. by rewrite Z.add_0_r.
  - destruct (add_ticket_spent self o m t) as [m1|] eqn:Ht; simpl; [|done].
    intros Hl.
    pose proof (add_ticket_spent_spec self o t m m1 Ht d) as Hspec.
    simpl length in Hbound. rewrite Nat2Z.inj_succ in Hbound.
    assert (0 ≤ Z.of_nat (length l) * bound) by nia.
    replace (Z.succ (Z.of_nat (length l)) * bound)
      with (Z.of_nat (length l) * bound + bound) in Hbound by ring.
    destruct (decide (t_time t ≤ d)) as [Hc|Hc].
    + rewrite bool_decide_true by done.
      rewrite decide_True in Hspec by lia.
      destruct Hspec as (v & e & v' & Hv & He & Hadd & Hv').
      destruct (Hz t) as (z & Hez & Hzb); [by left|done|].
      rewrite Hez in He. injection He as <-.
      rewrite Hm in Hv. injection Hv as <-.
      rewrite Hez, hours_of_int.
      rewrite add_of_int in Hadd by lia. injection Hadd as <-.
      rewrite Z.add_assoc. apply (IH m1); [|lia|done|done].
      intros t' Ht'. apply Hz. by right.
    + rewrite bool_decide_false by done.
      rewrite decide_False in Hspec by lia.
      apply (IH m1); [|lia|by rewrite Hspec|done].
      intros t' Ht'. apply Hz. by right.
Qed.

Lemma for_each_remaining_sum self o (d bound : Z) (tickets : list ticket)
    (m m' : gmap Z Decimal) (a : Z) :
  startdate o ≤ d ≤ enddate o → 0 ≤ bound →
  (∀ t, t ∈ tickets → t_time t ≤ d → open_on self t d = true →
        ∃ z, estimate_on self (remaining_field self) t d = Some (of_int z)
             ∧ Z.abs z ≤ bound) →
  Z.abs a + Z.of_nat (length tickets) * bound < 10 ^ 28 →
  m !! d = Some (of_int a) →
  for_each (add_ticket self o) tickets m = Ok m' →
  m' !! d = Some (of_int (a + remaining_on self d tickets)).
Proof.
  intros Hd Hb. revert m a.
  induction tickets as [|t l IH]; intros m a Hz Hbound Hm; simpl.
  - intros [= <-]. by rewrite Z.add_0_r.
  - destruct (add_ticket self o m t) as [m1|] eqn:Ht; simpl; [|done].
    intros Hl.
    pose proof (add_ticket_spec self o t m m1 Ht d) as Hspec.
    simpl length in Hbound. rewrite Nat2Z.inj_succ in Hbound.
    assert (0 ≤ Z.of_nat (length l) * bound) by nia.
    replace (Z.succ (Z.of_nat (length l)) * bound)
      with (Z.of_nat (length l) * bound + bound) in Hbound by ring.
    destruct (decide (t_time t ≤ d ∧ open_on self t d = true)) as [[Hc Ho]|Hc].
    + rewrite bool_decide_true, Ho by done. simpl.
      rewrite decide_True in Hspec by (split; [lia|done]).
      destruct Hspec as (v & e & v' & Hv & He & Hadd & Hv').
      destruct (Hz t) as (z & Hez & Hzb); [by left|done|done|].
      rewrite Hez in He. injection He as <-.
      rewrite Hm in Hv. injection Hv as <-.
      rewrite Hez, hours_of_int.
      rewrite add_of_int in Hadd by lia. injection Hadd as <-.
      rewrite Z.add_assoc. apply (IH m1); [|lia|done|done].
      intros t' Ht'. apply Hz. by right.
    + assert (bool_decide (t_time t ≤ d) && open_on self t d = false) as ->.
      { destruct (bool_decide_reflect (t_time t ≤ d)); [|done].
        destruct (open_on self t d); [|done]. by destruct Hc. }
      rewrite decide_False in Hspec by (intros [? ?]; apply Hc; split; [lia|done]).
      apply (IH m1); [|lia|by rewrite Hspec|done].
      intros t' Ht'. apply Hz. by right.
Qed.

(** X23. When the estimates of a day are whole numbers (of at most
    [bound] each, with [len(tickets) * bound] below 10^28), the timetables
    hold their exact sums: on a day of the window the remaining timetable
    has the sum of the estimates of the tickets that exist and are open that
    day, and the spent timetable the sum of the values of the tickets that
    exist that day. *)
Theorem timetables_are_sums self (o : options) (tickets : list ticket)
    (d bound : Z) :
  startdate o ≤ d ≤ enddate o → 0 ≤ bound →
  Z.of_nat (length tickets) * bound < 10 ^ 28 →
  (∀ timetable,
     (∀ t, t ∈ tickets → t_time t ≤ d → open_on self t d = true →
           ∃ z, estimate_on self (remaining_field self) t d = Some (of_int z)
                ∧ Z.abs z ≤ bound) →
     _calculate_timetable self o tickets = Ok timetable →
     timetable !! d = Some (of_int (remaining_on self d tickets)))
  ∧ (∀ timetable,
     (∀ t, t ∈ tickets → t_time t ≤ d →
           ∃ z, estimate_on self (spent_field self) t d = Some (of_int z)
                ∧ Z.abs z ≤ bound) →
     _calculate_timetable_spent self o tickets = Ok timetable →
     timetable !! d = Some (of_int (spent_on self d tickets))).
Proof.
  intros Hd Hb Hbound.
  assert (Hseed : empty_timetable o !! d = Some (of_int 0)).
  { rewrite empty_timetable_lookup. by rewrite decide_True. }
  split; intros timetable Hz Hcalc.
  - apply (for_each_remaining_sum self o d bound tickets (empty_timetable o)
             timetable 0 Hd Hb Hz); [simpl; lia|done..].
  - apply (for_each_spent_sum self o d bound tickets (empty_timetable o)
             timetable 0 Hd Hb Hz); [simpl; lia|done..].
Qed.

Lemma timetables_are_sums_witness :
  _calculate_timetable example_chart example_window [example_ticket; late_ticket]
  = Ok (<[733042 := of_int 10]> (<[733043 := of_int 10]> (<[733044 := of_int 12]>
         (<[733045 := of_int 12]> (<[733046 := of_int 12]> ∅)))))
  ∧ remaining_on example_chart 733044 [example_ticket; late_ticket] = 12
  ∧ (<[733042 := of_int 10]> (<[733043 := of_int 10]> (<[733044 := of_int 12]>
       (<[733045 := of_int 12]> (<[733046 := of_int 12]> ∅)))) : gmap Z Decimal)
    !! 733044
    = Some (of_int (remaining_on example_chart 733044 [example_ticket; late_ticket])).
Proof.
  assert (_calculate_timetable example_chart example_window
            [example_ticket; late_ticket]
          = Ok (<[733042 := of_int 10]> (<[733043 := of_int 10]>
                 (<[733044 := of_int 12]> (<[733045 := of_int 12]>
                   (<[733046 := of_int 12]> ∅)))))) as H by (by vm_compute).
  split; [exact H|]. split; [reflexivity|].
  assert (startdate example_window ≤ 733044 ≤ enddate example_window) as Hd
    by (simpl; lia).
  assert (0 ≤ 10) as Hb by lia.
  assert (Z.of_nat (length [example_ticket; late_ticket]) * 10 < 10 ^ 28) as Hn
    by (simpl; lia).
  refine (proj1 (timetables_are_sums example_chart example_window
                   [example_ticket; late_ticket] 733044 10 Hd Hb Hn) _ _ H).
  intros t Ht _ _.
  apply elem_of_cons in Ht as [->|Ht]; [exists 4; split; [reflexivity|lia]|].
  apply list_elem_of_singleton in Ht as ->. exists 8. split; [reflexivity|lia].
Defined.

(** ** The ends of the y column *)

Lemma percent_zero (m : Decimal) :
  le m (of_int 0) = Ok false → percent (of_int 0) m = Ok "0.00"%string.
Proof.
  intros Hm. apply above_zero_cases in Hm as [(c & e & -> & Hc)| ->].
  - unfold percent. change (mul (of_int 0) (of_int 100)) with (Ok (Finite false 0 0)).
    simpl. unfold div. simpl.
    destruct (N.eqb_spec c 0); [lia|]. simpl.
    reflexivity.
  - reflexivity.
Qed.

(** X24. When [_scale_data] returns, a day up to today whose value is
    Decimal 0 reads "0.00", and a day up to today whose value is the peak
    [maxhours] (a number of at most 28 digits) reads "100.00". *)
Theorem ydata_anchors (timetable : gmap Z Decimal) (o : options)
    (xdata ydata : list string) (maxhours : Decimal) (i : nat) (d : Z) :
  _scale_data timetable o = Ok (xdata, ydata, maxhours) →
  sorted_dates timetable !! i = Some d →
  d ≤ today o →
  (timetable !! d = Some (of_int 0) → ydata !! i = Some "0.00"%string)
  ∧ (timetable !! d = Some maxhours →
     (∃ s c e, maxhours = Finite s c e ∧ ndigits c ≤ prec) →
     ydata !! i = Some "100.00"%string).
Proof.
  intros Hscale Hi Hd.
  assert (∃ v p, timetable !! d = Some v ∧ percent v maxhours = Ok p
                 ∧ ydata !! i = Some p ∧ le maxhours (of_int 0) = Ok false)
    as (v & p & Hv & Hp & Hy & Hm).
  { unfold _scale_data in Hscale.
    destruct (peak timetable o) as [m|] eqn:Hpeak; simpl in Hscale; [|done].
    destruct (percentages timetable m) as [ys0|] eqn:Hys; simpl in Hscale; [|done].
    destruct (abscissas _) as [xs|] eqn:Hxs; simpl in Hscale; [|done].
    destruct (scale_data_masks timetable o m ys0 xs Hpeak Hys Hxs)
      as (ys & Hs & _ & Hitems & _).
    unfold _scale_data in Hs. rewrite Hpeak in Hs. simpl in Hs.
    rewrite Hys in Hs. simpl in Hs. rewrite Hxs in Hs. simpl in Hs.
    rewrite Hs in Hscale. injection Hscale as <- <- <-.
    destruct (Hitems i d Hi) as (v & p & Hv & Hp & _ & Hcase).
    rewrite decide_False in Hcase by lia.
    exists v, p. split; [done|]. split; [done|]. split; [apply Hcase|].
    by eapply peak_above_zero. }
  split.
  - intros H0. rewrite H0 in Hv. injection Hv as <-.
    by rewrite percent_zero in Hp by done; injection Hp as <-.
  - intros Hmax (s & c & e & -> & Hc). rewrite Hmax in Hv. injection Hv as <-.
    destruct (above_zero_cases _ Hm) as [(c' & e' & [= -> -> ->] & Hpos)|[=]].
    by rewrite percent_self in Hp by done; injection Hp as <-.
Qed.

Lemma ydata_anchors_witness :
  _scale_data example_timetable early_window
  = Ok (["0.00"; "25.00"; "50.00"; "75.00"; "100.00"]%string,
        ["100.00"; "100.00"; "-1"; "-1"; "-1"]%string, of_int 10)
  ∧ example_timetable !! 733043 = Some (of_int 10)
  ∧ ["100.00"; "100.00"; "-1"; "-1"; "-1"]%string !! 1%nat = Some "100.00"%string.
Proof.
  assert (_scale_data example_timetable early_window
          = Ok (["0.00"; "25.00"; "50.00"; "75.00"; "100.00"]%string,
                ["100.00"; "100.00"; "-1"; "-1"; "-1"]%string, of_int 10)) as H
    by (by vm_compute).
  split; [exact H|].
  assert (example_timetable !! 733043 = Some (of_int 10)) as Hv by reflexivity.
  split; [exact Hv|].
  assert (sorted_dates example_timetable !! 1%nat = Some 733043) as Hi
    by (by vm_compute).
  assert (733043 ≤ today early_window) as Hd by (simpl; lia).
  apply (proj2 (ydata_anchors _ _ _ _ _ 1%nat 733043 H Hi Hd) Hv).
  exists false, 10%N, 0. split; [reflexivity|]. by vm_compute.
Defined.

(** ** Reading a printed number back *)

Lemma list_ascii_app (a b : string) :
  list_ascii_of_string (a +:+ b) = list_ascii_of_string a ++ list_ascii_of_string b.
Proof. induction a as [|c a IH]; simpl; [done|]. by rewrite <- IH. Qed.

Lemma length_list_ascii (a : string) :
  length (list_ascii_of_string a) = String.length a.
Proof. induction a as [|c a IH]; simpl; [done|]. by rewrite IH. Qed.

Lemma list_ascii_substring (n m : nat) (a : string) :
  list_ascii_of_string (substring n m a) = take m (drop n (list_ascii_of_string a)).
Proof.
  revert n m. induction a as [|c a IH]; intros n m.
  - destruct n, m; done.
  - destruct n as [|n]; simpl.
    + destruct m as [|m]; simpl; [done|]. f_equal. apply (IH 0%nat).
    + apply IH.
Qed.

Lemma list_ascii_zeros (n : nat) :
  list_ascii_of_string (zeros n) = replicate n "0"%char.
Proof. induction n as [|n IH]; simpl; [done|]. by rewrite IH. Qed.

Lemma digit_char_digit (k : N) :
  (k < 10)%N →
  is_digit (digit_char k) = true
  ∧ is_space (digit_char k) = false
  ∧ (N_of_ascii (digit_char k) - 48 = k)%N.
Proof.
  intros Hk.
  assert (k = 0 ∨ k = 1 ∨ k = 2 ∨ k = 3 ∨ k = 4 ∨ k = 5 ∨ k = 6 ∨ k = 7
          ∨ k = 8 ∨ k = 9)%N as Hc by lia.
  destruct Hc as [->|[->|[->|[->|[->|[->|[->|[->|[->| ->]]]]]]]]]; done.
Qed.

Lemma N_of_digits_snoc (ds : list ascii) (c : ascii) :
  N_of_digits (ds ++ [c]) = (10 * N_of_digits ds + (N_of_ascii c - 48))%N.
Proof. unfold N_of_digits. by rewrite fold_left_app. Qed.

(** The digits of a number: its text, read back, is the number. *)
Lemma str_of_N_aux_digits (fuel : nat) (n : N) (acc : string) :
  (Z.of_N n < 10 ^ Z.of_nat fuel) →
  ∃ ds, list_ascii_of_string (str_of_N_aux fuel n acc)
        = ds ++ list_ascii_of_string acc
        ∧ Forall (fun c => is_digit c = true) ds
        ∧ N_of_digits ds = n
        ∧ (fuel ≠ 0%nat → ds ≠ []).
Proof.
  revert n acc. induction fuel as [|fuel IH]; intros n acc Hn.
  - exists []. simpl in *. split_and!; [done|constructor| |done].
    unfold N_of_digits. simpl. lia.
  - simpl str_of_N_aux.
    assert (Hmod : (n mod 10 < 10)%N) by (apply N.mod_lt; lia).
    destruct (digit_char_digit _ Hmod) as (Hd & _ & Hv).
    destruct (N.ltb_spec n 10) as [Hlt|Hge].
    + exists [digit_char (n mod 10)]. simpl. split_and!; [done|by constructor| |done].
      unfold N_of_digits. simpl. rewrite Hv. rewrite N.mod_small by done. lia.
    + destruct (IH (n / 10)%N (String (digit_char (n mod 10)) acc))
        as (ds & Hds & Hall & Hval & _).
      { rewrite Nat2Z.inj_succ, Z.pow_succ_r in Hn by lia.
        rewrite N2Z.inj_div. apply Z.div_lt_upper_bound; lia. }
      exists (ds ++ [digit_char (n mod 10)]). rewrite Hds. simpl.
      rewrite <- app_assoc. split_and!; [done| | |by destruct ds].
      * apply Forall_app. split; [done|by constructor].
      * rewrite N_of_digits_snoc, Hval, Hv.
        pose proof (N.div_mod n 10). lia.
Qed.

Lemma str_of_N_digits (n : N) :
  ∃ ds, list_ascii_of_string (str_of_N n) = ds
        ∧ Forall (fun c => is_digit c = true) ds
        ∧ N_of_digits ds = n
        ∧ ds ≠ [].
Proof.
  unfold str_of_N.
  destruct (str_of_N_aux_digits (S (N.to_nat (N.size n))) n EmptyString)
    as (ds & Hds & Hall & Hval & Hne).
  - pose proof (N.size_gt n) as Hs.
    assert (Z.of_N n < 2 ^ Z.of_N (N.size n)).
    { rewrite <- (N2Z.inj_pow 2). lia. }
    assert (2 ^ Z.of_N (N.size n) ≤ 10 ^ Z.of_N (N.size n))
      by (apply Z.pow_le_mono_l; lia).
    rewrite Nat2Z.inj_succ, Z.pow_succ_r, N_nat_Z by lia.
    assert (0 < 10 ^ Z.of_N (N.size n)) by (apply Z.pow_pos_nonneg; lia). lia.
  - exists ds. simpl in Hds. rewrite app_nil_r in Hds.
    split_and!; [done..|]. by apply Hne.
Qed.

Lemma digit_no_space (c : ascii) : is_digit c = true → is_space c = false.
Proof.
  unfold is_digit, is_space. cbv zeta.
  intros [H1 H2]%andb_true_iff. apply N.leb_le in H1, H2.
  apply orb_false_iff. split.
  - apply N.eqb_neq. lia.
  - apply andb_false_iff. right. apply N.leb_gt. lia.
Qed.

Lemma span_digits_app (ds rest : list ascii) :
  Forall (fun c => is_digit c = true) ds →
  match rest with [] => True | c :: _ => is_digit c = false end →
  span_digits (ds ++ rest) = (ds, rest).
Proof.
  intros Hds Hrest. induction Hds as [|c ds Hc Hds IH]; simpl.
  - destruct rest as [|c rest]; [done|]. simpl. by rewrite Hrest.
  - by rewrite Hc, IH.
Qed.

Lemma lstrip_head (c : ascii) (cs : list ascii) :
  is_space c = false → lstrip (c :: cs) = c :: cs.
Proof. intros Hc. simpl. by rewrite Hc. Qed.

Lemma strip_plain (c : ascii) (cs : list ascii) (z : ascii) :
  is_space c = false → is_space z = false →
  strip (c :: cs ++ [z]) = c :: cs ++ [z].
Proof.
  intros Hc Hz. unfold strip. rewrite lstrip_head by done.
  change (c :: cs ++ [z]) with ((c :: cs) ++ [z]).
  rewrite rev_unit, lstrip_head by done.
  change (rev (z :: rev (c :: cs))) with (rev (rev (c :: cs)) ++ [z]).
  by rewrite rev_involutive.
Qed.

(** A sign, digits, a point and digits: the number that [Decimal] reads. *)
Lemma of_string_plain (s : bool) (ip fp : list ascii) (text : string) :
  list_ascii_of_string text
  = (if s then ["-"%char] else []) ++ ip ++ "."%char :: fp →
  Forall (fun c => is_digit c = true) ip → ip ≠ [] →
  Forall (fun c => is_digit c = true) fp → fp ≠ [] →
  of_string text
  = Some (Finite s (N_of_digits (ip ++ fp)) (- Z.of_nat (length fp))).
Proof.
  intros Htext Hip Hne Hfp Hnf. unfold of_string. rewrite Htext.
  destruct ip as [|i0 ip]; [done|].
  destruct (exists_last Hnf) as (fp' & z & ->).
  assert (Hz : is_digit z = true).
  { apply Forall_app in Hfp as [_ Hz]. by inversion Hz. }
  assert (Hi0 : is_digit i0 = true) by (by inversion Hip).
  assert (Hstrip : ∀ pre : list ascii,
            match pre with [] => True | c :: _ => is_space c = false end →
            strip (pre ++ (i0 :: ip) ++ "."%char :: fp' ++ [z])
            = pre ++ (i0 :: ip) ++ "."%char :: fp' ++ [z]).
  { intros pre Hpre.
    assert (∃ h mid, pre ++ (i0 :: ip) ++ "."%char :: fp' ++ [z] = h :: mid ++ [z]
                     ∧ is_space h = false) as (h & mid & -> & Hh).
    { destruct pre as [|p pre].
      - exists i0, (ip ++ "."%char :: fp'). split; [|by apply digit_no_space].
        simpl. f_equal. by rewrite <- app_assoc.
      - exists p, (pre ++ (i0 :: ip) ++ "."%char :: fp'). split; [|done].
        simpl. f_equal. rewrite <- !app_assoc. simpl. by rewrite <- app_assoc. }
    apply strip_plain; [done|by apply digit_no_space]. }
  assert (Hnum : parse_number (i0 :: ip ++ "."%char :: fp' ++ [z])
                 = Some (N_of_digits ((i0 :: ip) ++ fp' ++ [z]),
                         - Z.of_nat (length (fp' ++ [z])))).
  { change (i0 :: ip ++ "."%char :: fp' ++ [z])
      with ((i0 :: ip) ++ "."%char :: fp' ++ [z]).
    unfold parse_number.
    rewrite (span_digits_app (i0 :: ip) ("."%char :: fp' ++ [z])) by done.
    rewrite <- (app_nil_r (fp' ++ [z])) at 1.
    rewrite (span_digits_app (fp' ++ [z]) []) by done.
    simpl. destruct (fp' ++ [z]); done. }
  destruct s.
  - rewrite (Hstrip ["-"%char]) by done. cbn [app]. by rewrite Hnum.
  - rewrite (Hstrip []) by done. cbn [app].
    assert (i0 ≠ "-"%char ∧ i0 ≠ "+"%char) as [Hm Hp].
    { split; intros ->; done. }
    assert ((let '(sign, body) :=
               match i0 :: ip ++ "."%char :: fp' ++ [z] with
               | "-"%char :: r => (true, r)
               | "+"%char :: r => (false, r)
               | _ => (false, i0 :: ip ++ "."%char :: fp' ++ [z])
               end in
             match parse_number body with
             | Some (c, e) => Some (Finite sign c e)
             | None => parse_special sign body
             end)
            = match parse_number (i0 :: ip ++ "."%char :: fp' ++ [z]) with
              | Some (c, e) => Some (Finite false c e)
              | None => parse_special false (i0 :: ip ++ "."%char :: fp' ++ [z])
              end) as ->.
    { destruct i0 as [[] [] [] [] [] [] [] []]; try done. }
    by rewrite Hnum.
Qed.

Lemma N_of_digits_zeros (k : nat) (ds : list ascii) :
  N_of_digits (replicate k "0"%char ++ ds) = N_of_digits ds.
Proof.
  unfold N_of_digits. rewrite fold_left_app.
  assert (fold_left (fun acc c => (10 * acc + (N_of_ascii c - 48))%N)
            (replicate k "0"%char) 0%N = 0%N) as ->; [|done].
  induction k as [|k IH]; [done|]. simpl. exact IH.
Qed.

(** The text of a number of two places. *)
Lemma str_two_places (s : bool) (c : N) :
  ∃ ip fp,
    list_ascii_of_string (str (Finite s c (-2)))
    = (if s then ["-"%char] else []) ++ ip ++ "."%char :: fp
    ∧ Forall (fun c => is_digit c = true) ip ∧ ip ≠ []
    ∧ Forall (fun c => is_digit c = true) fp ∧ length fp = 2%nat
    ∧ N_of_digits (ip ++ fp) = c.
Proof.
  destruct (str_of_N_digits c) as (ds & Hds & Hall & Hval & Hne).
  assert (Hlen : String.length (str_of_N c) = length ds).
  { by rewrite <- length_list_ascii, Hds. }
  assert (Hpos : (0 < length ds)%nat) by (destruct ds; [done|simpl; lia]).
  unfold str. cbv zeta. rewrite Hlen.
  set (L := Z.of_nat (length ds)).
  assert ((-2 <=? 0) && (-6 <? -2 + L) = true) as ->.
  { apply andb_true_intro. split; [done|]. apply Z.ltb_lt. lia. }
  rewrite Z.eqb_refl.
  assert (Hsign : list_ascii_of_string (if s then "-" else "")
                  = if s then ["-"%char] else []) by (by destruct s).
  destruct (Z.leb_spec (-2 + L) 0) as [Hsmall|Hbig].
  - exists ["0"%char], (replicate (Z.to_nat (- (-2 + L))) "0"%char ++ ds).
    rewrite !list_ascii_app, Hsign, list_ascii_zeros, Hds. simpl.
    rewrite app_nil_r.
    split_and!; [done|by repeat constructor|done| | |].
    + apply Forall_app. split; [|done]. by apply Forall_replicate.
    + rewrite length_app, length_replicate. lia.
    + change ("0"%char :: replicate (Z.to_nat (- (-2 + L))) "0"%char ++ ds)
        with (replicate (S (Z.to_nat (- (-2 + L)))) "0"%char ++ ds).
      by rewrite N_of_digits_zeros.
  - destruct (Z.leb_spec L (-2 + L)); [lia|].
    exists (take (Z.to_nat (-2 + L)) ds), (drop (Z.to_nat (-2 + L)) ds).
    rewrite !list_ascii_app, Hsign, !list_ascii_substring, Hds. simpl.
    rewrite app_nil_r, drop_0.
    replace (Z.to_nat (L - (-2 + L))) with 2%nat by lia.
    rewrite (take_ge (drop _ _)) by (rewrite length_drop; lia).
    split_and!; [done| | | | |].
    + by apply Forall_take.
    + intros Hnil. apply (f_equal length) in Hnil.
      rewrite length_take in Hnil. simpl in Hnil. lia.
    + by apply Forall_drop.
    + rewrite length_drop. lia.
    + by rewrite take_drop.
Qed.

Lemma round_finite (q r : Decimal) :
  is_finite q → _round q = Ok r → ∃ s c, r = Finite s c (-2).
Proof.
  intros Hq Hr. destruct (round_result q r Hr) as [H|(s & p & ->)]; [done|].
  exfalso. destruct q as [s' c e| |]; try done.
  unfold _round, quantize, check_nans in Hr. simpl in Hr.
  destruct (c =? 0)%N; [by rewrite fix_small in Hr by done|].
  destruct (prec <? _); [done|].
  destruct (rescale_exp s' c e (-2) ROUND_HALF_UP) as [c' Hc']. rewrite Hc' in Hr.
  destruct (prec <? ndigits c') eqn:Hp; [done|]. apply Z.ltb_ge in Hp.
  by rewrite fix_small in Hr by done.
Qed.

(** X25. A number that [_round] returns for a finite number is printed by
    [str] as a text that [Decimal] reads back as the same number, sign,
    digits and exponent: the entries of [xdata] that the weekend bands read
    with [Decimal(xdata[...])] raise nothing and lose nothing. *)
Theorem rounded_text_reads_back (q r : Decimal) :
  is_finite q → _round q = Ok r →
  of_string (str r) = Some r ∧ Decimal_new (PStr (str r)) = Ok r.
Proof.
  intros Hq Hr. destruct (round_finite q r Hq Hr) as (s & c & ->).
  destruct (str_two_places s c) as (ip & fp & Htext & Hip & Hne & Hfp & Hlen & Hval).
  assert (of_string (str (Finite s c (-2))) = Some (Finite s c (-2))) as H.
  { rewrite (of_string_plain s ip fp _ Htext Hip Hne Hfp);
      [|by destruct fp]. by rewrite Hval, Hlen. }
  split; [done|]. unfold Decimal_new. by rewrite H.
Qed.

Lemma rounded_text_reads_back_witness :
  _round (Finite false 12345 (-3)) = Ok (Finite false 1235 (-2))
  ∧ str (Finite false 1235 (-2)) = "12.35"%string
  ∧ of_string "12.35" = Some (Finite false 1235 (-2)).
Proof.
  assert (_round (Finite false 12345 (-3)) = Ok (Finite false 1235 (-2))) as H
    by reflexivity.
  split; [exact H|]. split; [reflexivity|].
  exact (proj1 (rounded_text_reads_back (Finite false 12345 (-3))
                  (Finite false 1235 (-2)) I H)).
Defined.
